(** * PDF quiz generator: the session state machine and the two gateways

    A shallow embedding of
    - [src/app/page.tsx]            the client-side quiz session (React state),
    - [src/app/api/chat/route.ts]   the question generation gateway,
    - the upload route              the upload gateway (with its size limits),
    together with the properties of the specification that concern them.

    React state is a record, every handler is a function on that record; the
    closure variables a handler reads are the fields of the state it is
    applied to, and the setters it calls are applied in program order.
    Asynchronous handlers are split at their [await]: the part before the
    request, and the part that consumes the outcome of the request. *)

From Stdlib Require Import ZArith Lia Bool Ascii String Sorted.
From stdpp Require Import base list strings pretty gmap.

Local Open Scope string_scope.
Local Open Scope list_scope.

(** ** JavaScript notions shared by the three files *)

Module JS.

(** [a || b] on strings: the empty string is falsy. *)
Definition truthy (s : string) : bool :=
  match s with "" => false | _ => true end.

Definition or_else (a b : string) : string := if truthy a then a else b.

(** [o.field || b] where the field may be absent. *)
Definition field_or (a : option string) (b : string) : string :=
  match a with Some s => or_else s b | None => b end.

(** [s.toLowerCase()]. Only the letters A-Z are mapped; the characters
    outside ASCII that JavaScript also maps never yield one of [.pdf],
    the only text the result is compared with. *)
Definition lowerAscii (c : ascii) : ascii :=
  let n := Ascii.nat_of_ascii c in
  if (65 <=? n)%nat && (n <=? 90)%nat then Ascii.ascii_of_nat (n + 32) else c.

Fixpoint toLowerCase (s : string) : string :=
  match s with
  | EmptyString => EmptyString
  | String c r => String (lowerAscii c) (toLowerCase r)
  end.

(** [s.includes(sub)] *)
Fixpoint includes (s sub : string) : bool :=
  String.prefix sub s ||
  match s with
  | EmptyString => false
  | String _ r => includes r sub
  end.

(** [s.endsWith(suffix)] *)
Definition endsWith (s suffix : string) : bool :=
  String.prefix (String.rev suffix) (String.rev s).

(** Values produced by [JSON.parse] or [request.json()]. Numbers are not
    inspected anywhere in the program and are kept as integers. *)
#[warnings="-register-all"]
Inductive JSON :=
| JNull
| JBool (b : bool)
| JNumber (n : Z)
| JString (s : string)
| JArray (items : list JSON)
| JObject (fields : gmap string JSON).

(** [!v] for a value that may be [undefined] ([None]). *)
Definition falsy (v : option JSON) : bool :=
  match v with
  | None | Some JNull | Some (JBool false) | Some (JNumber 0)
  | Some (JString EmptyString) => true
  | Some _ => false
  end.

(** What a [throw] or a rejected promise carries, as far as the [catch]
    clauses of the routes tell values apart: whether it has a [message],
    whether it has a [status] and what that holds, and whether it is a
    [z.ZodError]. An error of the provider's client has the property
    [status]: the HTTP status of the response, an integer, or [undefined]
    when there was no response, as for its connection errors. *)
Inductive Thrown :=
| JsError (message : string)
| APIError (status : Z) (message : string)
| APIConnectionError (message : string)
| ZodError (message : string)
| Primitive.

(** [error && typeof error === "object" && "message" in error] with
    [error.message]. *)
Definition messageOf (e : Thrown) : option string :=
  match e with
  | JsError m | APIError _ m | APIConnectionError m | ZodError m => Some m
  | Primitive => None
  end.

(** ["status" in error] with [error.status]: [None] without the
    property, [Some None] when it holds [undefined]. *)
Definition statusOf (e : Thrown) : option (option Z) :=
  match e with
  | APIError st _ => Some (Some st)
  | APIConnectionError _ => Some None
  | _ => None
  end.

Definition isZodError (e : Thrown) : bool :=
  match e with ZodError _ => true | _ => false end.

End JS.

(** ** The quiz session of [page.tsx] *)

Module Page.

(** The field [option] of the source is [optionText] here: [option] is
    the name of a type. *)
Record Option := {
  optionText : string;
  correct : bool }.

Record QuizQuestion := {
  question : string;
  options : list Option }.

Inductive FileStatus := pending | uploading | uploaded | error_status.

(** The browser's [File] object is kept abstract by its name; [ferror] is
    the optional [error] field. *)
Record UploadedFile := {
  id : string;
  name : string;
  status : FileStatus;
  ferror : option string }.

(** The [useState] cells of [PdfQuizPage]. Lengths, the index and the score
    are JavaScript numbers that only ever hold small natural numbers. *)
Record State := {
  selectedFiles : list UploadedFile;
  vectorStoreId : option string;
  questions : list QuizQuestion;
  currentQuestionIndex : nat;
  selectedOption : option Option;
  isAnswered : bool;
  score : nat;
  isLoading : bool;
  isUploading : bool;
  error : option string;
  quizStarted : bool;
  quizFinished : bool }.

Definition initial : State :=
  {| selectedFiles := []; vectorStoreId := None; questions := [];
     currentQuestionIndex := 0; selectedOption := None; isAnswered := false;
     score := 0; isLoading := false; isUploading := false; error := None;
     quizStarted := false; quizFinished := false |}.

(** The setters returned by [useState]. *)
Definition setSelectedFiles (v : list UploadedFile) (s : State) : State :=
  {| selectedFiles := v; vectorStoreId := vectorStoreId s;
     questions := questions s;
     currentQuestionIndex := currentQuestionIndex s;
     selectedOption := selectedOption s; isAnswered := isAnswered s;
     score := score s; isLoading := isLoading s;
     isUploading := isUploading s; error := error s;
     quizStarted := quizStarted s; quizFinished := quizFinished s |}.

Definition setVectorStoreId (v : option string) (s : State) : State :=
  {| selectedFiles := selectedFiles s; vectorStoreId := v;
     questions := questions s;
     currentQuestionIndex := currentQuestionIndex s;
     selectedOption := selectedOption s; isAnswered := isAnswered s;
     score := score s; isLoading := isLoading s;
     isUploading := isUploading s; error := error s;
     quizStarted := quizStarted s; quizFinished := quizFinished s |}.

Definition setQuestions (v : list QuizQuestion) (s : State) : State :=
  {| selectedFiles := selectedFiles s; vectorStoreId := vectorStoreId s;
     questions := v;
     currentQuestionIndex := currentQuestionIndex s;
     selectedOption := selectedOption s; isAnswered := isAnswered s;
     score := score s; isLoading := isLoading s;
     isUploading := isUploading s; error := error s;
     quizStarted := quizStarted s; quizFinished := quizFinished s |}.

Definition setCurrentQuestionIndex (v : nat) (s : State) : State :=
  {| selectedFiles := selectedFiles s; vectorStoreId := vectorStoreId s;
     questions := questions s;
     currentQuestionIndex := v;
     selectedOption := selectedOption s; isAnswered := isAnswered s;
     score := score s; isLoading := isLoading s;
     isUploading := isUploading s; error := error s;
     quizStarted := quizStarted s; quizFinished := quizFinished s |}.

Definition setSelectedOption (v : option Option) (s : State) : State :=
  {| selectedFiles := selectedFiles s; vectorStoreId := vectorStoreId s;
     questions := questions s;
     currentQuestionIndex := currentQuestionIndex s;
     selectedOption := v; isAnswered := isAnswered s;
     score := score s; isLoading := isLoading s;
     isUploading := isUploading s; error := error s;
     quizStarted := quizStarted s; quizFinished := quizFinished s |}.

Definition setIsAnswered (v : bool) (s : State) : State :=
  {| selectedFiles := selectedFiles s; vectorStoreId := vectorStoreId s;
     questions := questions s;
     currentQuestionIndex := currentQuestionIndex s;
     selectedOption := selectedOption s; isAnswered := v;
     score := score s; isLoading := isLoading s;
     isUploading := isUploading s; error := error s;
     quizStarted := quizStarted s; quizFinished := quizFinished s |}.

Definition setScore (v : nat) (s : State) : State :=
  {| selectedFiles := selectedFiles s; vectorStoreId := vectorStoreId s;
     questions := questions s;
     currentQuestionIndex := currentQuestionIndex s;
     selectedOption := selectedOption s; isAnswered := isAnswered s;
     score := v; isLoading := isLoading s;
     isUploading := isUploading s; error := error s;
     quizStarted := quizStarted s; quizFinished := quizFinished s |}.

Definition setIsLoading (v : bool) (s : State) : State :=
  {| selectedFiles := selectedFiles s; vectorStoreId := vectorStoreId s;
     questions := questions s;
     currentQuestionIndex := currentQuestionIndex s;
     selectedOption := selectedOption s; isAnswered := isAnswered s;
     score := score s; isLoading := v;
     isUploading := isUploading s; error := error s;
     quizStarted := quizStarted s; quizFinished := quizFinished s |}.

Definition setIsUploading (v : bool) (s : State) : State :=
  {| selectedFiles := selectedFiles s; vectorStoreId := vectorStoreId s;
     questions := questions s;
     currentQuestionIndex := currentQuestionIndex s;
     selectedOption := selectedOption s; isAnswered := isAnswered s;
     score := score s; isLoading := isLoading s;
     isUploading := v; error := error s;
     quizStarted := quizStarted s; quizFinished := quizFinished s |}.

Definition setError (v : option string) (s : State) : State :=
  {| selectedFiles := selectedFiles s; vectorStoreId := vectorStoreId s;
     questions := questions s;
     currentQuestionIndex := currentQuestionIndex s;
     selectedOption := selectedOption s; isAnswered := isAnswered s;
     score := score s; isLoading := isLoading s;
     isUploading := isUploading s; error := v;
     quizStarted := quizStarted s; quizFinished := quizFinished s |}.

Definition setQuizStarted (v : bool) (s : State) : State :=
  {| selectedFiles := selectedFiles s; vectorStoreId := vectorStoreId s;
     questions := questions s;
     currentQuestionIndex := currentQuestionIndex s;
     selectedOption := selectedOption s; isAnswered := isAnswered s;
     score := score s; isLoading := isLoading s;
     isUploading := isUploading s; error := error s;
     quizStarted := v; quizFinished := quizFinished s |}.

Definition setQuizFinished (v : bool) (s : State) : State :=
  {| selectedFiles := selectedFiles s; vectorStoreId := vectorStoreId s;
     questions := questions s;
     currentQuestionIndex := currentQuestionIndex s;
     selectedOption := selectedOption s; isAnswered := isAnswered s;
     score := score s; isLoading := isLoading s;
     isUploading := isUploading s; error := error s;
     quizStarted := quizStarted s; quizFinished := v |}.

(** Statements of a handler run top to bottom: [s |> f |> g] applies [f]
    first. *)
Notation "s |> f" := (f s) (at level 45, left associativity, only parsing).

(** *** Handlers *)

(** [resetQuizState], lines 104-113. *)
Definition resetQuizState (s : State) : State :=
  s |> setQuestions []
    |> setCurrentQuestionIndex 0
    |> setSelectedOption None
    |> setIsAnswered false
    |> setScore 0
    |> setQuizStarted false
    |> setQuizFinished false
    |> setError None.

(** The argument of [handleProcessQuizData] is cast to
    [{ quiz?: QuizQuestion[] }]; [None] stands for a falsy [data], a
    missing [quiz] for an absent, falsy or non-array field. *)
Record QuizData := { quiz : option (list QuizQuestion) }.

Definition noNewQuestions : string :=
  "The API returned no new questions from the PDFs, or the format was unexpected.".
Definition noQuestions : string :=
  "No questions could be generated from these PDFs, or the data format was unexpected.".

(** [handleProcessQuizData], lines 115-153. In the appending branch the
    index is set inside the functional update of [questions], from the
    list as it is at that moment. *)
Definition handleProcessQuizData
    (data : option QuizData) (isAppending : bool) (s : State) : State :=
  match data with
  | Some {| quiz := Some ((_ :: _) as newQuestions) |} =>
      (if isAppending
       then s |> setQuestions (questions s ++ newQuestions)
              |> setCurrentQuestionIndex (length (questions s))
       else s |> setQuestions newQuestions
              |> setCurrentQuestionIndex 0)
        |> setSelectedOption None
        |> setIsAnswered false
        |> setQuizStarted true
        |> setQuizFinished false
        |> setError None
  | _ =>
      let s1 := s |> setError (Some (if isAppending then noNewQuestions
                                     else noQuestions)) in
      if negb isAppending
      then s1 |> setQuizStarted false |> setQuestions []
      else s1
  end.

(** [handleOptionSelect], lines 326-333. *)
Definition handleOptionSelect (o : Option) (s : State) : State :=
  if isAnswered s then s
  else
    let s1 := s |> setSelectedOption (Some o) |> setIsAnswered true in
    if correct o then s1 |> setScore (score s1 + 1) else s1.

(** [handleNextQuestion], lines 335-343. The comparison is the one of the
    source, [currentQuestionIndex < questions.length - 1] over the
    integers (the right-hand side is [-1] for an empty list). *)
Definition handleNextQuestion (s : State) : State :=
  if (Z.of_nat (currentQuestionIndex s)
        <? Z.of_nat (length (questions s)) - 1)%Z
  then s |> setCurrentQuestionIndex (currentQuestionIndex s + 1)
         |> setSelectedOption None
         |> setIsAnswered false
  else s |> setQuizFinished true.

(** [handleUploadNewFiles], lines 312-316. *)
Definition handleUploadNewFiles (s : State) : State :=
  s |> resetQuizState |> setSelectedFiles [] |> setVectorStoreId None.

(** *** Requests to the two routes

    What [await fetch(...)] followed by the inspection of the response can
    yield: [fetch] or the [json()] of a successful response throws; the
    response is not [ok]; or it is [ok] and carries [data]. *)

Inductive ErrorData :=
| ErrorJson (message error : option string)
    (* the body parses; its [message] and [error] fields, if any *)
| ErrorNoJson (thrown : string).
    (* [response.json()] throws [e]; [thrown] is [`${e}`] *)

Inductive Fetched (A : Type) :=
| Rejected (message : string)
| NotOk (status : Z) (statusText : string) (body : ErrorData)
| Ok (data : A).
Arguments Rejected {A} message.
Arguments NotOk {A} status statusText body.
Arguments Ok {A} data.

(** The message of the [Error] thrown for a response that is not [ok];
    [prefix] is ["API Error: "] or ["Upload Error: "]. *)
Definition errorMsg (prefix : string) (status : Z) (statusText : string)
    (body : ErrorData) : string :=
  match body with
  | ErrorJson message error =>
      JS.field_or message (JS.field_or error (prefix +:+ pretty status))
  | ErrorNoJson thrown => JS.or_else statusText thrown
  end.

(** [e.message] of what reaches the [catch] clause, if anything does. *)
Definition caught {A} (prefix : string) (r : Fetched A) : option string :=
  match r with
  | Rejected message => Some message
  | NotOk status statusText body =>
      Some (errorMsg prefix status statusText body)
  | Ok _ => None
  end.

Definition uploadUnexpected : string :=
  "An unexpected error occurred while uploading the PDF files.".
Definition generateUnexpected : string :=
  "An unexpected error occurred while generating the quiz.".

Definition withStatus (st : FileStatus) (f : UploadedFile) : UploadedFile :=
  {| id := id f; name := name f; status := st; ferror := ferror f |}.

Definition withError (msg : string) (f : UploadedFile) : UploadedFile :=
  {| id := id f; name := name f; status := error_status;
     ferror := Some msg |}.

(** [uploadFilesToVectorStore], lines 155-219, up to the request. [None]
    when the function returns before sending anything. *)
Definition uploadFilesToVectorStore_begin (s : State) : option State :=
  match selectedFiles s with
  | [] => None
  | _ => Some (s |> setIsUploading true
                 |> setError None
                 |> setSelectedFiles (withStatus uploading <$> selectedFiles s))
  end.

(** ... and from the response on; the second component is the returned
    [data.vectorStoreId] or [null]. *)
Definition uploadFilesToVectorStore_end
    (r : Fetched (option string)) (s : State) : State * option string :=
  match r with
  | Ok vsid =>
      (s |> setSelectedFiles (withStatus uploaded <$> selectedFiles s)
         |> setIsUploading false, vsid)
  | _ =>
      let message := default "" (caught "Upload Error: " r) in
      (s |> setError (Some (JS.or_else message uploadUnexpected))
         |> setSelectedFiles (withError message <$> selectedFiles s)
         |> setIsUploading false, None)
  end.

Definition uploadFilesToVectorStore
    (r : Fetched (option string)) (s : State) : State * option string :=
  match uploadFilesToVectorStore_begin s with
  | None => (s |> setError (Some "No PDF files selected."), None)
  | Some s1 => uploadFilesToVectorStore_end r s1
  end.

(** [fetchQuizFromVectorStore], lines 221-278, up to the request. *)
Definition fetchQuizFromVectorStore_begin
    (isContinuation : bool) (s : State) : State :=
  let s1 := s |> setIsLoading true |> setError None in
  if negb isContinuation
  then s1 |> setQuestions []
          |> setCurrentQuestionIndex 0
          |> setSelectedOption None
          |> setIsAnswered false
          |> setScore 0
          |> setQuizFinished false
  else s1.

(** The [existingQuestions] of the request body, from the [questions] of
    the render the handler belongs to. *)
Definition existingQuestions (isContinuation : bool) (s : State)
    : list string :=
  if isContinuation && (0 <? length (questions s))%nat
  then question <$> questions s
  else [].

Definition fetchQuizFromVectorStore_end
    (isContinuation : bool) (r : Fetched (option QuizData)) (s : State)
    : State :=
  match r with
  | Ok data =>
      s |> handleProcessQuizData data isContinuation
        |> setIsLoading false
  | _ =>
      let message := default "" (caught "API Error: " r) in
      let s1 := s |> setError (Some (JS.or_else message generateUnexpected)) in
      (if negb isContinuation then s1 |> setQuizStarted false else s1)
        |> setIsLoading false
  end.

Definition fetchQuizFromVectorStore
    (isContinuation : bool) (r : Fetched (option QuizData)) (s : State)
    : State :=
  s |> fetchQuizFromVectorStore_begin isContinuation
    |> fetchQuizFromVectorStore_end isContinuation r.

(** [!currentVectorStoreId] *)
Definition falsyId (v : option string) : bool :=
  match v with Some i => negb (JS.truthy i) | None => true end.

Definition notUploaded (f : UploadedFile) : bool :=
  match status f with uploaded => false | _ => true end.

(** [handleStartQuiz], lines 280-300, given the outcomes of the two
    requests it may send. *)
Definition handleStartQuiz
    (up : Fetched (option string)) (r : Fetched (option QuizData))
    (s : State) : State :=
  match selectedFiles s with
  | [] => s |> setError (Some "Please select at least one PDF file first.")
  | _ =>
      if falsyId (vectorStoreId s) || existsb notUploaded (selectedFiles s)
      then
        let '(s1, currentVectorStoreId) := uploadFilesToVectorStore up s in
        if falsyId currentVectorStoreId then s1
        else s1 |> setVectorStoreId currentVectorStoreId
                |> fetchQuizFromVectorStore false r
      else s |> fetchQuizFromVectorStore false r
  end.

(** [handleFetchAndContinueQuiz] and [handleRestartQuizFromFiles], lines
    302-310. *)
Definition handleFetchAndContinueQuiz
    (r : Fetched (option QuizData)) (s : State) : State :=
  if falsyId (vectorStoreId s) then s
  else fetchQuizFromVectorStore true r s.

Definition handleRestartQuizFromFiles
    (r : Fetched (option QuizData)) (s : State) : State :=
  if falsyId (vectorStoreId s) then s
  else fetchQuizFromVectorStore false r s.

(** *** The session as a transition system

    One event per handler invocation or per half of an asynchronous
    handler, so that other events may fall between a request and its
    response. *)
Inductive Event :=
| OptionSelect (o : Option)
| NextQuestion
| UploadNewFiles
| ResetQuizState
| ProcessQuizData (data : option QuizData) (isAppending : bool)
| UploadBegin
| UploadEnd (r : Fetched (option string))
| SetVectorStoreId (v : option string)
| FetchBegin (isContinuation : bool)
| FetchEnd (isContinuation : bool) (r : Fetched (option QuizData)).

Definition step (ev : Event) (s : State) : State :=
  match ev with
  | OptionSelect o => handleOptionSelect o s
  | NextQuestion => handleNextQuestion s
  | UploadNewFiles => handleUploadNewFiles s
  | ResetQuizState => resetQuizState s
  | ProcessQuizData data isAppending =>
      handleProcessQuizData data isAppending s
  | UploadBegin => default (s |> setError (Some "No PDF files selected."))
                           (uploadFilesToVectorStore_begin s)
  | UploadEnd r => fst (uploadFilesToVectorStore_end r s)
  | SetVectorStoreId v => setVectorStoreId v s
  | FetchBegin isContinuation =>
      fetchQuizFromVectorStore_begin isContinuation s
  | FetchEnd isContinuation r =>
      fetchQuizFromVectorStore_end isContinuation r s
  end.

Definition run (evs : list Event) (s : State) : State :=
  foldl (fun s ev => step ev s) s evs.

Inductive reachable : State -> Prop :=
| reachable_initial : reachable initial
| reachable_step ev s : reachable s -> reachable (step ev s).

(** The condition under which the question view is rendered, line 375. *)
Definition answering (s : State) : bool :=
  quizStarted s && negb (quizFinished s) && (0 <? length (questions s))%nat.

(** *** Vocabulary of the properties *)

(** The events that do not start the quiz over: everything but the reset,
    the return to the upload view and a generation that is not a
    continuation. *)
Definition within_run (ev : Event) : bool :=
  match ev with
  | UploadNewFiles | ResetQuizState | ProcessQuizData _ false
  | FetchBegin false | FetchEnd false _ => false
  | _ => true
  end.

(** A selection on a question that has no answer yet ... *)
Definition answers (ev : Event) (s : State) : bool :=
  match ev with
  | OptionSelect _ => negb (isAnswered s)
  | _ => false
  end.

(** ... and one that moreover picks a correct option. *)
Definition firstCorrect (ev : Event) (s : State) : bool :=
  match ev with
  | OptionSelect o => negb (isAnswered s) && correct o
  | _ => false
  end.

(** Along a trace: how many first selections were correct, and the
    positions of the questions that received their answer. *)
Fixpoint scored (evs : list Event) (s : State) : nat :=
  match evs with
  | [] => 0
  | ev :: rest =>
      (if firstCorrect ev s then 1 else 0) + scored rest (step ev s)
  end.

Fixpoint answeredAt (evs : list Event) (s : State) : list nat :=
  match evs with
  | [] => []
  | ev :: rest =>
      (if answers ev s then [currentQuestionIndex s] else [])
        ++ answeredAt rest (step ev s)
  end.

(** A generation request fails when anything but a non-empty list of
    questions comes back. *)
Definition failed (r : Fetched (option QuizData)) : bool :=
  match r with
  | Ok (Some {| quiz := Some (_ :: _) |}) => false
  | _ => true
  end.

Definition failureMessage (isContinuation : bool)
    (r : Fetched (option QuizData)) : string :=
  match r with
  | Ok _ => if isContinuation then noNewQuestions else noQuestions
  | _ => JS.or_else (default "" (caught "API Error: " r)) generateUnexpected
  end.

(** The reading of "a failed operation leaves the session as it was, with
    only the error message set", for a handler [h] that consumes the
    outcome of a generation request. *)
Definition only_sets_error
    (h : Fetched (option QuizData) -> State -> State) : Prop :=
  forall r s, failed r = true -> isLoading s = false ->
    exists message, h r s = setError (Some message) s.

(** *** Staging files, lines 71-102 *)

(** What the page reads of an entry of [event.target.files]: [file.name],
    here [fileName], and [file.type]. *)
Record PickedFile := { fileName : string; type : string }.

(** The loop of lines 75-86. [draw i] is the value of
    [Math.random().toString(36).substr(2, 9)] in iteration [i]. *)
Fixpoint newFilesFrom (draw : nat -> string) (i : nat)
    (files : list PickedFile) : list UploadedFile :=
  match files with
  | [] => []
  | file :: rest =>
      (if String.eqb (type file) "application/pdf"
       then [{| id := draw i; name := fileName file; status := pending;
                ferror := None |}]
       else [])
      ++ newFilesFrom draw (S i) rest
  end.

(** [handleFileChange]; [files] is [event.target.files], which may be
    [null]. *)
Definition handleFileChange (files : option (list PickedFile))
    (draw : nat -> string) (s : State) : State :=
  match files with
  | None => s
  | Some files =>
      match newFilesFrom draw 0 files with
      | [] => s |> setError (Some "Please select at least one valid PDF file.")
      | newFiles =>
          s |> setSelectedFiles (selectedFiles s ++ newFiles)
            |> setError None
      end
  end.

Definition removeFile (fileId : string) (s : State) : State :=
  s |> setSelectedFiles
         (List.filter (fun file => negb (String.eqb (id file) fileId))
                      (selectedFiles s)).

(** *** The order of the options, lines 44-52 and 318-324 *)

(** [[a[i], a[j]] = [a[j], a[i]]]. Both indices are inside the array
    wherever the shuffle uses it; elsewhere the array is left as it is. *)
Definition swap {A} (i j : nat) (a : list A) : list A :=
  match a !! i, a !! j with
  | Some x, Some y => <[j:=x]> (<[i:=y]> a)
  | _, _ => a
  end.

(** The loop of [shuffleArray], from index [i] down to 1. [draw i] is the
    value of [Math.floor(Math.random() * (i + 1))] in the iteration for
    [i]. *)
Fixpoint shuffleFrom {A} (draw : nat -> nat) (i : nat) (a : list A) : list A :=
  match i with
  | 0 => a
  | S i' => shuffleFrom draw i' (swap i (draw i) a)
  end.

Definition shuffleArray {A} (draw : nat -> nat) (array : list A) : list A :=
  shuffleFrom draw (length array - 1) array.

(** [shuffledOptions], the memoised value of lines 319-324. *)
Definition shuffledOptions (draw : nat -> nat) (s : State) : list Option :=
  if (length (questions s) =? 0)%nat
     || (length (questions s) <=? currentQuestionIndex s)%nat
  then []
  else match questions s !! currentQuestionIndex s with
       | Some q => shuffleArray draw (options q)
       | None => []
       end.

(** The answered flag and the recorded selection go together. *)
Definition flag_matches_selection (s : State) : Prop :=
  isAnswered s = true <-> selectedOption s <> None.

(** What the index can no longer fall below: questions up to the current
    one, included once it is answered. *)
Definition settled (s : State) : nat :=
  currentQuestionIndex s + (if isAnswered s then 1 else 0).

Definition in_range (s : State) : Prop :=
  currentQuestionIndex s < length (questions s).

(** *** What the user can do, lines 375-716 *)

Inductive View := UploadView | QuizView | FinishedView.

(** The three [return]s of the component: the question view of line
    375, the result view of line 483, and the upload view otherwise. *)
Definition view (s : State) : View :=
  if answering s then QuizView
  else if quizFinished s then FinishedView
  else UploadView.

(** A request that was sent and whose response has not been handled. *)
Inductive Pending := PendingUpload | PendingFetch (isContinuation : bool).

Record Session := { page : State; inFlight : list Pending }.

(** The condition of lines 289-292. *)
Definition needsUpload (s : State) : bool :=
  falsyId (vectorStoreId s) || existsb notUploaded (selectedFiles s).

(** One step of the session: an event of a control that is rendered and
    not disabled in the current view, up to the first [await] of its
    handler, or the arrival of a response with the rest of the handler
    that waited for it. A click on "more questions" or "restart" without
    a store handle returns at once and is no step. *)
Inductive ui_step : Session -> Session -> Prop :=
| ui_pick files draw s fl :
    view s = UploadView ->
    ui_step {| page := s; inFlight := fl |}
            {| page := handleFileChange files draw s; inFlight := fl |}
| ui_remove f s fl :
    view s = UploadView -> f ∈ selectedFiles s ->
    ui_step {| page := s; inFlight := fl |}
            {| page := removeFile (id f) s; inFlight := fl |}
| ui_start_upload s s1 fl :
    view s = UploadView ->
    selectedFiles s <> [] -> isLoading s = false -> isUploading s = false ->
    needsUpload s = true -> uploadFilesToVectorStore_begin s = Some s1 ->
    ui_step {| page := s; inFlight := fl |}
            {| page := s1; inFlight := fl ++ [PendingUpload] |}
| ui_start_fetch s fl :
    view s = UploadView ->
    selectedFiles s <> [] -> isLoading s = false -> isUploading s = false ->
    needsUpload s = false ->
    ui_step {| page := s; inFlight := fl |}
            {| page := fetchQuizFromVectorStore_begin false s;
               inFlight := fl ++ [PendingFetch false] |}
| ui_upload_failed up s fl1 fl2 :
    falsyId (uploadFilesToVectorStore_end up s).2 = true ->
    ui_step {| page := s; inFlight := fl1 ++ PendingUpload :: fl2 |}
            {| page := (uploadFilesToVectorStore_end up s).1;
               inFlight := fl1 ++ fl2 |}
| ui_uploaded up s fl1 fl2 :
    falsyId (uploadFilesToVectorStore_end up s).2 = false ->
    ui_step {| page := s; inFlight := fl1 ++ PendingUpload :: fl2 |}
            {| page := (uploadFilesToVectorStore_end up s).1
                         |> setVectorStoreId (uploadFilesToVectorStore_end up s).2
                         |> fetchQuizFromVectorStore_begin false;
               inFlight := fl1 ++ fl2 ++ [PendingFetch false] |}
| ui_fetched isContinuation r s fl1 fl2 :
    ui_step {| page := s;
               inFlight := fl1 ++ PendingFetch isContinuation :: fl2 |}
            {| page := fetchQuizFromVectorStore_end isContinuation r s;
               inFlight := fl1 ++ fl2 |}
| ui_select o q s fl :
    view s = QuizView -> isAnswered s = false ->
    questions s !! currentQuestionIndex s = Some q -> o ∈ options q ->
    ui_step {| page := s; inFlight := fl |}
            {| page := handleOptionSelect o s; inFlight := fl |}
| ui_next s fl :
    view s = QuizView -> isAnswered s = true ->
    ui_step {| page := s; inFlight := fl |}
            {| page := handleNextQuestion s; inFlight := fl |}
| ui_upload_new s fl :
    view s <> UploadView ->
    ui_step {| page := s; inFlight := fl |}
            {| page := handleUploadNewFiles s; inFlight := fl |}
| ui_more s isContinuation fl :
    view s = FinishedView -> isLoading s = false ->
    falsyId (vectorStoreId s) = false ->
    ui_step {| page := s; inFlight := fl |}
            {| page := fetchQuizFromVectorStore_begin isContinuation s;
               inFlight := fl ++ [PendingFetch isContinuation] |}.

Inductive ui_reachable : Session -> Prop :=
| ui_initial : ui_reachable {| page := initial; inFlight := [] |}
| ui_after a b : ui_reachable a -> ui_step a b -> ui_reachable b.

(** What holds of the quiz in every session the user can reach. *)
Definition bounded (s : State) : Prop :=
  score s <= settled s /\
  (questions s = [] ->
     score s = 0 /\ currentQuestionIndex s = 0 /\ isAnswered s = false) /\
  (questions s <> [] -> currentQuestionIndex s < length (questions s)) /\
  (quizFinished s = true -> questions s <> []).

(** The flags of the page against the requests in flight. *)
Definition flags_match (x : Session) : Prop :=
  match inFlight x with
  | [] => isLoading (page x) = false /\ isUploading (page x) = false
  | [PendingUpload] =>
      isLoading (page x) = false /\ isUploading (page x) = true /\
      view (page x) = UploadView
  | [PendingFetch isContinuation] =>
      isLoading (page x) = true /\ isUploading (page x) = false /\
      (isContinuation = false ->
       questions (page x) = [] /\ quizFinished (page x) = false)
  | _ => False
  end.

End Page.

(** ** The provider client and the effects of a route handler *)

Module Remote.
Import JS.

(** The [File] entries of the multipart form. *)
Record File := { name : string; size : Z }.

Record Batch := { batch_id : string; batch_status : string }.

Inductive Content :=
| TextContent (value : string)
| OtherContent.

Record Message := { role : string; content : list Content }.

(** The calls of the [openai] client that the routes make, indexed by the
    type of what they resolve to. Of every argument and result only the
    parts that the routes read are kept; of the prompt sent with
    [messages.create], the two things it is assembled from. *)
Inductive Call : Type -> Type :=
| VectorStoresCreate : Call string
| VectorStoresRetrieve (vectorStoreId : JSON) : Call unit
| VectorStoresFilesList (vectorStoreId : JSON) : Call (option (list string))
| VectorStoresDel (vectorStoreId : string) : Call unit
| FilesCreate (file : File) : Call string
| FilesDel (fileId : string) : Call unit
| FileBatchesCreateAndPoll (vectorStoreId : string) (file_ids : list string)
    : Call Batch
| AssistantsCreate (vectorStoreId : JSON) : Call string
| AssistantsDel (assistantId : string) : Call unit
| ThreadsCreate : Call string
| ThreadsDel (threadId : string) : Call unit
| MessagesCreate (threadId : string) (actionText : string)
    (existingQuestions : list JSON) : Call unit
| RunsCreateAndPoll (threadId assistantId : string) : Call string
| MessagesList (threadId : string) : Call (list Message)
| ChatCompletionsParse (context : string) : Call (option JSON).

(** What a handler does that can be observed from outside, in order: a
    call of the client with what it resolved to or rejected with, or a
    line on the console. *)
Inductive Effect :=
| Request {A} (c : Call A) (reply : Thrown + A)
| ConsoleError (text : string)
| ConsoleWarn (text : string).

Definition isRequest (e : Effect) : bool :=
  match e with Request _ _ => true | _ => false end.

(** The provider: any function of what happened so far and of the call. *)
Definition Provider := forall A, list Effect -> Call A -> Thrown + A.

(** A handler computes with the provider at hand, a local mutable
    variable of type [S] that survives a [throw], and the effects so far;
    it returns normally or throws. *)
Definition M (S A : Type) : Type :=
  Provider -> S -> list Effect -> (Thrown + A) * S * list Effect.

Definition ret {S A} (a : A) : M S A := fun _ s t => (inr a, s, t).

Definition bind {S A B} (m : M S A) (k : A -> M S B) : M S B :=
  fun p s t =>
    match m p s t with
    | (inr a, s', t') => k a p s' t'
    | (inl e, s', t') => (inl e, s', t')
    end.

Definition throw {S A} (e : Thrown) : M S A := fun _ s t => (inl e, s, t).

(** [try { m } catch (e) { h e }] *)
Definition try_catch {S A} (m : M S A) (h : Thrown -> M S A) : M S A :=
  fun p s t =>
    match m p s t with
    | (inr a, s', t') => (inr a, s', t')
    | (inl e, s', t') => h e p s' t'
    end.

Definition call {S A} (c : Call A) : M S A :=
  fun p s t => let reply := p A t c in (reply, s, t ++ [Request c reply]).

Definition log {S} (e : Effect) : M S unit :=
  fun _ s t => (inr tt, s, t ++ [e]).

Definition get {S} : M S S := fun _ s t => (inr s, s, t).
Definition modify {S} (f : S -> S) : M S unit :=
  fun _ s t => (inr tt, f s, t).

(** [await] of something that resolves or rejects outside the provider. *)
Definition lift {S A} (r : Thrown + A) : M S A := fun _ s t => (r, s, t).

Declare Scope js_scope.
Delimit Scope js_scope with js.
Notation "x <- m ;; k" := (bind m (fun x => k))
  (at level 100, m at next level, right associativity) : js_scope.
Notation "m ;; k" := (bind m (fun _ => k))
  (at level 100, right associativity) : js_scope.

(** An HTTP response: the status and the object that is serialised as
    the body. Headers are the same on all paths and left out, and so is
    the [error] field with the stack, present in development builds only. *)
Record Response (B : Type) := { status : Z; body : B }.
Arguments status {B} _.
Arguments body {B} _.

(** [new Response(body, { headers })]: the status defaults to 200. *)
Definition ok {B} (b : B) : Response B := {| status := 200; body := b |}.

(** The statuses that go without a body. *)
Definition nullBodyStatus (st : Z) : bool :=
  (st =? 101)%Z || (st =? 204)%Z || (st =? 205)%Z || (st =? 304)%Z.

Definition quote : string := String (Ascii.ascii_of_nat 34) EmptyString.

(** [new Response(body, { status, headers })] for a status that is not a
    literal and a body that is a string. An [undefined] status is the
    default. An integer is converted to an [unsigned short], which Node
    does with the remainder of the division by 2^16; the constructor then
    throws a [RangeError] outside 200-599 and a [TypeError] for a status
    that goes without a body. *)
Definition newResponse {B} (status : option Z) (b : B)
    : Thrown + Response B :=
  match status with
  | None => inr (ok b)
  | Some st =>
      let st := Z.rem st 65536 in
      if (st <? 200)%Z || (599 <? st)%Z then
        inl (JsError ("init[" +:+ quote +:+ "status" +:+ quote
                      +:+ "] must be in the range of 200 to 599, inclusive."))
      else if nullBodyStatus st then
        inl (JsError ("Invalid response status code " +:+ pretty st))
      else inr {| status := st; body := b |}
  end.

(** Running a handler from scratch. *)
Definition exec {S A} (m : M S A) (p : Provider) (s : S)
    : (Thrown + A) * S * list Effect :=
  m p s [].

Definition result {S A} (m : M S A) (p : Provider) (s : S) : Thrown + A :=
  (exec m p s).1.1.

Definition effects {S A} (m : M S A) (p : Provider) (s : S) : list Effect :=
  (exec m p s).2.

Definition requests {S A} (m : M S A) (p : Provider) (s : S) : list Effect :=
  List.filter isRequest (effects m p s).

End Remote.

(** ** The question generation gateway, [api/chat/route.ts] *)

Module Chat.
Import JS Remote.
Local Open Scope js_scope.

(** *** The schemas, lines 12-30

    A schema maps a value to the parsed value or to the issues found. As
    in zod, a failed length check on an array does not stop the parsing of
    its elements, and an object reports the issues of all its fields. A
    value of the wrong type yields the issue [invalid_type]. *)
Inductive Parsed (A : Type) :=
| Valid (value : A)
| Invalid (issues : list string).
Arguments Valid {A} value.
Arguments Invalid {A} issues.

Definition invalid_type : string := "invalid_type".

Definition both {A B C} (f : A -> B -> C) (a : Parsed A) (b : Parsed B)
    : Parsed C :=
  match a, b with
  | Valid x, Valid y => Valid (f x y)
  | Valid _, Invalid j => Invalid j
  | Invalid i, Valid _ => Invalid i
  | Invalid i, Invalid j => Invalid (i ++ j)
  end.

Definition check (b : bool) (message : string) : Parsed unit :=
  if b then Valid tt else Invalid [message].

Fixpoint elements {A} (l : list (Parsed A)) : Parsed (list A) :=
  match l with
  | [] => Valid []
  | x :: r => both cons x (elements r)
  end.

(** [z.string().min(1, message)] *)
Definition z_string_min1 (message : string) (v : option JSON)
    : Parsed string :=
  match v with
  | Some (JString s) => both (fun _ x => x) (check (truthy s) message) (Valid s)
  | _ => Invalid [invalid_type]
  end.

(** [z.boolean()] *)
Definition z_boolean (v : option JSON) : Parsed bool :=
  match v with
  | Some (JBool b) => Valid b
  | _ => Invalid [invalid_type]
  end.

(** [z.array(item).min(lo, tooFew).max(hi, tooMany)] *)
Definition z_array {A} (item : JSON -> Parsed A)
    (lo : nat) (tooFew : string) (hi : nat) (tooMany : string)
    (v : option JSON) : Parsed (list A) :=
  match v with
  | Some (JArray items) =>
      both (fun _ l => l)
        (both (fun _ _ => tt)
           (check (lo <=? length items)%nat tooFew)
           (check (length items <=? hi)%nat tooMany))
        (elements (item <$> items))
  | _ => Invalid [invalid_type]
  end.

Definition QuizOptionSchema (v : JSON) : Parsed Page.Option :=
  match v with
  | JObject fields =>
      both Page.Build_Option
        (z_string_min1 "Option text cannot be empty." (fields !! "option"))
        (z_boolean (fields !! "correct"))
  | _ => Invalid [invalid_type]
  end.

Definition QuizQuestionSchema (v : JSON) : Parsed Page.QuizQuestion :=
  match v with
  | JObject fields =>
      both Page.Build_QuizQuestion
        (z_string_min1 "Question text cannot be empty." (fields !! "question"))
        (z_array QuizOptionSchema
           2 "A question must have at least two options."
           4 "A question cannot have more than four options."
           (fields !! "options"))
  | _ => Invalid [invalid_type]
  end.

Record Quiz := { quiz : list Page.QuizQuestion }.

Definition QuizSchema (v : JSON) : Parsed Quiz :=
  match v with
  | JObject fields =>
      both (fun q _ => Build_Quiz q)
        (z_array QuizQuestionSchema
           1 "The quiz must have at least one question."
           10 "The quiz cannot have more than 10 questions."
           (fields !! "quiz"))
        (Valid tt)
  | _ => Invalid [invalid_type]
  end.

(** [QuizSchema.parse(v)]: throws a [ZodError] listing the issues. *)
Definition QuizSchema_parse {S} (v : JSON) : M S Quiz :=
  match QuizSchema v with
  | Valid q => ret q
  | Invalid issues => throw (ZodError (String.concat "; " issues))
  end.

(** *** The handler, lines 34-284 *)

Inductive Body :=
| Message (message : string)
| NotFound (message error : string)
| QuizBody (validatedQuiz : Quiz)
| InvalidFormat (message : string)
| Failure (message : string).

Definition respond (st : Z) (b : Body) : Response Body :=
  {| status := st; body := b |}.

(** [responseText.match(/\{[\s\S]*\}/)]: from the first opening brace to
    the last closing brace after it. *)
Fixpoint fromFirstOpen (s : string) : option string :=
  match s with
  | EmptyString => None
  | String c r => if Ascii.eqb c "{" then Some s else fromFirstOpen r
  end.

Fixpoint toLastClose (s : string) : option string :=
  match s with
  | EmptyString => None
  | String c r =>
      match toLastClose r with
      | Some t => Some (String c t)
      | None => if Ascii.eqb c "}" then Some (String c EmptyString) else None
      end
  end.

Definition jsonMatch (responseText : string) : option string :=
  fromFirstOpen responseText ≫= toLastClose.

(** [const { vectorStoreId, existingQuestions = [] } = body] *)
Definition destructure {S} (body : JSON) : M S (option JSON * JSON) :=
  match body with
  | JNull =>
      throw (JsError "Cannot destructure property 'vectorStoreId' of 'body' as it is null.")
  | JObject fields =>
      ret (fields !! "vectorStoreId",
           default (JArray []) (fields !! "existingQuestions"))
  | _ => ret (None, JArray [])
  end.

(** [Array.isArray(v)], with the elements when it holds. *)
Definition asArray (v : JSON) : option (list JSON) :=
  match v with JArray items => Some items | _ => None end.

(** [existingQuestions.length > 0 ? "10 MORE NEW" : "10"] *)
Definition actionText (existingQuestions : list JSON) : string :=
  if (0 <? length existingQuestions)%nat then "10 MORE NEW" else "10".

Definition isAssistant (m : Remote.Message) : bool :=
  String.eqb (role m) "assistant".

Definition errorMessageOf (error : Thrown) : string :=
  default "Unknown error" (messageOf error).

(** The outer [catch], lines 237-283. *)
Definition onError {S} (error : Thrown) : M S (Response Body) :=
  log (ConsoleError "API Error in /api/chat:") ;;
  let errorMessage :=
    default "An unexpected error occurred while generating the quiz."
            (messageOf error) in
  let statusCode := Some 500%Z in
  let '(statusCode, errorMessage) :=
    match error with
    | APIError st message =>
        (Some st, or_else message ("OpenAI API Error: " +:+ pretty st))
    | APIConnectionError message =>
        (None, or_else message "OpenAI API Error: undefined")
    | _ => (statusCode, errorMessage)
    end in
  if isZodError error
  then ret (respond 400 (InvalidFormat "Invalid quiz format generated by AI."))
  else lift (newResponse statusCode (Failure errorMessage)).

Section WithJSON.

(** [JSON.parse]; [None] when it throws. *)
Variable JSON_parse : string -> option JSON.

(** The [try] block of lines 182-190. *)
Definition parseText (responseText : string) : option JSON :=
  match jsonMatch responseText with
  | Some matched => JSON_parse matched
  | None => JSON_parse responseText
  end.

(** The [catch] block of lines 190-218: the fallback request. *)
Definition fallback {S} (responseText : string) : M S JSON :=
  log (ConsoleError "Failed to parse assistant response:") ;;
  parsed <- call (ChatCompletionsParse responseText) ;;
  if falsy parsed
  then throw (JsError "Failed to generate structured quiz response")
  else match parsed with
       | Some v => ret v
       | None => throw (JsError "Failed to generate structured quiz response")
       end.

(** Lines 165-236, once the run has been polled. *)
Definition afterRun {S} (status assistant thread : string)
    : M S (Response Body) :=
  if String.eqb status "completed" then
    messages <- call (MessagesList thread) ;;
    match find isAssistant messages with
    | Some {| content := first :: _ |} =>
        responseText <-
          match first with
          | TextContent value => ret value
          | OtherContent =>
              throw (JsError "Cannot read properties of undefined (reading 'value')")
          end ;;
        parsedResponse <-
          match parseText responseText with
          | Some v => ret v
          | None => fallback responseText
          end ;;
        validatedQuiz <- QuizSchema_parse parsedResponse ;;
        call (AssistantsDel assistant) ;;
        call (ThreadsDel thread) ;;
        ret (ok (QuizBody validatedQuiz))
    | _ => throw (JsError "No response from assistant")
    end
  else
    call (AssistantsDel assistant) ;;
    call (ThreadsDel thread) ;;
    throw (JsError ("Assistant run failed with status: " +:+ status)).

(** Lines 65-163, for a truthy [vectorStoreId] and an array of
    [existingQuestions]. *)
Definition generate {S} (vectorStoreId : JSON) (existingQuestions : list JSON)
    : M S (Response Body) :=
  notFound <-
    try_catch
      (call (VectorStoresRetrieve vectorStoreId) ;; ret None)
      (fun error =>
         ret (Some (respond 404
           (NotFound "Vector store not found or inaccessible. Please upload files again."
                     (errorMessageOf error))))) ;;
  match notFound with
  | Some response => ret response
  | None =>
      files <- call (VectorStoresFilesList vectorStoreId) ;;
      match files with
      | None | Some [] =>
          ret (respond 400
            (Message "No files found in the vector store. Please upload PDF files first."))
      | Some _ =>
          assistant <- call (AssistantsCreate vectorStoreId) ;;
          thread <- call ThreadsCreate ;;
          call (MessagesCreate thread (actionText existingQuestions)
                  existingQuestions) ;;
          status <- call (RunsCreateAndPoll thread assistant) ;;
          afterRun status assistant thread
      end
  end.

(** [POST]; [request] is what [await req.json()] gives. *)
Definition POST (request : Thrown + JSON) : M unit (Response Body) :=
  try_catch
    (body <- lift request ;;
     fields <- destructure body ;;
     let '(vectorStoreId, existingQuestions) := fields in
     if falsy vectorStoreId then
       ret (respond 400
         (Message "Vector store ID is required. Please upload PDF files first."))
     else
       match vectorStoreId, asArray existingQuestions with
       | Some vectorStoreId, Some existingQuestions =>
           generate vectorStoreId existingQuestions
       | _, _ =>
           ret (respond 400
             (Message "existingQuestions must be an array of strings."))
       end)
    onError.

End WithJSON.

(** *** Vocabulary of the properties *)

(** The shape that the schemas accept, on parsed values. *)
Definition wellFormedOption (o : Page.Option) : bool :=
  truthy (Page.optionText o).

Definition wellFormedQuestion (q : Page.QuizQuestion) : bool :=
  truthy (Page.question q)
  && (2 <=? length (Page.options q))%nat
  && (length (Page.options q) <=? 4)%nat
  && forallb wellFormedOption (Page.options q).

Definition wellFormedQuiz (q : Quiz) : bool :=
  (1 <=? length (quiz q))%nat
  && (length (quiz q) <=? 10)%nat
  && forallb wellFormedQuestion (quiz q).

(** "Exactly one option whose correct flag is true". *)
Definition exactlyOneCorrect (q : Page.QuizQuestion) : bool :=
  (length (filter (fun o => Page.correct o = true) (Page.options q)) =? 1)%nat.

(** The reading of "every question of a set that the gateway lets through
    has exactly one correct option". *)
Definition accepts_only_single_answer_questions : Prop :=
  forall v q, QuizSchema v = Valid q ->
    forallb exactlyOneCorrect (quiz q) = true.

(** A quiz as a JSON value: what [JSON.stringify] writes and the page's
    [response.json()] reads back. *)
Definition optionJSON (o : Page.Option) : JSON :=
  JObject {[ "option" := JString (Page.optionText o);
             "correct" := JBool (Page.correct o) ]}.

Definition questionJSON (q : Page.QuizQuestion) : JSON :=
  JObject {[ "question" := JString (Page.question q);
             "options" := JArray (optionJSON <$> Page.options q) ]}.

Definition quizJSON (q : Quiz) : JSON :=
  JObject {[ "quiz" := JArray (questionJSON <$> quiz q) ]}.

(** What the page's [fetch] makes of a response of this route:
    [response.ok] is a status from 200 to 299, and the body is the
    serialised object. *)
Definition received (response : Response Body)
    : Page.Fetched (option Page.QuizData) :=
  if (200 <=? status response)%Z && (status response <=? 299)%Z then
    Page.Ok (Some {| Page.quiz :=
                       match body response with
                       | QuizBody q => Some (quiz q)
                       | _ => None
                       end |})
  else
    Page.NotOk (status response) ""
      match body response with
      | Message m | InvalidFormat m | Failure m =>
          Page.ErrorJson (Some m) None
      | NotFound m e => Page.ErrorJson (Some m) (Some e)
      | QuizBody _ => Page.ErrorJson None None
      end.

(** Observations on the effects of a run. *)
Definition isRetrieveRejected (e : Effect) : bool :=
  match e with
  | Request (VectorStoresRetrieve _) (inl _) => true
  | _ => false
  end.

Definition isCreation (e : Effect) : bool :=
  match e with
  | Request (AssistantsCreate _) (inr _) | Request ThreadsCreate (inr _) => true
  | _ => false
  end.

Definition isDeletion (e : Effect) : bool :=
  match e with
  | Request (AssistantsDel _) _ | Request (ThreadsDel _) _ => true
  | _ => false
  end.

(** The rejection of the last call of the client, if it was rejected. *)
Definition lastRejection (t : list Effect) : option Thrown :=
  match last (List.filter isRequest t) with
  | Some (Request _ (inl e)) => Some e
  | _ => None
  end.

(** What the provider answered: the files of the store, the status of
    the run, and the text of the assistant's answer. *)
Definition filesListed (e : Effect) : option (option (list string)) :=
  match e with
  | Request c reply =>
      match c in Call T return Thrown + T -> option (option (list string)) with
      | VectorStoresFilesList _ =>
          fun r => match r with inr files => Some files | inl _ => None end
      | _ => fun _ => None
      end reply
  | _ => None
  end.

Definition runPolled (e : Effect) : option string :=
  match e with
  | Request c reply =>
      match c in Call T return Thrown + T -> option string with
      | RunsCreateAndPoll _ _ =>
          fun r => match r with inr st => Some st | inl _ => None end
      | _ => fun _ => None
      end reply
  | _ => None
  end.

Definition messagesListed (e : Effect) : option (list Remote.Message) :=
  match e with
  | Request c reply =>
      match c in Call T return Thrown + T -> option (list Remote.Message) with
      | MessagesList _ =>
          fun r => match r with inr ms => Some ms | inl _ => None end
      | _ => fun _ => None
      end reply
  | _ => None
  end.

Definition storeFiles (t : list Effect) : option (option (list string)) :=
  head (omap filesListed t).

Definition runStatus (t : list Effect) : option string :=
  head (omap runPolled t).

Definition answerText (t : list Effect) : option string :=
  match head (omap messagesListed t) with
  | Some messages =>
      match find isAssistant messages with
      | Some {| content := TextContent value :: _ |} => Some value
      | _ => None
      end
  | None => None
  end.

(** The fields of the request body, as the handler reads them. *)
Definition requestField (key : string) (request : Thrown + JSON)
    : option JSON :=
  match request with
  | inr (JObject fields) => fields !! key
  | _ => None
  end.

Definition existingQuestionsOf (request : Thrown + JSON) : JSON :=
  default (JArray []) (requestField "existingQuestions" request).

(** The identifiers of the assistant and of the thread as they were
    created, and of those whose deletion was requested, in order. *)
Definition createdId (e : Effect) : option string :=
  match e with
  | Request c reply =>
      match c in Call T return Thrown + T -> option string with
      | AssistantsCreate _ | ThreadsCreate =>
          fun r => match r with inr i => Some i | inl _ => None end
      | _ => fun _ => None
      end reply
  | _ => None
  end.

Definition deletedId (e : Effect) : option string :=
  match e with
  | Request (AssistantsDel i) _ | Request (ThreadsDel i) _ => Some i
  | _ => None
  end.

(** The fallback requests that were made: the text they were given and
    what came back. *)
Definition fallbackOf (e : Effect) : option (string * (Thrown + option JSON)) :=
  match e with
  | Request c reply =>
      match c in Call T
            return Thrown + T -> option (string * (Thrown + option JSON)) with
      | ChatCompletionsParse context => fun r => Some (context, r)
      | _ => fun _ => None
      end reply
  | _ => None
  end.

Definition fallbacks (t : list Effect)
    : list (string * (Thrown + option JSON)) :=
  omap fallbackOf t.

Definition createdIds (t : list Effect) : list string := omap createdId t.
Definition deletedIds (t : list Effect) : list string := omap deletedId t.

(** Whether the character [c] occurs in [s]. *)
Fixpoint occurs (c : ascii) (s : string) : bool :=
  match s with
  | EmptyString => false
  | String c' r => Ascii.eqb c' c || occurs c r
  end.

End Chat.

(** ** The upload gateway

    Two versions of the upload route are in the repository. Both create a
    vector store, upload the files one by one, attach them in one batch
    and poll it; they differ in what they check beforehand, in how a failed
    file upload is reported, and in the final [catch]. The later one, with
    the limits on count and size, is [Upload.POST]; the one without them is
    [Upload.Unlimited.POST]. *)

Module Upload.
Import JS Remote.
Local Open Scope js_scope.

Definition MAX_FILE_SIZE : Z := 20 * 1024 * 1024.
Definition MAX_TOTAL_SIZE : Z := 200 * 1024 * 1024.

Inductive Body :=
| Message (message : string)
| Uploaded (vectorStoreId message : string) (filesUploaded : nat)
    (batchId : string)
| BatchFailed (message : string) (details : Batch)
| InProgress (message vectorStoreId batchId : string)
| Failure (message : string).

Definition respond (st : Z) (b : Body) : Response Body :=
  {| status := st; body := b |}.

Definition isPdf (file : File) : bool :=
  endsWith (toLowerCase (name file)) ".pdf".

Definition notPdf (file : File) : Response Body :=
  respond 400 (Message ("File " +:+ name file
                        +:+ " is not a PDF. Please upload only PDF files.")).

(** The loop of lines 221-250: the first offending file ends the request,
    otherwise the sizes add up. *)
Fixpoint validateFiles (files : list File) (totalSize : Z)
    : Response Body + Z :=
  match files with
  | [] => inr totalSize
  | file :: rest =>
      if negb (isPdf file) then inl (notPdf file)
      else if (size file >? MAX_FILE_SIZE)%Z then
        inl (respond 400 (Message ("File " +:+ name file
               +:+ " is too large. Maximum file size is 10MB.")))
      else validateFiles rest (totalSize + size file)
  end.

(** [cleanupResources], lines 418-434. *)
Fixpoint deleteFiles {S} (fileIds : list string) : M S unit :=
  match fileIds with
  | [] => ret tt
  | fileId :: rest =>
      try_catch
        (call (FilesDel fileId))
        (fun _ => log (ConsoleWarn ("Failed to delete OpenAI file " +:+ fileId +:+ ":"))) ;;
      deleteFiles rest
  end.

Definition cleanupResources {S} (vectorStoreId : string)
    (fileIds : list string) : M S unit :=
  deleteFiles fileIds ;;
  try_catch
    (call (VectorStoresDel vectorStoreId))
    (fun _ => log (ConsoleWarn ("Failed to delete vector store " +:+ vectorStoreId +:+ ":"))).

(** The loop of lines 278-293; the local variable of the handler is the
    array [uploadedFileIds]. *)
Fixpoint uploadFiles (files : list File) : M (list string) unit :=
  match files with
  | [] => ret tt
  | file :: rest =>
      try_catch
        (uploadedFile <- call (FilesCreate file) ;;
         modify (fun uploadedFileIds => uploadedFileIds ++ [uploadedFile]))
        (fun _ =>
           log (ConsoleError ("Failed to upload file " +:+ name file +:+ ":")) ;;
           throw (JsError ("Failed to upload file " +:+ name file
                           +:+ ". Please try again."))) ;;
      uploadFiles rest
  end.

(** Lines 295-340: attach, poll, and answer by the status of the batch. *)
Definition attach (vectorStoreId : string) (count : nat)
    : M (list string) (Response Body) :=
  uploadedFileIds <- get ;;
  batch <- call (FileBatchesCreateAndPoll vectorStoreId uploadedFileIds) ;;
  if String.eqb (batch_status batch) "completed" then
    ret (ok (Uploaded vectorStoreId
               ("Successfully uploaded " +:+ pretty count
                +:+ " PDF files to vector store.")
               count (batch_id batch)))
  else if String.eqb (batch_status batch) "failed" then
    cleanupResources vectorStoreId uploadedFileIds ;;
    ret (respond 500
           (BatchFailed "File upload batch failed. Please try again with different files."
                        batch))
  else
    ret (ok (InProgress
               ("File upload is still in progress. Status: " +:+ batch_status batch)
               vectorStoreId (batch_id batch))).

(** Lines 265-345: everything after validation. *)
Definition store (upload : list File -> M (list string) unit)
    (files : list File) : M (list string) (Response Body) :=
  vectorStore <- call VectorStoresCreate ;;
  modify (fun _ => []) ;;
  try_catch
    (upload files ;;
     attach vectorStore (length files))
    (fun uploadError =>
       uploadedFileIds <- get ;;
       cleanupResources vectorStore uploadedFileIds ;;
       throw uploadError).

(** [statusCode === 413] *)
Definition is413 (statusCode : option Z) : bool :=
  match statusCode with Some st => (st =? 413)%Z | None => false end.

(** The outer [catch], lines 346-401. *)
Definition onError (error : Thrown) : M (list string) (Response Body) :=
  log (ConsoleError "API Error in /api/upload:") ;;
  let errorMessage :=
    default "An unexpected error occurred during file upload."
            (messageOf error) in
  let statusCode := Some 500%Z in
  let '(statusCode, errorMessage) :=
    match error with
    | APIError st message =>
        if (st =? 413)%Z || includes errorMessage "too large"
        then (Some 400%Z,
              "One or more files are too large. Please reduce file sizes and try again.")
        else (Some st, or_else message ("OpenAI API Error: " +:+ pretty st))
    | APIConnectionError message =>
        if includes errorMessage "too large"
        then (Some 400%Z,
              "One or more files are too large. Please reduce file sizes and try again.")
        else (None, or_else message "OpenAI API Error: undefined")
    | _ => (statusCode, errorMessage)
    end in
  let '(statusCode, errorMessage) :=
    if includes errorMessage "Request Entity Too Large"
       || includes errorMessage "413"
       || is413 statusCode
    then (Some 400%Z,
          "Files are too large. Please reduce file sizes and try again.")
    else (statusCode, errorMessage) in
  lift (newResponse statusCode (Failure errorMessage)).

(** [POST], lines 188-402; [request] is what [await req.formData()] and
    [getAll("files")] give. *)
Definition POST (request : Thrown + list File)
    : M (list string) (Response Body) :=
  try_catch
    (files <- lift request ;;
     if (length files =? 0)%nat then
       ret (respond 400
         (Message "No PDF files were uploaded. Please select at least one PDF file."))
     else if (10 <? length files)%nat then
       ret (respond 400
         (Message "Too many files. Please upload a maximum of 10 PDF files."))
     else
       match validateFiles files 0 with
       | inl response => ret response
       | inr totalSize =>
           if (totalSize >? MAX_TOTAL_SIZE)%Z then
             ret (respond 400
               (Message "Total upload size is too large. Maximum total size is 50MB."))
           else store uploadFiles files
       end)
    onError.

(** *** The version without limits, lines 12-152 of the same file *)
Module Unlimited.

Fixpoint uploadFiles (files : list File) : M (list string) unit :=
  match files with
  | [] => ret tt
  | file :: rest =>
      uploadedFile <- call (FilesCreate file) ;;
      modify (fun uploadedFileIds => uploadedFileIds ++ [uploadedFile]) ;;
      uploadFiles rest
  end.

Definition onError (error : Thrown) : M (list string) (Response Body) :=
  log (ConsoleError "API Error in /api/upload:") ;;
  let errorMessage :=
    default "An unexpected error occurred during file upload."
            (messageOf error) in
  let statusCode := Some 500%Z in
  let '(statusCode, errorMessage) :=
    match error with
    | APIError st message =>
        (Some st, or_else message ("OpenAI API Error: " +:+ pretty st))
    | APIConnectionError message =>
        (None, or_else message "OpenAI API Error: undefined")
    | _ => (statusCode, errorMessage)
    end in
  lift (newResponse statusCode (Failure errorMessage)).

Definition POST (request : Thrown + list File)
    : M (list string) (Response Body) :=
  try_catch
    (files <- lift request ;;
     if (length files =? 0)%nat then
       ret (respond 400
         (Message "No PDF files were uploaded. Please select at least one PDF file."))
     else
       match find (fun file => negb (isPdf file)) files with
       | Some file => ret (notPdf file)
       | None => store uploadFiles files
       end)
    onError.

End Unlimited.

(** *** Vocabulary of the properties *)

Fixpoint totalSize (files : list File) : Z :=
  match files with
  | [] => 0
  | file :: rest => size file + totalSize rest
  end.

(** A batch that breaks one of the constraints: no file, more than ten
    files, a name that does not end in [.pdf], a file above the per-file
    limit, or a total above the aggregate limit. *)
Definition violates (files : list File) : Prop :=
  files = [] \/
  10 < length files \/
  Exists (fun file => isPdf file = false) files \/
  Exists (fun file => (MAX_FILE_SIZE < size file)%Z) files \/
  (MAX_TOTAL_SIZE < totalSize files)%Z.

(** Observations on the effects of a run: the store that was created, the
    identifiers of the files that were uploaded, the batch as polled, and
    what was asked to be deleted, in order. *)
Inductive Deleted :=
| DeletedFile (fileId : string)
| DeletedStore (vectorStoreId : string).

Definition storeOf (e : Effect) : option string :=
  match e with
  | Request c reply =>
      match c in Call T return Thrown + T -> option string with
      | VectorStoresCreate =>
          fun r => match r with inr vs => Some vs | inl _ => None end
      | _ => fun _ => None
      end reply
  | _ => None
  end.

Definition uploadedOf (e : Effect) : option string :=
  match e with
  | Request c reply =>
      match c in Call T return Thrown + T -> option string with
      | FilesCreate _ =>
          fun r => match r with inr fileId => Some fileId | inl _ => None end
      | _ => fun _ => None
      end reply
  | _ => None
  end.

Definition batchOf (e : Effect) : option Batch :=
  match e with
  | Request c reply =>
      match c in Call T return Thrown + T -> option Batch with
      | FileBatchesCreateAndPoll _ _ =>
          fun r => match r with inr batch => Some batch | inl _ => None end
      | _ => fun _ => None
      end reply
  | _ => None
  end.

Definition attachedOf (e : Effect) : option (string * list string) :=
  match e with
  | Request (FileBatchesCreateAndPoll vs ids) _ => Some (vs, ids)
  | _ => None
  end.

Definition deletionOf (e : Effect) : option Deleted :=
  match e with
  | Request (FilesDel fileId) _ => Some (DeletedFile fileId)
  | Request (VectorStoresDel vs) _ => Some (DeletedStore vs)
  | _ => None
  end.

Definition isUploadRejected (e : Effect) : bool :=
  match e with
  | Request (FilesCreate _) (inl _) => true
  | _ => false
  end.

Definition isFailedDeletion (e : Effect) : bool :=
  match e with
  | Request (FilesDel _) (inl _) | Request (VectorStoresDel _) (inl _) => true
  | _ => false
  end.

Definition isWarning (e : Effect) : bool :=
  match e with ConsoleWarn _ => true | _ => false end.

(** The files handed to [files.create], whatever the reply. *)
Definition sentOf (e : Effect) : option File :=
  match e with
  | Request (FilesCreate file) _ => Some file
  | _ => None
  end.

Definition sent (t : list Effect) : list File := omap sentOf t.

Definition created (t : list Effect) : option string := head (omap storeOf t).
Definition uploaded (t : list Effect) : list string := omap uploadedOf t.
Definition polled (t : list Effect) : option Batch := head (omap batchOf t).
Definition attached (t : list Effect) : list (string * list string) :=
  omap attachedOf t.
Definition deletions (t : list Effect) : list Deleted := omap deletionOf t.

(** A stretch of effects in which nothing is created, attached or
    deleted. *)
Definition uploads_only (u : list Effect) : Prop :=
  omap storeOf u = [] /\ omap batchOf u = [] /\ attached u = [] /\
  deletions u = [] /\ List.filter isWarning u = [] /\
  List.filter isFailedDeletion u = [].

(** A stretch of effects in which nothing is created, uploaded or
    attached. *)
Definition deletes_only (c : list Effect) : Prop :=
  omap storeOf c = [] /\ omap batchOf c = [] /\ attached c = [] /\
  uploaded c = [] /\ existsb isUploadRejected c = false.

(** The five checks of the handler as one test. *)
Definition accepted (files : list File) : bool :=
  negb (length files =? 0)%nat
  && (length files <=? 10)%nat
  && forallb isPdf files
  && forallb (fun file => (size file <=? MAX_FILE_SIZE)%Z) files
  && (totalSize files <=? MAX_TOTAL_SIZE)%Z.

End Upload.

(** ** Concrete sessions and requests used below *)

Module Examples.
Import Page.

Definition paris : Option := {| optionText := "Paris"; correct := true |}.
Definition rome : Option := {| optionText := "Rome"; correct := false |}.

Definition capital : QuizQuestion :=
  {| question := "What is the capital of France?"; options := [paris; rome] |}.

Definition river : QuizQuestion :=
  {| question := "Which river flows through Paris?";
     options := [ {| optionText := "Seine"; correct := true |};
                  {| optionText := "Loire"; correct := false |} ] |}.

Definition notes : UploadedFile :=
  {| id := "k3j9x0a1b"; name := "notes.pdf"; status := uploaded;
     ferror := None |}.

(** A session on its first question, one on the results view after a
    one-question quiz answered correctly. *)
Definition asking : State :=
  {| selectedFiles := [notes]; vectorStoreId := Some "vs_1";
     questions := [capital; river]; currentQuestionIndex := 0;
     selectedOption := None; isAnswered := false; score := 0;
     isLoading := false; isUploading := false; error := None;
     quizStarted := true; quizFinished := false |}.

Definition finished : State :=
  {| selectedFiles := [notes]; vectorStoreId := Some "vs_1";
     questions := [capital]; currentQuestionIndex := 0;
     selectedOption := Some paris; isAnswered := true; score := 1;
     isLoading := false; isUploading := false; error := None;
     quizStarted := true; quizFinished := true |}.

(** A session from the first file to the result of a one-question
    quiz: the file is picked, uploaded, the quiz is generated, answered
    and closed. *)
Definition picked : PickedFile :=
  {| fileName := "notes.pdf"; type := "application/pdf" |}.

Definition staged : State :=
  handleFileChange (Some [picked]) (fun _ => "k3j9x0a1b") initial.

Definition sending : State :=
  default staged (uploadFilesToVectorStore_begin staged).

Definition generating : State :=
  (uploadFilesToVectorStore_end (Ok (Some "vs_1")) sending).1
    |> setVectorStoreId (uploadFilesToVectorStore_end (Ok (Some "vs_1")) sending).2
    |> fetchQuizFromVectorStore_begin false.

Definition quizzing : State :=
  fetchQuizFromVectorStore_end false
    (Ok (Some {| quiz := Some [capital] |})) generating.

Definition answered : State := handleOptionSelect paris quizzing.

(** *** Requests to the generation gateway *)

Import JS Remote.

(** The double-quote character, and a quoted word of a JSON text. *)
Definition dq : string := String (Ascii.ascii_of_nat 34) EmptyString.
Definition quoted (s : string) : string := dq +:+ s +:+ dq.

(** [JSON.parse] on the texts listed in [table]; other texts are taken
    not to parse. *)
Definition JSON_parse_on (table : list (string * JSON)) (text : string)
    : option JSON :=
  snd <$> find (fun entry => String.eqb (fst entry) text) table.

(** The text [{"quiz": []}] and its value. *)
Definition emptyQuizText : string := "{" +:+ quoted "quiz" +:+ ": []}".
Definition emptyQuiz : JSON := JObject {[ "quiz" := JArray [] ]}.

(** A question none of whose options is marked correct, the quiz made of
    it, and the text an assistant may answer with:
    [Here is your quiz: {"quiz": [{"question": "What is the capital of
    France?", "options": [{"option": "Lyon", "correct": false},
    {"option": "Rome", "correct": false}]}]}] *)
Definition lyon : Option := {| optionText := "Lyon"; correct := false |}.

Definition unanswerable : QuizQuestion :=
  {| question := "What is the capital of France?"; options := [lyon; rome] |}.

Definition unanswerableQuiz : Chat.Quiz := {| Chat.quiz := [unanswerable] |}.

Definition unanswerableText : string :=
  "Here is your quiz: {" +:+ quoted "quiz" +:+ ": [{"
    +:+ quoted "question" +:+ ": " +:+ quoted "What is the capital of France?"
    +:+ ", " +:+ quoted "options" +:+ ": [{"
    +:+ quoted "option" +:+ ": " +:+ quoted "Lyon" +:+ ", "
    +:+ quoted "correct" +:+ ": false}, {"
    +:+ quoted "option" +:+ ": " +:+ quoted "Rome" +:+ ", "
    +:+ quoted "correct" +:+ ": false}]}]}".

Definition JSON_parse : string -> option JSON :=
  JSON_parse_on
    [ (emptyQuizText, emptyQuiz);
      (default "" (Chat.jsonMatch unanswerableText),
       Chat.quizJSON unanswerableQuiz) ].

(** The body [{"vectorStoreId": "vs_1"}] of a first generation request. *)
Definition firstRequest : Thrown + JSON :=
  inr (JObject {[ "vectorStoreId" := JString "vs_1" ]}).

(** A provider that accepts every call: the store has one file, the run
    completes with [text] as the answer of the assistant, the batch ends
    with status [batch], and deletions are answered by [deletion]. *)
Definition answering_with (text batch : string) (deletion : Thrown + unit)
    : Provider :=
  fun A _ c =>
    match c in Call T return Thrown + T with
    | VectorStoresCreate => inr "vs_1"
    | VectorStoresRetrieve _ => inr tt
    | VectorStoresFilesList _ => inr (Some ["file-1"])
    | VectorStoresDel _ => deletion
    | FilesCreate file => inr ("file-" +:+ Remote.name file)
    | FilesDel _ => deletion
    | FileBatchesCreateAndPoll _ _ =>
        inr {| batch_id := "vsfb_1"; batch_status := batch |}
    | AssistantsCreate _ => inr "asst_1"
    | AssistantsDel _ => deletion
    | ThreadsCreate => inr "thread_1"
    | ThreadsDel _ => deletion
    | MessagesCreate _ _ _ => inr tt
    | RunsCreateAndPoll _ _ => inr "completed"
    | MessagesList _ =>
        inr [ {| role := "assistant"; content := [TextContent text] |};
              {| role := "user"; content := [TextContent "Generate 10 quiz questions"] |} ]
    | ChatCompletionsParse _ => inr None
    end.

Definition unavailable : Thrown := APIError 503 "Service unavailable".

(** The provider [p], except that it rejects the upload of the file
    named [bad] with [e]. *)
Definition refusing (bad : string) (e : Thrown) (p : Provider) : Provider :=
  fun A t c =>
    match c in Call T return (Thrown + T) -> Thrown + T with
    | FilesCreate file =>
        fun reply => if String.eqb (Remote.name file) bad then inl e else reply
    | _ => fun reply => reply
    end (p A t c).

(** A provider that takes everything but the second chapter. *)
Definition rejectingSecond : Provider :=
  refusing "chapter2.pdf" (APIError 413 "Payload Too Large")
    (answering_with "" "completed" (inr tt)).

(** *** Upload batches *)

Definition pdf (n : string) (bytes : Z) : File :=
  {| Remote.name := n; size := bytes |}.

Definition twoPdfs : list File :=
  [pdf "chapter1.pdf" (3 * 1024 * 1024); pdf "chapter2.pdf" (5 * 1024 * 1024)].

Definition elevenPdfs : list File := replicate 11 (pdf "chapter.pdf" 1024).

End Examples.

(** ** Properties of the quiz session *)

Module PageFacts.
Import Page.

(** C2. Selecting an option changes nothing once the current question is
    answered; on a question not yet answered it records the option, marks
    the question answered and adds one to the score exactly when the
    option is correct, leaving every other field as it was. *)
Theorem handleOptionSelect_only_first_counts (o : Option) (s : State) :
  (isAnswered s = true -> handleOptionSelect o s = s) /\
  (isAnswered s = false ->
     selectedOption (handleOptionSelect o s) = Some o /\
     isAnswered (handleOptionSelect o s) = true /\
     score (handleOptionSelect o s) = score s + (if correct o then 1 else 0) /\
     (score (handleOptionSelect o s) = score s + 1 <-> correct o = true) /\
     handleOptionSelect o (handleOptionSelect o s) = handleOptionSelect o s /\
     questions (handleOptionSelect o s) = questions s /\
     currentQuestionIndex (handleOptionSelect o s) = currentQuestionIndex s).
Proof.
  unfold handleOptionSelect. split; intros Ha; rewrite Ha; [reflexivity|].
  destruct (correct o) eqn:Hc; simpl; repeat split; intros; try lia; try congruence.
Qed.

Lemma handleOptionSelect_only_first_counts_witness :
  isAnswered Examples.asking = false /\
  score (handleOptionSelect Examples.paris Examples.asking) = 1 /\
  handleOptionSelect Examples.rome
    (handleOptionSelect Examples.paris Examples.asking)
  = handleOptionSelect Examples.paris Examples.asking.
Proof.
  split; [reflexivity|].
  destruct (handleOptionSelect_only_first_counts Examples.paris Examples.asking)
    as [_ Hfirst].
  destruct (Hfirst eq_refl) as (_ & _ & Hscore & _).
  destruct (handleOptionSelect_only_first_counts Examples.rome
              (handleOptionSelect Examples.paris Examples.asking))
    as [Hagain _].
  split; [exact Hscore | exact (Hagain eq_refl)].
Defined.

Lemma step_flag_matches_selection ev s :
  flag_matches_selection s -> flag_matches_selection (step ev s).
Proof.
  unfold flag_matches_selection. intros H.
  destruct ev as [o| | | |data app| |r|v|c|c r]; simpl.
  - unfold handleOptionSelect.
    destruct (isAnswered s) eqn:Ha; [rewrite Ha; exact H|].
    destruct (correct o); simpl; split; congruence.
  - unfold handleNextQuestion.
    destruct (_ <? _)%Z; simpl; [split; congruence | exact H].
  - simpl. split; congruence.
  - simpl. split; congruence.
  - unfold handleProcessQuizData.
    destruct data as [[[[|q qs]|]]|]; destruct app; simpl;
      first [exact H | split; congruence].
  - unfold uploadFilesToVectorStore_begin.
    destruct (selectedFiles s); simpl; exact H.
  - unfold uploadFilesToVectorStore_end. destruct r; simpl; exact H.
  - exact H.
  - unfold fetchQuizFromVectorStore_begin.
    destruct c; simpl; [exact H | split; congruence].
  - unfold fetchQuizFromVectorStore_end, handleProcessQuizData.
    destruct r as [m|st txt b|data]; destruct c; simpl; try exact H.
    + destruct data as [[[[|q qs]|]]|]; simpl;
        first [exact H | split; congruence].
    + destruct data as [[[[|q qs]|]]|]; simpl;
        first [exact H | split; congruence].
Qed.

(** C10. In every state that the handlers can produce from the initial
    one, the question counts as answered exactly when a selected option
    is recorded. *)
Theorem answered_iff_selected (s : State) :
  reachable s -> (isAnswered s = true <-> selectedOption s <> None).
Proof.
  induction 1 as [|ev s _ IH].
  - simpl. split; congruence.
  - apply step_flag_matches_selection, IH.
Qed.

Lemma answered_iff_selected_witness :
  isAnswered (step (OptionSelect Examples.paris)
                (step (ProcessQuizData
                         (Some {| quiz := Some [Examples.capital] |}) false)
                      initial)) = true
  <-> selectedOption
        (step (OptionSelect Examples.paris)
           (step (ProcessQuizData
                    (Some {| quiz := Some [Examples.capital] |}) false)
                 initial)) <> None.
Proof.
  apply answered_iff_selected.
  apply reachable_step, reachable_step, reachable_initial.
Defined.

(** C4. With a non-empty set of new questions, "more questions" appends
    them to the list and moves to the first of them, keeping the score;
    "restart" replaces the list by them and starts over at index 0 with
    score 0; both clear the selection and the answered flag and show the
    question view. *)
Theorem continuation_appends_restart_replaces
    (s : State) (newQuestions : list QuizQuestion) :
  newQuestions <> [] ->
  falsyId (vectorStoreId s) = false ->
  let data := Ok (Some {| quiz := Some newQuestions |}) in
  let more := handleFetchAndContinueQuiz data s in
  let restart := handleRestartQuizFromFiles data s in
  (questions more = questions s ++ newQuestions /\
   length (questions more) = length (questions s) + length newQuestions /\
   currentQuestionIndex more = length (questions s) /\
   questions more !! currentQuestionIndex more = head newQuestions /\
   score more = score s /\
   selectedOption more = None /\ isAnswered more = false /\
   answering more = true) /\
  (questions restart = newQuestions /\
   length (questions restart) = length newQuestions /\
   currentQuestionIndex restart = 0 /\
   score restart = 0 /\
   selectedOption restart = None /\ isAnswered restart = false /\
   answering restart = true).
Proof.
  intros Hne Hid. simpl.
  unfold handleFetchAndContinueQuiz, handleRestartQuizFromFiles.
  rewrite Hid.
  destruct newQuestions as [|q qs]; [congruence|].
  unfold fetchQuizFromVectorStore, answering; simpl.
  repeat split.
  - apply length_app.
  - rewrite lookup_app_r by lia. now rewrite Nat.sub_diag.
  - rewrite length_app. simpl.
    apply Nat.ltb_lt. lia.
Qed.

Lemma continuation_appends_restart_replaces_witness :
  questions (handleFetchAndContinueQuiz
               (Ok (Some {| quiz := Some [Examples.river] |}))
               Examples.finished)
  = [Examples.capital; Examples.river]
  /\ questions (handleRestartQuizFromFiles
                  (Ok (Some {| quiz := Some [Examples.river] |}))
                  Examples.finished)
     = [Examples.river].
Proof.
  destruct (continuation_appends_restart_replaces
              Examples.finished [Examples.river])
    as [(Hmore & _) (Hrestart & _)].
  - discriminate.
  - reflexivity.
  - split; [exact Hmore | exact Hrestart].
Defined.

(** C9, as stated, fails: after a failed restart the questions, the
    score and the finished flag of the results view are gone. *)
Lemma failed_restart_discards_the_quiz :
  ~ only_sets_error handleRestartQuizFromFiles.
Proof.
  intros H.
  destruct (H (Rejected "Failed to fetch") Examples.finished eq_refl eq_refl)
    as [message Heq].
  apply (f_equal score) in Heq. discriminate Heq.
Qed.

Lemma map_withError message (files : list UploadedFile) :
  withError message <$> (withStatus uploading <$> files)
  = withError message <$> files.
Proof.
  induction files as [|f files IH]; csimpl; [reflexivity|].
  f_equal. exact IH.
Qed.

Lemma uploadFilesToVectorStore_end_failed up s message :
  caught "Upload Error: " up = Some message ->
  uploadFilesToVectorStore_end up s
  = (s |> setError (Some (JS.or_else message uploadUnexpected))
       |> setSelectedFiles (withError message <$> selectedFiles s)
       |> setIsUploading false, None).
Proof.
  intros Hmsg. unfold uploadFilesToVectorStore_end.
  destruct up as [m|code txt b|v]; [| |discriminate Hmsg];
    rewrite Hmsg; reflexivity.
Qed.

(** C9, amended. A failed continuation leaves the session as it was,
    with the error message set. A failed generation that is not a
    continuation (a restart, or the first one) leaves the session as
    [resetQuizState] leaves it, with the error message set; the store
    handle and the staged files are kept. A failed upload sets the error
    message and marks the staged files as failed, and touches nothing
    else. *)
Theorem failed_request_outcome
    (r : Fetched (option QuizData)) (up : Fetched (option string))
    (s : State) :
  failed r = true ->
  caught "Upload Error: " up <> None ->
  isLoading s = false ->
  isUploading s = false ->
  selectedFiles s <> [] ->
  fetchQuizFromVectorStore true r s
    = setError (Some (failureMessage true r)) s /\
  fetchQuizFromVectorStore false r s
    = setError (Some (failureMessage false r)) (resetQuizState s) /\
  vectorStoreId (fetchQuizFromVectorStore false r s) = vectorStoreId s /\
  selectedFiles (fetchQuizFromVectorStore false r s) = selectedFiles s /\
  uploadFilesToVectorStore up s
    = (let message := default "" (caught "Upload Error: " up) in
       s |> setError (Some (JS.or_else message uploadUnexpected))
         |> setSelectedFiles (withError message <$> selectedFiles s),
       None).
Proof.
  intros Hr Hup Hl Hu Hf.
  destruct s as [files vs qs idx sel ans sc ld upl err st fin].
  simpl in Hl, Hu, Hf. subst ld upl.
  repeat split.
  - destruct r as [m|code txt b|[[[[|q l]|]]|]]; try discriminate Hr; reflexivity.
  - destruct r as [m|code txt b|[[[[|q l]|]]|]]; try discriminate Hr; reflexivity.
  - destruct r as [m|code txt b|[[[[|q l]|]]|]]; try discriminate Hr; reflexivity.
  - destruct r as [m|code txt b|[[[[|q l]|]]|]]; try discriminate Hr; reflexivity.
  - destruct (caught "Upload Error: " up) as [message|] eqn:Hmsg;
      [clear Hup|congruence].
    unfold uploadFilesToVectorStore, uploadFilesToVectorStore_begin.
    cbn [selectedFiles].
    destruct files as [|f files]; [congruence|].
    rewrite (uploadFilesToVectorStore_end_failed _ _ _ Hmsg).
    cbn -[fmap JS.or_else]. rewrite map_withError. reflexivity.
Qed.

Lemma failed_request_outcome_witness :
  fetchQuizFromVectorStore true (Rejected "Failed to fetch") Examples.finished
    = setError (Some "Failed to fetch") Examples.finished /\
  questions
    (fetchQuizFromVectorStore false (Rejected "Failed to fetch")
       Examples.finished) = [].
Proof.
  destruct (failed_request_outcome
              (Rejected "Failed to fetch") (Rejected "Failed to fetch")
              Examples.finished)
    as (Hmore & Hrestart & _); try reflexivity; try discriminate.
  split; [exact Hmore|].
  rewrite Hrestart. reflexivity.
Defined.

(** *** The score along a quiz run *)

Lemma step_score ev s :
  within_run ev = true ->
  score (step ev s) = score s + (if firstCorrect ev s then 1 else 0).
Proof.
  destruct ev as [o| | | |data app| |r|v|c|c r]; simpl; try discriminate;
    intros Hrun.
  - unfold handleOptionSelect.
    destruct (isAnswered s); simpl; [lia|].
    destruct (correct o); simpl; lia.
  - unfold handleNextQuestion. destruct (_ <? _)%Z; simpl; lia.
  - destruct app; [|discriminate].
    unfold handleProcessQuizData.
    destruct data as [[[[|q qs]|]]|]; simpl; lia.
  - unfold uploadFilesToVectorStore_begin.
    destruct (selectedFiles s); simpl; lia.
  - unfold uploadFilesToVectorStore_end. destruct r; simpl; lia.
  - lia.
  - destruct c; [|discriminate]. simpl. lia.
  - destruct c; [|discriminate].
    unfold fetchQuizFromVectorStore_end, handleProcessQuizData.
    destruct r as [m|st txt b|[[[[|q qs]|]]|]]; simpl; lia.
Qed.

Lemma step_in_range ev s :
  within_run ev = true -> in_range s ->
  in_range (step ev s) /\
  settled s <= settled (step ev s) /\
  length (questions s) <= length (questions (step ev s)) /\
  (answers ev s = true -> currentQuestionIndex s < settled (step ev s)).
Proof.
  unfold in_range, settled.
  destruct ev as [o| | | |data app| |r|v|c|c r]; simpl; try discriminate;
    intros Hrun Hin.
  - unfold handleOptionSelect.
    destruct (isAnswered s) eqn:Ha; simpl; [rewrite Ha; repeat split; try lia; discriminate|].
    destruct (correct o); simpl; repeat split; lia.
  - unfold handleNextQuestion.
    destruct (Z.ltb_spec (Z.of_nat (currentQuestionIndex s))
                         (Z.of_nat (length (questions s)) - 1)); simpl;
      repeat split; try lia; try discriminate.
    destruct (isAnswered s); lia.
  - destruct app; [|discriminate].
    unfold handleProcessQuizData.
    destruct data as [[[[|q qs]|]]|]; simpl;
      repeat split; try lia; try discriminate;
      rewrite ?length_app; simpl; try lia.
    destruct (isAnswered s); lia.
  - unfold uploadFilesToVectorStore_begin.
    destruct (selectedFiles s); simpl; repeat split; try lia; discriminate.
  - unfold uploadFilesToVectorStore_end.
    destruct r; simpl; repeat split; try lia; discriminate.
  - repeat split; try lia; discriminate.
  - destruct c; [|discriminate]. simpl. repeat split; try lia; discriminate.
  - destruct c; [|discriminate].
    unfold fetchQuizFromVectorStore_end, handleProcessQuizData.
    destruct r as [m|st txt b|[[[[|q qs]|]]|]]; simpl;
      repeat split; try lia; try discriminate;
      rewrite ?length_app; simpl; try lia.
    destruct (isAnswered s); lia.
Qed.

Lemma scored_le_answered evs : forall s,
  scored evs s <= length (answeredAt evs s).
Proof.
  induction evs as [|ev evs IH]; intros s; [simpl; lia|].
  cbn [scored answeredAt]. rewrite length_app. specialize (IH (step ev s)).
  assert ((if firstCorrect ev s then 1 else 0)
          <= length (if answers ev s then [currentQuestionIndex s] else [])).
  { destruct ev as [o| | | | | | | | |]; simpl; try lia.
    destruct (isAnswered s), (correct o); simpl; lia. }
  lia.
Qed.

Lemma answeredAt_increasing evs : forall s,
  Forall (fun ev => within_run ev = true) evs -> in_range s ->
  StronglySorted lt (answeredAt evs s) /\
  Forall (fun i => settled s <= i) (answeredAt evs s) /\
  Forall (fun i => i < length (questions (run evs s))) (answeredAt evs s) /\
  length (questions s) <= length (questions (run evs s)).
Proof.
  induction evs as [|ev evs IH]; intros s Hrun Hin; simpl.
  - repeat split; first [constructor | lia].
  - inversion Hrun as [|? ? Hev Hrest]; subst.
    destruct (step_in_range ev s Hev Hin) as (Hin' & Hmono & Hlen & Hans).
    destruct (IH (step ev s) Hrest Hin') as (Hsorted & Hlow & Hhigh & Hgrow).
    assert (Hlow' : Forall (fun i => settled s <= i) (answeredAt evs (step ev s))).
    { eapply Forall_impl; [exact Hlow|]. cbv beta. intros i Hi. lia. }
    destruct (answers ev s) eqn:Ha; simpl.
    + repeat split.
      * constructor; [exact Hsorted|].
        eapply Forall_impl; [exact Hlow|]. cbv beta. intros i Hi.
        specialize (Hans eq_refl). lia.
      * constructor; [|exact Hlow'].
        destruct ev; try discriminate Ha. simpl in Ha.
        unfold settled. destruct (isAnswered s); [discriminate|lia].
      * constructor; [|exact Hhigh]. unfold in_range in Hin. lia.
      * lia.
    + repeat split; [exact Hsorted|exact Hlow'|exact Hhigh|lia].
Qed.

Lemma run_score evs : forall s,
  Forall (fun ev => within_run ev = true) evs ->
  score (run evs s) = score s + scored evs s.
Proof.
  induction evs as [|ev evs IH]; intros s Hrun; [simpl; lia|].
  inversion Hrun as [|? ? Hev Hrest]; subst.
  change (run (ev :: evs) s) with (run evs (step ev s)).
  cbn [scored]. rewrite (IH _ Hrest), (step_score _ _ Hev). lia.
Qed.

(** C3. Along any sequence of events of one quiz run, started on a
    question of the list: the score is the initial score plus the number
    of selections that were the first on their question and correct, each
    counting one; so it never decreases, and what it gained is at most
    the number of questions answered. The answered questions are
    pairwise distinct questions of the list: no question is scored
    twice. *)
Theorem score_monotonicity (evs : list Event) (s : State) :
  Forall (fun ev => within_run ev = true) evs ->
  currentQuestionIndex s < length (questions s) ->
  score (run evs s) = score s + scored evs s /\
  score s <= score (run evs s) /\
  scored evs s <= length (answeredAt evs s) /\
  StronglySorted lt (answeredAt evs s) /\
  Forall (fun i => i < length (questions (run evs s))) (answeredAt evs s) /\
  (forall ev, within_run ev = true ->
     score (step ev s) = score s + 1 /\ firstCorrect ev s = true \/
     score (step ev s) = score s /\ firstCorrect ev s = false).
Proof.
  intros Hrun Hin.
  destruct (answeredAt_increasing evs s Hrun Hin) as (Hsorted & _ & Hhigh & _).
  pose proof (run_score evs s Hrun) as Hscore.
  repeat split; try assumption.
  - lia.
  - apply scored_le_answered.
  - intros ev Hev. rewrite (step_score _ _ Hev).
    destruct (firstCorrect ev s); [left|right]; split; auto; lia.
Qed.

Lemma score_monotonicity_witness :
  score (run [OptionSelect Examples.paris; OptionSelect Examples.rome;
              NextQuestion; OptionSelect Examples.rome]
             Examples.asking) = 1 /\
  answeredAt [OptionSelect Examples.paris; OptionSelect Examples.rome;
              NextQuestion; OptionSelect Examples.rome]
             Examples.asking = [0; 1].
Proof.
  destruct (score_monotonicity
              [OptionSelect Examples.paris; OptionSelect Examples.rome;
               NextQuestion; OptionSelect Examples.rome]
              Examples.asking) as (Hscore & _).
  - repeat constructor.
  - simpl. lia.
  - split; [exact Hscore | reflexivity].
Defined.

End PageFacts.

(** ** What a response can be built from *)

Module ResponseFacts.
Import JS Remote.

(** *** What [new Response] makes of a status *)

Lemma newResponse_undefined {B} (b : B) : newResponse None b = inr (ok b).
Proof. reflexivity. Qed.

Lemma newResponse_500 {B} (b : B) :
  newResponse (Some 500%Z) b = inr {| status := 500; body := b |}.
Proof. reflexivity. Qed.

Lemma newResponse_400 {B} (b : B) :
  newResponse (Some 400%Z) b = inr {| status := 400; body := b |}.
Proof. reflexivity. Qed.

Lemma nullBodyStatus_spec st :
  nullBodyStatus st = true <->
  st = 101%Z \/ st = 204%Z \/ st = 205%Z \/ st = 304%Z.
Proof.
  unfold nullBodyStatus. rewrite !orb_true_iff, !Z.eqb_eq. tauto.
Qed.

Lemma newResponse_in_range {B} st (b : B) :
  (200 <= st <= 599)%Z -> nullBodyStatus st = false ->
  newResponse (Some st) b = inr {| status := st; body := b |}.
Proof.
  intros Hst Hnull. unfold newResponse. cbv zeta.
  rewrite Z.rem_small by lia.
  destruct (Z.ltb_spec st 200); [lia|].
  destruct (Z.ltb_spec 599 st); [lia|].
  cbn [orb]. now rewrite Hnull.
Qed.

Lemma newResponse_out_of_range {B} st (b : B) :
  (0 <= st < 200)%Z \/ (599 < st < 65536)%Z ->
  exists e, newResponse (Some st) b = inl e.
Proof.
  intros Hst. unfold newResponse. cbv zeta.
  rewrite Z.rem_small by lia.
  destruct (Z.ltb_spec st 200); [eauto|].
  destruct (Z.ltb_spec 599 st); [eauto|]. lia.
Qed.

Lemma newResponse_no_body {B} st (b : B) :
  st = 204%Z \/ st = 205%Z \/ st = 304%Z ->
  exists e, newResponse (Some st) b = inl e.
Proof.
  intros [-> | [-> | ->]]; eexists; reflexivity.
Qed.

Lemma newResponse_inr {B} st (b : B) response :
  newResponse st b = inr response ->
  body response = b /\
  (200 <= status response <= 599)%Z /\
  nullBodyStatus (status response) = false /\
  match st with
  | None => status response = 200%Z
  | Some st => status response = Z.rem st 65536
  end.
Proof.
  unfold newResponse. destruct st as [st|].
  - cbv zeta.
    destruct (Z.ltb_spec (Z.rem st 65536) 200); [discriminate|].
    destruct (Z.ltb_spec 599 (Z.rem st 65536)); [discriminate|].
    cbn [orb]. destruct (nullBodyStatus (Z.rem st 65536)) eqn:Hnull;
      [discriminate|].
    intros [= <-]. cbn. repeat split; auto; lia.
  - intros [= <-]. cbn. repeat split; auto; lia.
Qed.

Lemma newResponse_inl {B} st (b : B) e :
  newResponse st b = inl e ->
  exists n, st = Some n /\
    ((Z.rem n 65536 < 200)%Z \/ (599 < Z.rem n 65536)%Z
     \/ nullBodyStatus (Z.rem n 65536) = true).
Proof.
  unfold newResponse. destruct st as [st|]; [|discriminate].
  cbv zeta. intros H. exists st. split; [reflexivity|].
  destruct (Z.ltb_spec (Z.rem st 65536) 200); [auto|].
  destruct (Z.ltb_spec 599 (Z.rem st 65536)); [auto|].
  cbn [orb] in H. destruct (nullBodyStatus (Z.rem st 65536)); [auto|].
  discriminate.
Qed.

End ResponseFacts.

(** ** Properties of the question generation gateway *)

Module ChatFacts.
Import JS Remote Chat ResponseFacts.

(** *** What the schemas accept *)

Lemma both_Valid {A B C} (f : A -> B -> C) a b c :
  both f a b = Valid c <->
  exists x y, a = Valid x /\ b = Valid y /\ c = f x y.
Proof.
  destruct a as [x|i], b as [y|j]; simpl; split.
  - intros [= <-]. eauto.
  - intros (x' & y' & [= <-] & [= <-] & ->). reflexivity.
  - discriminate.
  - intros (? & ? & _ & [=] & _).
  - discriminate.
  - intros (? & ? & [=] & _).
  - discriminate.
  - intros (? & ? & [=] & _).
Qed.

Lemma check_Valid b message u : check b message = Valid u <-> b = true.
Proof.
  destruct b, u; simpl; split; congruence.
Qed.

Lemma elements_Valid {A} (l : list (Parsed A)) xs :
  elements l = Valid xs <-> l = Valid <$> xs.
Proof.
  revert xs. induction l as [|a l IH]; intros xs; simpl.
  - destruct xs; simpl; split; congruence.
  - rewrite both_Valid. split.
    + intros (x & r & -> & Hr & ->). apply IH in Hr. now subst.
    + destruct xs as [|x r]; [discriminate|]. csimpl. intros [= -> ->].
      exists x, r. repeat split. now apply IH.
Qed.

Lemma z_string_min1_Valid message v s :
  z_string_min1 message v = Valid s <-> v = Some (JString s) /\ truthy s = true.
Proof.
  unfold z_string_min1.
  destruct v as [[| | |s'| |]|]; try (split; [discriminate|intros [[=] _]]).
  rewrite both_Valid. split.
  - intros (u & x & Hc & [= <-] & ->). apply check_Valid in Hc. auto.
  - intros [[= ->] Hs]. exists tt, s. rewrite Hs. auto.
Qed.

Lemma z_boolean_Valid v b : z_boolean v = Valid b <-> v = Some (JBool b).
Proof.
  unfold z_boolean.
  destruct v as [[| | | | |]|]; split; congruence.
Qed.

Lemma z_array_Valid {A} (item : JSON -> Parsed A) lo tooFew hi tooMany v xs :
  z_array item lo tooFew hi tooMany v = Valid xs <->
  exists items, v = Some (JArray items) /\
    lo <= length items <= hi /\ item <$> items = Valid <$> xs.
Proof.
  unfold z_array.
  destruct v as [[| | | |items|]|];
    try (split; [discriminate|intros (? & [=] & _)]).
  rewrite both_Valid. split.
  - intros (u & l & Hc & Hl & ->). apply both_Valid in Hc.
    destruct Hc as (u1 & u2 & H1 & H2 & _).
    apply check_Valid, Nat.leb_le in H1. apply check_Valid, Nat.leb_le in H2.
    apply elements_Valid in Hl. eauto.
  - intros (items' & [= <-] & [Hlo Hhi] & Hitems).
    exists tt, xs. repeat split; [|now apply elements_Valid].
    apply both_Valid. exists tt, tt.
    repeat split; apply check_Valid, Nat.leb_le; assumption.
Qed.

Lemma QuizOptionSchema_Valid v o :
  QuizOptionSchema v = Valid o <->
  exists fields, v = JObject fields /\
    fields !! "option" = Some (JString (Page.optionText o)) /\
    fields !! "correct" = Some (JBool (Page.correct o)) /\
    wellFormedOption o = true.
Proof.
  unfold QuizOptionSchema, wellFormedOption.
  destruct v as [| | | | |fields];
    try (split; [discriminate|intros (? & [=] & _)]).
  rewrite both_Valid. split.
  - intros (s & b & Hs & Hb & ->). simpl.
    apply z_string_min1_Valid in Hs. apply z_boolean_Valid in Hb.
    exists fields. tauto.
  - intros (fields' & [= <-] & Hs & Hb & Ht).
    exists (Page.optionText o), (Page.correct o).
    rewrite z_string_min1_Valid, z_boolean_Valid.
    destruct o; auto.
Qed.

Lemma map_Valid_wellFormed {A} (item : JSON -> Parsed A) (P : A -> bool)
    (items : list JSON) (xs : list A) :
  (forall v x, item v = Valid x -> P x = true) ->
  item <$> items = Valid <$> xs -> forallb P xs = true.
Proof.
  intros HP. revert xs.
  induction items as [|v items IH]; intros [|x xs]; csimpl;
    try discriminate; [reflexivity|].
  intros [= Hv Hrest]. rewrite (HP _ _ Hv). simpl. now apply IH.
Qed.

Lemma QuizQuestionSchema_wellFormed v q :
  QuizQuestionSchema v = Valid q -> wellFormedQuestion q = true.
Proof.
  unfold QuizQuestionSchema, wellFormedQuestion.
  destruct v as [| | | | |fields]; try discriminate.
  rewrite both_Valid. intros (s & os & Hs & Ho & ->).
  cbn [Page.question Page.options].
  apply z_string_min1_Valid in Hs. destruct Hs as [_ ->].
  apply z_array_Valid in Ho. destruct Ho as (items & _ & [Hlo Hhi] & Hitems).
  assert (Hlen : length items = length os).
  { apply (f_equal length) in Hitems. now rewrite !length_fmap in Hitems. }
  rewrite <- Hlen.
  apply Nat.leb_le in Hlo. apply Nat.leb_le in Hhi. rewrite Hlo, Hhi. simpl.
  eapply map_Valid_wellFormed; [|exact Hitems].
  intros v o Hv. apply QuizOptionSchema_Valid in Hv. firstorder.
Qed.

Lemma QuizSchema_wellFormed v q :
  QuizSchema v = Valid q -> wellFormedQuiz q = true.
Proof.
  unfold QuizSchema, wellFormedQuiz.
  destruct v as [| | | | |fields]; try discriminate.
  rewrite both_Valid. intros (qs & u & Hq & _ & ->). cbn [quiz].
  apply z_array_Valid in Hq. destruct Hq as (items & _ & [Hlo Hhi] & Hitems).
  assert (Hlen : length items = length qs).
  { apply (f_equal length) in Hitems. now rewrite !length_fmap in Hitems. }
  rewrite <- Hlen.
  apply Nat.leb_le in Hlo. apply Nat.leb_le in Hhi. rewrite Hlo, Hhi. simpl.
  eapply map_Valid_wellFormed; [|exact Hitems].
  apply QuizQuestionSchema_wellFormed.
Qed.

(** Conversely, a well-formed quiz passes, as the value it is. *)
Lemma QuizOptionSchema_optionJSON o :
  wellFormedOption o = true -> QuizOptionSchema (optionJSON o) = Valid o.
Proof.
  intros Ho. apply QuizOptionSchema_Valid.
  eexists. split; [reflexivity|]. split; [|split; [|exact Ho]].
  - apply lookup_insert_eq.
  - rewrite lookup_insert_ne by discriminate. apply lookup_singleton_eq.
Qed.

Lemma map_Valid_encode {A} (item : JSON -> Parsed A) (encode : A -> JSON)
    (P : A -> bool) (xs : list A) :
  (forall x, P x = true -> item (encode x) = Valid x) ->
  forallb P xs = true ->
  item <$> (encode <$> xs) = Valid <$> xs.
Proof.
  intros HP. induction xs as [|x xs IH]; csimpl; [reflexivity|].
  intros [Hx Hxs]%andb_true_iff. f_equal; auto.
Qed.

Lemma QuizQuestionSchema_questionJSON q :
  wellFormedQuestion q = true -> QuizQuestionSchema (questionJSON q) = Valid q.
Proof.
  unfold wellFormedQuestion.
  intros [[[Hq Hlo%Nat.leb_le]%andb_true_iff Hhi%Nat.leb_le]%andb_true_iff
          Hos]%andb_true_iff.
  unfold QuizQuestionSchema, questionJSON. apply both_Valid.
  exists (Page.question q), (Page.options q). repeat split.
  - apply z_string_min1_Valid. split; [apply lookup_insert_eq|exact Hq].
  - apply z_array_Valid. eexists. split.
    + rewrite lookup_insert_ne by discriminate. apply lookup_singleton_eq.
    + rewrite length_fmap. split; [lia|].
      eapply map_Valid_encode; [|exact Hos].
      apply QuizOptionSchema_optionJSON.
  - now destruct q.
Qed.

Lemma QuizSchema_quizJSON q :
  wellFormedQuiz q = true -> QuizSchema (quizJSON q) = Valid q.
Proof.
  unfold wellFormedQuiz.
  intros [[Hlo%Nat.leb_le Hhi%Nat.leb_le]%andb_true_iff Hqs]%andb_true_iff.
  unfold QuizSchema, quizJSON. apply both_Valid.
  exists (quiz q), tt. repeat split; [|now destruct q].
  apply z_array_Valid. eexists. split; [apply lookup_singleton_eq|].
  rewrite length_fmap. split; [lia|].
  eapply map_Valid_encode; [|exact Hqs].
  apply QuizQuestionSchema_questionJSON.
Qed.

(** *** The paths through the handler *)

(** One case per way through [POST]: each call of the client either
    resolves or rejects, and each test goes one way or the other. *)
Ltac fork p :=
  match goal with
  | |- context [p ?A ?t ?c] =>
      let r := fresh "reply" in
      destruct (p A t c) as [?e|r] eqn:?
  | |- ?lhs = _ -> _ =>
      match lhs with
      | context [match ?x with _ => _ end] =>
          lazymatch x with
          | context [match _ with _ => _ end] => fail
          | _ => destruct x eqn:?
          end
      end
  end; cbv beta iota zeta delta [app isZodError messageOf].

Ltac paths p :=
  unfold result, effects;
  match goal with
  | |- context [exec ?m p ?s] =>
      let out := fresh "out" in
      let Hout := fresh "Hout" in
      remember (exec m p s) as out eqn:Hout;
      symmetry in Hout; revert Hout
  end;
  unfold exec, POST, generate, afterRun, fallback, QuizSchema_parse, onError,
    destructure, try_catch, bind, lift, call, ret, throw, log;
  cbv beta iota zeta delta [app isZodError messageOf];
  repeat fork p;
  intros <-.

Ltac leaf :=
  cbn -[pretty String.append String.eqb falsy QuizSchema parseText find
        asArray actionText newResponse];
  rewrite ?newResponse_500.

Ltac leaf_in H :=
  cbn -[pretty String.append String.eqb falsy QuizSchema parseText find
        asArray actionText newResponse] in H;
  rewrite ?newResponse_500 in H.

(** At the end of a path: bring in what the statement assumes, rewrite
    with what the path decided, and conclude. *)
Ltac settle :=
  try match goal with
      | H : find isAssistant ?r = _ |- context [find isAssistant ?r] =>
          rewrite H; leaf
      end;
  intros; try discriminate; subst;
  try congruence;
  repeat match goal with
  | H : (_ =? _)%string = true |- _ => apply String.eqb_eq in H; subst
  | H : (_ =? _)%string = false |- _ => apply String.eqb_neq in H
  | H : _ \/ _ |- _ => destruct H
  | H : inr _ = inr _ |- _ => injection H as H; subst
  | H : Some _ = Some _ |- _ => injection H as H; subst
  end;
  try congruence;
  repeat lazymatch goal with |- _ /\ _ => split end;
  try solve [reflexivity | congruence | eauto | left; reflexivity
            | right; do 2 eexists; split; [reflexivity|]; auto ].

(** For the first two parts of [POST_outcome]: what a response tells, and
    how the run ends. *)
Ltac outcome :=
  let response := fresh "response" in
  let H := fresh "H" in
  intros response H;
  first [ discriminate H
        | apply newResponse_inr in H as [H _]; rewrite H; exact I
        | injection H as <-; leaf; settle ].

Ltac classify :=
  first [ left; eexists; split; [reflexivity | intros ?; discriminate]
        | right; left; eexists; reflexivity
        | right; right; do 3 eexists;
          split; [first [left; reflexivity | right; reflexivity]
                 | split; reflexivity] ].

(** For the last two parts: what was caught, by its [status]. *)
Ltac caught :=
  intros;
  repeat match goal with
  | H : _ \/ _ |- _ => destruct H
  | H : _ /\ _ |- _ => destruct H
  end;
  try discriminate;
  repeat match goal with
  | H : Some _ = Some _ |- _ => injection H as H; subst
  | H : inl _ = inl _ |- _ => injection H as H; subst
  end;
  try discriminate;
  repeat match goal with
  | H : statusOf _ = _ |- _ => cbn in H
  end;
  try discriminate;
  repeat match goal with
  | H : Some _ = Some _ |- _ => injection H as H; subst
  end;
  first [ reflexivity | eexists; reflexivity ].

Lemma POST_outcome parse request p :
  let t := effects (POST parse request) p tt in
  let r := result (POST parse request) p tt in
  (forall response, r = inr response ->
     match body response with
     | QuizBody q =>
         status response = 200%Z /\ (exists v, QuizSchema v = Valid q) /\
         runStatus t = Some "completed" /\ lastRejection t = None
     | NotFound _ _ =>
         status response = 404%Z /\ existsb isRetrieveRejected t = true
     | Message _ =>
         status response = 400%Z /\ List.filter isCreation t = []
     | InvalidFormat _ => status response = 400%Z
     | Failure _ => True
     end) /\
  ((exists response, r = inr response /\ forall m, body response <> Failure m)
   \/ (exists m, r = inr (respond 500 (Failure m)))
   \/ (exists e st m,
         (lastRejection t = Some e \/ request = inl e) /\
         statusOf e = Some st /\ r = newResponse st (Failure m))) /\
  (forall b, request = inr b -> b <> JNull ->
     falsy (requestField "vectorStoreId" request) = true ->
     r = inr (respond 400
       (Message "Vector store ID is required. Please upload PDF files first."))
     /\ t = []) /\
  (request = inr JNull ->
     (exists m, r = inr (respond 500 (Failure m)))
     /\ t = [ConsoleError "API Error in /api/chat:"]) /\
  (falsy (requestField "vectorStoreId" request) = false ->
   asArray (existingQuestionsOf request) = None ->
     r = inr (respond 400
       (Message "existingQuestions must be an array of strings."))
     /\ t = []) /\
  (existsb isRetrieveRejected t = true ->
     exists m e, r = inr (respond 404 (NotFound m e))) /\
  (storeFiles t = Some None \/ storeFiles t = Some (Some []) ->
     r = inr (respond 400
       (Message "No files found in the vector store. Please upload PDF files first."))) /\
  (forall st, runStatus t = Some st -> st <> "completed" ->
     lastRejection t = None ->
     r = inr (respond 500
       (Failure ("Assistant run failed with status: " +:+ st)))) /\
  (forall text v issues,
     answerText t = Some text -> parseText parse text = Some v ->
     QuizSchema v = Invalid issues ->
     r = inr (respond 400 (InvalidFormat "Invalid quiz format generated by AI."))
     /\ List.filter isDeletion t = []
     /\ length (List.filter isCreation t) = 2) /\
  (forall text v q,
     answerText t = Some text -> parseText parse text = Some v ->
     QuizSchema v = Valid q -> lastRejection t = None ->
     r = inr (ok (QuizBody q))
     /\ length (List.filter isDeletion t) = 2) /\
  (forall e st,
     lastRejection t = Some e /\ existsb isRetrieveRejected t = false
     \/ request = inl e ->
     statusOf e = Some st ->
     exists m, r = newResponse st (Failure m)) /\
  (forall e,
     lastRejection t = Some e /\ existsb isRetrieveRejected t = false
     \/ request = inl e ->
     statusOf e = None ->
     if isZodError e
     then r = inr (respond 400
                     (InvalidFormat "Invalid quiz format generated by AI."))
     else r = inr (respond 500
                     (Failure
                        (default
                           "An unexpected error occurred while generating the quiz."
                           (messageOf e))))).
Proof.
  paths p.
  all: leaf; unfold existingQuestionsOf; leaf.
  all: repeat lazymatch goal with |- _ /\ _ => split end.
  all: try solve [settle].
  all: try solve [outcome].
  all: try solve [classify].
  all: solve [caught].
Qed.

(** C1, as stated, fails: the schemas do not look at how many options
    are marked correct. The provider answers with a question whose two
    options are both marked incorrect; the gateway returns it with status
    200, and the page shows it as the question to answer. *)
Lemma question_without_correct_option_reaches_answering :
  let response :=
    ok (QuizBody Examples.unanswerableQuiz) in
  let session :=
    Page.fetchQuizFromVectorStore false (received response) Page.initial in
  result (POST Examples.JSON_parse Examples.firstRequest)
         (Examples.answering_with Examples.unanswerableText "completed" (inr tt))
         tt
    = inr response /\
  Page.answering session = true /\
  Page.questions session = [Examples.unanswerable] /\
  exactlyOneCorrect Examples.unanswerable = false /\
  ~ accepts_only_single_answer_questions.
Proof.
  cbv zeta. repeat split; try (vm_compute; reflexivity).
  intros H.
  specialize (H (quizJSON Examples.unanswerableQuiz) Examples.unanswerableQuiz).
  assert (Hv : QuizSchema (quizJSON Examples.unanswerableQuiz)
               = Valid Examples.unanswerableQuiz)
    by (apply QuizSchema_quizJSON; reflexivity).
  specialize (H Hv). discriminate H.
Qed.

(** C1, amended. A question set that the gateway returns, and that the
    page can therefore show, has 1 to 10 questions, each with a non-empty
    text and 2 to 4 options with non-empty texts; a set of questions that
    violates this is rejected and one that satisfies it is accepted as it
    is. How many options are marked correct is not checked. *)
Theorem accepted_quizzes_are_well_formed :
  (forall v q, QuizSchema v = Valid q -> wellFormedQuiz q = true) /\
  (forall q, QuizSchema (quizJSON q) = Valid q <-> wellFormedQuiz q = true) /\
  (forall parse request p response q,
     result (POST parse request) p tt = inr response ->
     body response = QuizBody q ->
     status response = 200%Z /\ wellFormedQuiz q = true) /\
  (forall response questions,
     received response = Page.Ok (Some {| Page.quiz := Some questions |}) ->
     exists q, body response = QuizBody q /\ questions = quiz q).
Proof.
  split; [exact QuizSchema_wellFormed|].
  split; [|split].
  - intros q. split; [apply QuizSchema_wellFormed | apply QuizSchema_quizJSON].
  - intros parse request p response q Hres Hbody.
    destruct (POST_outcome parse request p) as (Hkind & _).
    cbv zeta in Hkind. specialize (Hkind response Hres).
    rewrite Hbody in Hkind.
    destruct Hkind as (Hst & (v & Hv) & _).
    split; [exact Hst | exact (QuizSchema_wellFormed _ _ Hv)].
  - intros response questions. unfold received.
    destruct (_ && _); [|discriminate].
    destruct (body response) as [m|m e|q|m|m]; try discriminate.
    intros [= <-]. eauto.
Qed.

(** C7 does not hold of the code. First run: the assistant answers
    [{"quiz": []}], which parses but fails the schema; the assistant and
    the thread have been created and neither is deleted. Second run: the
    quiz is valid but the deletion of the assistant is rejected; the
    rejection is what the caller gets, in place of the quiz. *)
Theorem assistant_and_thread_not_always_deleted :
  let invalid :=
    exec (POST Examples.JSON_parse Examples.firstRequest)
         (Examples.answering_with Examples.emptyQuizText "completed" (inr tt))
         tt in
  let undeletable :=
    exec (POST Examples.JSON_parse Examples.firstRequest)
         (Examples.answering_with Examples.unanswerableText "completed"
            (inl Examples.unavailable))
         tt in
  (invalid.1.1
     = inr (respond 400 (InvalidFormat "Invalid quiz format generated by AI."))
   /\ List.filter isCreation invalid.2
       = [Request (AssistantsCreate (JString "vs_1")) (inr "asst_1");
          Request ThreadsCreate (inr "thread_1")]
   /\ List.filter isDeletion invalid.2 = []) /\
  (undeletable.1.1 = inr (respond 503 (Failure "Service unavailable"))
   /\ List.filter isDeletion undeletable.2
       = [Request (AssistantsDel "asst_1") (inl Examples.unavailable)]).
Proof.
  cbv zeta. repeat split; vm_compute; reflexivity.
Qed.

(** In general: whenever the answer of the assistant parses and fails the
    schema, both resources exist and no deletion is requested. *)
Lemma schema_failure_skips_cleanup parse request p text v issues :
  let t := effects (POST parse request) p tt in
  answerText t = Some text -> parseText parse text = Some v ->
  QuizSchema v = Invalid issues ->
  List.filter isDeletion t = [] /\ length (List.filter isCreation t) = 2.
Proof.
  destruct (POST_outcome parse request p)
    as (_ & _ & _ & _ & _ & _ & _ & _ & Hinvalid & _).
  intros t Ht Hp Hv. exact (proj2 (Hinvalid text v issues Ht Hp Hv)).
Qed.

(** C8, as stated, fails: a generated quiz that fails the schema is
    answered with status 400, not 500. *)
Lemma invalid_quiz_is_answered_with_400 :
  QuizSchema Examples.emptyQuiz
    = Invalid ["The quiz must have at least one question."] /\
  exists response,
    result (POST Examples.JSON_parse Examples.firstRequest)
      (Examples.answering_with Examples.emptyQuizText "completed" (inr tt)) tt
      = inr response /\
    status response = 400%Z /\ status response <> 500%Z.
Proof.
  split; [vm_compute; reflexivity|].
  eexists. split; [vm_compute; reflexivity|].
  split; [reflexivity | discriminate].
Qed.

(** The status that the outer [catch] gives to [new Response] is used as
    it is when it is a number from 200 to 599 that can have a body, and 200
    stands for one that is [undefined]; for a number from 0 to 199 or from
    600 to 65535, and for 204, 205 and 304, the constructor throws. *)
Lemma status_of_a_caught_error (b : Body) :
  newResponse None b = inr (ok b) /\
  (forall st, (200 <= st <= 599)%Z ->
     st <> 204%Z -> st <> 205%Z -> st <> 304%Z ->
     newResponse (Some st) b = inr (respond st b)) /\
  (forall st,
     (0 <= st < 200)%Z \/ (599 < st < 65536)%Z
     \/ st = 204%Z \/ st = 205%Z \/ st = 304%Z ->
     exists e, newResponse (Some st) b = inl e).
Proof.
  split; [reflexivity|]. split.
  - intros st Hst H204 H205 H304. apply newResponse_in_range; [exact Hst|].
    destruct (nullBodyStatus st) eqn:Hnull; [|reflexivity].
    apply nullBodyStatus_spec in Hnull. lia.
  - intros st [H|[H|H]].
    + apply newResponse_out_of_range. auto.
    + apply newResponse_out_of_range. auto.
    + apply newResponse_no_body. exact H.
Qed.

(** Two runs behind the amended statement: the deletion of the assistant
    fails for want of a connection, and the caller gets the message with
    status 200; it is rejected with a status that is no HTTP status, and
    the caller gets no response at all. *)
Lemma rejections_without_a_usable_status :
  result (POST Examples.JSON_parse Examples.firstRequest)
    (Examples.answering_with Examples.unanswerableText "completed"
       (inl (APIConnectionError "Connection error.")))
    tt
  = inr (respond 200 (Failure "Connection error.")) /\
  exists e,
    result (POST Examples.JSON_parse Examples.firstRequest)
      (Examples.answering_with Examples.unanswerableText "completed"
         (inl (APIError 0 "Unknown")))
      tt
    = inl e.
Proof.
  split; [vm_compute; reflexivity|].
  eexists. vm_compute. reflexivity.
Qed.

(** C8, amended. A run of [POST] ends in one of two ways. Either it
    answers with a status of its own: 200 with the quiz when generation
    succeeds; 400 when the body is not [null] and the handle is missing or
    falsy, when [existingQuestions] is not an array, when the store has no
    files, and when the generated quiz (or a rejection of the provider
    that is a [ZodError]) fails the schema; 404 when the lookup of the
    handle is rejected; 500 when the run does not complete, when the body
    is [null], and for every error that has no [status]. Or a call of the
    provider other than the lookup (or the reading of the body) was
    rejected with an error that has a [status], and the outcome is what
    [new Response] makes of that status: the status itself when it is a
    number from 200 to 599 other than 204, 205 and 304, status 200 when it
    is [undefined], and an exception in place of a response when it is a
    number from 0 to 199, from 600 to 65535, or one of the three. *)
Theorem POST_status parse request p :
  let t := effects (POST parse request) p tt in
  let r := result (POST parse request) p tt in
  ((exists response, r = inr response /\
      match body response with
      | QuizBody q => status response = 200%Z
      | NotFound _ _ =>
          status response = 404%Z /\ existsb isRetrieveRejected t = true
      | Message _ | InvalidFormat _ => status response = 400%Z
      | Failure _ => status response = 500%Z
      end)
   \/ (exists e st m,
         (lastRejection t = Some e \/ request = inl e) /\
         statusOf e = Some st /\ r = newResponse st (Failure m))) /\
  (forall b : Body,
     newResponse None b = inr (ok b) /\
     (forall st, (200 <= st <= 599)%Z ->
        st <> 204%Z -> st <> 205%Z -> st <> 304%Z ->
        newResponse (Some st) b = inr (respond st b)) /\
     (forall st,
        (0 <= st < 200)%Z \/ (599 < st < 65536)%Z
        \/ st = 204%Z \/ st = 205%Z \/ st = 304%Z ->
        exists e, newResponse (Some st) b = inl e)) /\
  (forall b, request = inr b -> b <> JNull ->
     falsy (requestField "vectorStoreId" request) = true ->
     r = inr (respond 400
       (Message "Vector store ID is required. Please upload PDF files first."))) /\
  (request = inr JNull -> exists m, r = inr (respond 500 (Failure m))) /\
  (falsy (requestField "vectorStoreId" request) = false ->
   asArray (existingQuestionsOf request) = None ->
     r = inr (respond 400
       (Message "existingQuestions must be an array of strings."))) /\
  (existsb isRetrieveRejected t = true ->
     exists m e, r = inr (respond 404 (NotFound m e))) /\
  (storeFiles t = Some None \/ storeFiles t = Some (Some []) ->
     r = inr (respond 400
       (Message "No files found in the vector store. Please upload PDF files first."))) /\
  (forall st, runStatus t = Some st -> st <> "completed" ->
     lastRejection t = None ->
     r = inr (respond 500
       (Failure ("Assistant run failed with status: " +:+ st)))) /\
  (forall text v issues,
     answerText t = Some text -> parseText parse text = Some v ->
     QuizSchema v = Invalid issues ->
     r = inr (respond 400
       (InvalidFormat "Invalid quiz format generated by AI."))) /\
  (forall text v q,
     answerText t = Some text -> parseText parse text = Some v ->
     QuizSchema v = Valid q -> lastRejection t = None ->
     r = inr (ok (QuizBody q))) /\
  (forall e st,
     lastRejection t = Some e /\ existsb isRetrieveRejected t = false
     \/ request = inl e ->
     statusOf e = Some st ->
     exists m, r = newResponse st (Failure m)) /\
  (forall e,
     lastRejection t = Some e /\ existsb isRetrieveRejected t = false
     \/ request = inl e ->
     statusOf e = None ->
     if isZodError e
     then r = inr (respond 400
                     (InvalidFormat "Invalid quiz format generated by AI."))
     else r = inr (respond 500
                     (Failure
                        (default
                           "An unexpected error occurred while generating the quiz."
                           (messageOf e))))).
Proof.
  destruct (POST_outcome parse request p)
    as (Hkind & Hend & Hid & Hnull & Harr & Hnot & Hempty & Hrun
        & Hinvalid & Hvalid & Hstatus & Hplain).
  cbv zeta in *.
  split; [|split; [exact status_of_a_caught_error|
           split; [|split; [|split; [|split; [|split; [|split; [|split;
           [|split; [|split; [exact Hstatus|exact Hplain]]]]]]]]]]].
  - destruct Hend as [(response & Hres & Hbody)|[(m & Hres)|Hcaught]].
    + left. exists response. split; [exact Hres|].
      specialize (Hkind response Hres).
      destruct (body response) as [m|m e|q|m|m];
        [tauto|tauto|tauto|tauto|destruct (Hbody m eq_refl)].
    + left. eexists. split; [exact Hres|]. reflexivity.
    + right. exact Hcaught.
  - intros b Hb Hn Hf. exact (proj1 (Hid b Hb Hn Hf)).
  - intros Hb. exact (proj1 (Hnull Hb)).
  - intros Hf Ha. exact (proj1 (Harr Hf Ha)).
  - exact Hnot.
  - exact Hempty.
  - exact Hrun.
  - intros text v issues H1 H2 H3.
    exact (proj1 (Hinvalid text v issues H1 H2 H3)).
  - intros text v q H1 H2 H3 H4. exact (proj1 (Hvalid text v q H1 H2 H3 H4)).
Qed.

End ChatFacts.

(** ** Properties of the upload gateway *)

Module UploadFacts.
Import JS Remote Upload ResponseFacts.

(** *** Validation *)

Lemma validateFiles_rejects files : forall totalSize response,
  validateFiles files totalSize = inl response ->
  exists message, response = respond 400 (Message message).
Proof.
  induction files as [|file rest IH]; intros acc response; simpl; [discriminate|].
  destruct (isPdf file); simpl.
  - destruct (size file >? MAX_FILE_SIZE)%Z; [|apply IH].
    intros [= <-]. eauto.
  - intros [= <-]. unfold notPdf. eauto.
Qed.

Lemma validateFiles_passes files : forall acc total,
  validateFiles files acc = inr total ->
  Forall (fun file => isPdf file = true /\ (size file <= MAX_FILE_SIZE)%Z) files /\
  total = (acc + totalSize files)%Z.
Proof.
  induction files as [|file rest IH]; intros acc total; simpl.
  - intros [= <-]. split; [constructor|lia].
  - destruct (isPdf file) eqn:Hpdf; simpl; [|discriminate].
    destruct (Z.gtb_spec (size file) MAX_FILE_SIZE); [discriminate|].
    intros Hrest. destruct (IH _ _ Hrest) as [Hall ->].
    split; [constructor; auto|lia].
Qed.

Lemma validateFiles_total files : forall acc,
  Forall (fun file => isPdf file = true /\ (size file <= MAX_FILE_SIZE)%Z) files ->
  validateFiles files acc = inr (acc + totalSize files)%Z.
Proof.
  induction files as [|file rest IH]; intros acc Hall; simpl.
  - f_equal. lia.
  - inversion Hall as [|? ? [Hpdf Hsize] Hrest]; subst.
    rewrite Hpdf. simpl.
    destruct (Z.gtb_spec (size file) MAX_FILE_SIZE); [lia|].
    rewrite (IH _ Hrest). f_equal. lia.
Qed.

(** A batch that violates a constraint is answered by the route with the
    limits with status 400 and a message, and the handler does nothing
    else: no call of the provider, nothing on the console. *)
Lemma POST_rejects_locally (files : list File) (p : Provider) :
  violates files ->
  exists message,
    exec (POST (inr files)) p [] = (inr (respond 400 (Message message)), [], []).
Proof.
  intros Hv. unfold exec, POST, try_catch, bind, lift, ret.
  destruct (Nat.eqb_spec (length files) 0) as [Hzero|Hzero]; [eauto|].
  destruct (Nat.ltb_spec 10 (length files)) as [Hmany|Hmany]; [eauto|].
  destruct (validateFiles files 0) as [response|total] eqn:Hval.
  - destruct (validateFiles_rejects _ _ _ Hval) as [message ->]. eauto.
  - destruct (validateFiles_passes _ _ _ Hval) as [Hall ->].
    destruct Hv as [->|[Hlen|[Hpdf|[Hsize|Htotal]]]].
    + simpl in Hzero. congruence.
    + lia.
    + exfalso. apply Exists_exists in Hpdf. destruct Hpdf as (file & Hin & Hno).
      rewrite Forall_forall in Hall. destruct (Hall _ Hin). congruence.
    + exfalso. apply Exists_exists in Hsize. destruct Hsize as (file & Hin & Hbig).
      rewrite Forall_forall in Hall. destruct (Hall _ Hin). lia.
    + destruct (Z.gtb_spec (0 + totalSize files) MAX_TOTAL_SIZE); [eauto|lia].
Qed.

(** *** The effects of the loops *)

Lemma quiet_sends_nothing (c : list Effect) :
  uploaded c = [] -> existsb isUploadRejected c = false -> sent c = [].
Proof.
  unfold uploaded, sent.
  induction c as [|e c IH]; [reflexivity|].
  destruct e as [A call reply| |]; cbn [omap list_omap existsb]; auto.
  destruct call; cbn [uploadedOf sentOf isUploadRejected orb]; auto.
  destruct reply; cbn; discriminate.
Qed.

Lemma uploadFiles_run files p : forall ids t,
  exists r u new,
    uploadFiles files p ids t = (r, ids ++ new, t ++ u) /\
    uploaded u = new /\ uploads_only u /\
    match r with
    | inr _ => existsb isUploadRejected u = false /\ length new = length files
    | inl e => existsb isUploadRejected u = true /\ exists m, e = JsError m
    end.
Proof.
  induction files as [|file rest IH]; intros ids t.
  - exists (inr tt), [], []. rewrite !app_nil_r.
    repeat split; reflexivity.
  - cbn [uploadFiles]. unfold bind, try_catch, call, modify, log, throw.
    cbn beta iota zeta.
    destruct (p string t (FilesCreate file)) as [e|fileId] eqn:Hreply.
    + eexists (inl _), [_; _], []. rewrite app_nil_r, <- app_assoc.
      repeat split; try reflexivity. eauto.
    + destruct (IH (ids ++ [fileId]) (t ++ [Request (FilesCreate file) (inr fileId)]))
        as (r & u & new & Hrun & Hup & Honly & Hr).
      rewrite Hrun. exists r, (Request (FilesCreate file) (inr fileId) :: u),
                           (fileId :: new).
      rewrite <- !app_assoc. split; [reflexivity|].
      destruct Honly as (H1 & H2 & H3 & H4 & H5 & H6).
      unfold uploaded, uploads_only, attached, deletions in *. cbn.
      rewrite Hup, H1, H2, H3, H4, H5, H6.
      repeat split; try reflexivity.
      destruct r; cbn; destruct Hr as [Hrej Hlen]; split; auto.
Qed.

Lemma uploadFiles_stops files p : forall ids t,
  exists r u new,
    uploadFiles files p ids t = (r, ids ++ new, t ++ u) /\
    match r with
    | inr _ => sent u = files /\ existsb isUploadRejected u = false
    | inl e =>
        exists pre file post,
          files = pre ++ file :: post /\ sent u = pre ++ [file] /\
          length new = length pre /\
          e = JsError ("Failed to upload file " +:+ name file
                       +:+ ". Please try again.")
    end.
Proof.
  induction files as [|file rest IH]; intros ids t.
  - exists (inr tt), [], []. rewrite !app_nil_r. repeat split; reflexivity.
  - cbn [uploadFiles]. unfold bind, try_catch, call, modify, log, throw.
    cbn beta iota zeta.
    destruct (p string t (FilesCreate file)) as [e|fileId] eqn:Hreply.
    + eexists (inl _), [_; _], []. rewrite app_nil_r, <- app_assoc.
      split; [reflexivity|]. exists [], file, rest. repeat split; reflexivity.
    + destruct (IH (ids ++ [fileId]) (t ++ [Request (FilesCreate file) (inr fileId)]))
        as (r & u & new & Hrun & Hr).
      rewrite Hrun. exists r, (Request (FilesCreate file) (inr fileId) :: u),
                           (fileId :: new).
      rewrite <- !app_assoc. split; [reflexivity|].
      destruct r as [e|[]].
      * destruct Hr as (pre & f & post & -> & Hsent & Hlen & ->).
        exists (file :: pre), f, post. unfold sent in *. cbn.
        rewrite Hsent, Hlen. repeat split; reflexivity.
      * destruct Hr as [Hsent Hrej]. unfold sent in *. cbn.
        rewrite Hsent, Hrej. split; reflexivity.
Qed.

Lemma deleteFiles_run {S} fileIds (p : Provider) (s : S) : forall t,
  exists c,
    deleteFiles fileIds p s t = (inr tt, s, t ++ c) /\
    deletions c = DeletedFile <$> fileIds /\ deletes_only c /\
    length (List.filter isWarning c) = length (List.filter isFailedDeletion c).
Proof.
  induction fileIds as [|fileId rest IH]; intros t.
  - exists []. rewrite app_nil_r. repeat split; reflexivity.
  - cbn [deleteFiles]. unfold bind, try_catch, call, log.
    cbn beta iota zeta.
    destruct (p unit t (FilesDel fileId)) as [e|[]] eqn:Hreply.
    + destruct (IH ((t ++ [Request (FilesDel fileId) (inl e)])
                      ++ [ConsoleWarn ("Failed to delete OpenAI file " +:+ fileId +:+ ":")]))
        as (c & Hrun & Hdel & Honly & Hwarn).
      rewrite Hrun. eexists (_ :: _ :: c). rewrite <- !app_assoc.
      split; [reflexivity|].
      destruct Honly as (H1 & H2 & H3 & H4 & H5).
      unfold deletions, deletes_only, attached, uploaded in *. cbn.
      rewrite Hdel, H1, H2, H3, H4, H5, Hwarn. repeat split; reflexivity.
    + destruct (IH (t ++ [Request (FilesDel fileId) (inr tt)]))
        as (c & Hrun & Hdel & Honly & Hwarn).
      rewrite Hrun. eexists (_ :: c). rewrite <- !app_assoc.
      split; [reflexivity|].
      destruct Honly as (H1 & H2 & H3 & H4 & H5).
      unfold deletions, deletes_only, attached, uploaded in *. cbn.
      rewrite Hdel, H1, H2, H3, H4, H5, Hwarn. repeat split; reflexivity.
Qed.

(** [cleanupResources] asks for the deletion of every file it is given,
    in order, then of the store, whatever the provider answers; it logs one
    warning per rejected deletion and never throws. *)
Lemma cleanupResources_run {S} vs fileIds (p : Provider) (s : S) t :
  exists c,
    cleanupResources vs fileIds p s t = (inr tt, s, t ++ c) /\
    deletions c = (DeletedFile <$> fileIds) ++ [DeletedStore vs] /\
    deletes_only c /\
    length (List.filter isWarning c) = length (List.filter isFailedDeletion c).
Proof.
  unfold cleanupResources, bind.
  destruct (deleteFiles_run fileIds p s t) as (c & Hrun & Hdel & Honly & Hwarn).
  rewrite Hrun. unfold try_catch, call, log. cbn beta iota zeta.
  destruct Honly as (H1 & H2 & H3 & H4 & H5).
  destruct (p unit (t ++ c) (VectorStoresDel vs)) as [e|[]] eqn:Hreply.
  - eexists (c ++ [_; _]). rewrite <- !app_assoc. split; [reflexivity|].
    unfold deletions, deletes_only, attached, uploaded in *.
    rewrite !omap_app, !List.filter_app, existsb_app, !length_app.
    rewrite Hdel, H1, H2, H3, H4, H5, Hwarn. repeat split; reflexivity.
  - eexists (c ++ [_]). rewrite <- !app_assoc. split; [reflexivity|].
    unfold deletions, deletes_only, attached, uploaded in *.
    rewrite !omap_app, !List.filter_app, existsb_app, !length_app.
    rewrite Hdel, H1, H2, H3, H4, H5, Hwarn. repeat split; reflexivity.
Qed.

(** *** The handler *)

Lemma onError_run error (p : Provider) s t :
  exists st m,
    onError error p s t
    = (newResponse st (Failure m), s,
       t ++ [ConsoleError "API Error in /api/upload:"]) /\
    (st = Some 500%Z \/ st = Some 400%Z \/ statusOf error = Some st).
Proof.
  unfold onError, bind, log, lift. cbn beta iota zeta.
  destruct error as [m|st m|m|m|]; cbn [messageOf default from_option id];
    repeat match goal with
    | |- context [if ?b then _ else _] => destruct b
    end;
    do 2 eexists; (split; [reflexivity|]); cbn [statusOf]; auto.
Qed.

(** An error without a [status] is answered, with 500 or 400. *)
Lemma onError_plain error (p : Provider) s t :
  statusOf error = None ->
  exists st m,
    onError error p s t
    = (inr (respond st (Failure m)), s,
       t ++ [ConsoleError "API Error in /api/upload:"]) /\
    (st = 500%Z \/ st = 400%Z).
Proof.
  intros Hnone.
  destruct (onError_run error p s t) as (st & m & -> & [->|[->|Hst]]).
  - exists 500%Z, m. auto.
  - exists 400%Z, m. auto.
  - congruence.
Qed.

Lemma passing_batch files :
  ~ violates files ->
  files <> [] /\ length files <= 10 /\
  validateFiles files 0 = inr (totalSize files) /\
  (totalSize files <= MAX_TOTAL_SIZE)%Z.
Proof.
  unfold violates. intros Hv.
  assert (Hall : Forall (fun file => isPdf file = true
                                     /\ (size file <= MAX_FILE_SIZE)%Z) files).
  { apply Forall_forall. intros file Hin. split.
    - destruct (isPdf file) eqn:Hpdf; [reflexivity|].
      exfalso. apply Hv. right; right; left. apply Exists_exists. eauto.
    - destruct (Z.le_gt_cases (size file) MAX_FILE_SIZE); [assumption|].
      exfalso. apply Hv. right; right; right; left. apply Exists_exists. eauto. }
  repeat split.
  - intros ->. apply Hv. now left.
  - destruct (Nat.le_gt_cases (length files) 10); [assumption|].
    exfalso. apply Hv. right; left. assumption.
  - now rewrite (validateFiles_total _ 0 Hall).
  - destruct (Z.le_gt_cases (totalSize files) MAX_TOTAL_SIZE); [assumption|].
    exfalso. apply Hv. right; right; right; right. assumption.
Qed.

Lemma POST_passing files (p : Provider) :
  ~ violates files ->
  exec (POST (inr files)) p []
  = exec (try_catch (store uploadFiles files) onError) p [].
Proof.
  intros Hv. destruct (passing_batch files Hv) as (Hne & Hlen & Hval & Htotal).
  unfold exec, POST, try_catch at 1, bind at 1, lift. cbn beta iota zeta.
  destruct (Nat.eqb_spec (length files) 0) as [Hzero|_].
  { destruct files; [congruence|discriminate Hzero]. }
  destruct (Nat.ltb_spec 10 (length files)); [lia|].
  rewrite Hval.
  destruct (Z.gtb_spec (totalSize files) MAX_TOTAL_SIZE); [lia|].
  reflexivity.
Qed.

Ltac observe :=
  repeat match goal with
  | H : uploads_only _ |- _ => unfold uploads_only in H
  | H : deletes_only _ |- _ => unfold deletes_only in H
  | H : _ /\ _ |- _ => destruct H
  end;
  unfold created, polled, uploaded, attached, deletions, sent in *;
  rewrite <- ?app_assoc; cbn [app];
  repeat progress
    (rewrite ?omap_app, ?List.filter_app, ?existsb_app, ?length_app;
     cbn [omap list_omap storeOf uploadedOf batchOf attachedOf deletionOf
          sentOf
          isUploadRejected isFailedDeletion isWarning List.filter existsb
          head length orb]);
  repeat match goal with
  | H : omap _ _ = _ |- _ => rewrite H
  | H : List.filter _ _ = _ |- _ => rewrite H
  | H : existsb _ _ = _ |- _ => rewrite H
  | H : length (List.filter isWarning _) = _ |- _ => rewrite H
  end;
  rewrite ?app_nil_r; cbn [app head length orb].

(** The whole course of a batch that passes validation. *)
Lemma upload_run files (p : Provider) :
  ~ violates files ->
  let t := effects (POST (inr files)) p [] in
  let r := result (POST (inr files)) p [] in
  (exists reply rest,
     t = Request VectorStoresCreate reply :: rest /\
     match reply with
     | inl e =>
         sent t = [] /\ attached t = [] /\ deletions t = [] /\
         exists st m,
           r = newResponse st (Failure m) /\
           (st = Some 500%Z \/ st = Some 400%Z \/ statusOf e = Some st)
     | inr vs =>
         if existsb isUploadRejected t then
           attached t = [] /\
           deletions t = (DeletedFile <$> uploaded t) ++ [DeletedStore vs] /\
           exists m, r = inr (respond 500 (Failure m))
                     \/ r = inr (respond 400 (Failure m))
         else
           sent t = files /\ length (uploaded t) = length files /\
           attached t = [(vs, uploaded t)] /\
           match polled t with
           | Some batch =>
               if String.eqb (batch_status batch) "completed" then
                 r = inr (ok (Uploaded vs
                          ("Successfully uploaded " +:+ pretty (length files)
                           +:+ " PDF files to vector store.")
                          (length files) (batch_id batch))) /\
                 deletions t = []
               else if String.eqb (batch_status batch) "failed" then
                 r = inr (respond 500
                        (BatchFailed
                           "File upload batch failed. Please try again with different files."
                           batch)) /\
                 deletions t = (DeletedFile <$> uploaded t) ++ [DeletedStore vs]
               else
                 r = inr (ok (InProgress
                          ("File upload is still in progress. Status: "
                           +:+ batch_status batch)
                          vs (batch_id batch))) /\
                 deletions t = []
           | None =>
               deletions t = (DeletedFile <$> uploaded t) ++ [DeletedStore vs] /\
               exists st m, r = newResponse st (Failure m)
           end
     end) /\
  length (List.filter isWarning t) = length (List.filter isFailedDeletion t).
Proof.
  intros Hv. cbv zeta. unfold result, effects.
  rewrite (POST_passing files p Hv).
  remember (exec (try_catch (store uploadFiles files) onError) p []) as out
    eqn:Hout.
  revert Hout.
  unfold exec, try_catch at 1, store, bind at 1, call at 1.
  cbn beta iota zeta.
  destruct (p string [] VectorStoresCreate) as [e|vs] eqn:Hcreate.
  { destruct (onError_run e p [] ([] ++ [Request VectorStoresCreate (inl e)]))
      as (st & m & -> & Hst).
    intros ->. cbn [fst snd app]. split; [|reflexivity].
    do 2 eexists. split; [reflexivity|]. cbn. repeat split; eauto. }
  unfold bind at 1, modify at 1. cbn beta iota zeta.
  unfold try_catch at 1, bind at 1.
  destruct (uploadFiles_run files p [] ([] ++ [Request VectorStoresCreate (inr vs)]))
    as (r & u & new & Hrun & Hup & Honly & Hr).
  destruct (uploadFiles_stops files p [] ([] ++ [Request VectorStoresCreate (inr vs)]))
    as (r' & u' & new' & Hrun' & Hr').
  rewrite Hrun in Hrun'. injection Hrun' as <- <- <-.
  rewrite Hrun. cbn [app] in *.
  destruct r as [e|[]].
  - (* an upload was rejected *)
    destruct Hr as [Hrej [m ->]]. clear Hr'.
    unfold bind at 1, get at 1. cbn beta iota zeta.
    unfold bind at 1.
    destruct (cleanupResources_run vs new p new
                (Request VectorStoresCreate (inr vs) :: u))
      as (c & -> & Hdel & Hconly & Hwarn).
    unfold throw at 1.
    destruct (onError_plain (JsError m) p new
                ((Request VectorStoresCreate (inr vs) :: u) ++ c) eq_refl)
      as (st & m' & -> & Hst).
    intros ->. cbn [fst snd]. rewrite <- ?app_assoc. cbn [app].
    split.
    + do 2 eexists. split; [reflexivity|]. observe.
      split; [reflexivity|]. split; [reflexivity|].
      exists m'. destruct Hst as [->| ->]; auto.
    + observe. reflexivity.
  - (* every file was uploaded *)
    destruct Hr as [Hrej Hlen]. destruct Hr' as [Hsent _].
    unfold attach. unfold bind at 1, get at 1. cbn beta iota zeta.
    unfold bind at 1, call at 1. cbn beta iota zeta.
    destruct (p Batch (Request VectorStoresCreate (inr vs) :: u)
                (FileBatchesCreateAndPoll vs new)) as [e|batch] eqn:Hbatch.
    + (* the batch call itself is rejected *)
      unfold bind at 1, get at 1. cbn beta iota zeta. unfold bind at 1.
      destruct (cleanupResources_run vs new p new
                  ((Request VectorStoresCreate (inr vs) :: u)
                     ++ [Request (FileBatchesCreateAndPoll vs new) (inl e)]))
        as (c & -> & Hdel & Hconly & Hwarn).
      unfold throw at 1.
      destruct (onError_run e p new
                  (((Request VectorStoresCreate (inr vs) :: u)
                      ++ [Request (FileBatchesCreateAndPoll vs new) (inl e)]) ++ c))
        as (st & m' & -> & Hst).
      intros ->. cbn [fst snd]. rewrite <- ?app_assoc. cbn [app].
      assert (Hsentc : sent c = []).
      { destruct Hconly as (_ & _ & _ & Hno & Hnone).
        exact (quiet_sends_nothing c Hno Hnone). }
      split.
      * do 2 eexists. split; [reflexivity|]. unfold sent in *. observe.
        repeat split; eauto; lia.
      * observe. reflexivity.
    + destruct (String.eqb (batch_status batch) "completed") eqn:Hdone.
      { unfold ret. intros ->. cbn [fst snd]. rewrite <- ?app_assoc. cbn [app].
        split.
        - do 2 eexists. split; [reflexivity|]. unfold sent in *. observe.
          rewrite Hdone. repeat split; auto; lia.
        - observe. reflexivity. }
      destruct (String.eqb (batch_status batch) "failed") eqn:Hfailed.
      { unfold bind at 1.
        destruct (cleanupResources_run vs new p new
                    ((Request VectorStoresCreate (inr vs) :: u)
                       ++ [Request (FileBatchesCreateAndPoll vs new) (inr batch)]))
          as (c & -> & Hdel & Hconly & Hwarn).
        unfold ret. intros ->. cbn [fst snd]. rewrite <- ?app_assoc. cbn [app].
        assert (Hsentc : sent c = []).
        { destruct Hconly as (_ & _ & _ & Hno & Hnone).
          exact (quiet_sends_nothing c Hno Hnone). }
        split.
        - do 2 eexists. split; [reflexivity|]. unfold sent in *. observe.
          rewrite Hdone, Hfailed. repeat split; auto; lia.
        - observe. reflexivity. }
      unfold ret. intros ->. cbn [fst snd]. rewrite <- ?app_assoc. cbn [app].
      split.
      * do 2 eexists. split; [reflexivity|]. unfold sent in *. observe.
        rewrite Hdone, Hfailed. repeat split; auto; lia.
      * observe. reflexivity.
Qed.

Lemma accepted_passes files : accepted files = true <-> ~ violates files.
Proof.
  unfold accepted, violates. rewrite !andb_true_iff, negb_true_iff.
  rewrite Nat.eqb_neq, Nat.leb_le, Z.leb_le, !forallb_forall. split.
  - intros ((((Hne & Hlen) & Hpdf) & Hsize) & Htotal)
           [->|[Hmany|[Hno|[Hbig|Hsum]]]].
    + now apply Hne.
    + lia.
    + apply Exists_exists in Hno. destruct Hno as (file & Hin & Hfile).
      apply list_elem_of_In in Hin. rewrite (Hpdf _ Hin) in Hfile. discriminate.
    + apply Exists_exists in Hbig. destruct Hbig as (file & Hin & Hfile).
      apply list_elem_of_In in Hin. specialize (Hsize _ Hin).
      apply Z.leb_le in Hsize. lia.
    + lia.
  - intros Hv. destruct (passing_batch files Hv) as (Hne & Hlen & Hval & Htotal).
    destruct (validateFiles_passes _ _ _ Hval) as [Hall _].
    rewrite Forall_forall in Hall.
    repeat split; try assumption.
    + destruct files; [congruence|discriminate].
    + intros file Hin. apply list_elem_of_In in Hin. now destruct (Hall _ Hin).
    + intros file Hin. apply list_elem_of_In in Hin. apply Z.leb_le.
      now destruct (Hall _ Hin).
Qed.

(** *** Where the runs start *)

Lemma attach_extends vs n (p : Provider) s t :
  exists r s' u, attach vs n p s t = (r, s', t ++ u).
Proof.
  unfold attach. unfold bind at 1, get at 1. cbn beta iota zeta.
  unfold bind at 1, call at 1. cbn beta iota zeta.
  destruct (p Batch t (FileBatchesCreateAndPoll vs s)) as [e|batch]; [eauto|].
  destruct (String.eqb (batch_status batch) "completed");
    [unfold ret; eauto|].
  destruct (String.eqb (batch_status batch) "failed");
    [|unfold ret; eauto].
  unfold bind at 1.
  match goal with |- context [cleanupResources ?vs ?ids ?p ?s ?t] =>
    destruct (cleanupResources_run vs ids p s t) as (c & -> & _) end.
  unfold ret. rewrite <- app_assoc. eauto.
Qed.

Lemma store_starts (upload : list File -> M (list string) unit)
    (handler : Thrown -> M (list string) (Response Body))
    files (p : Provider) s t :
  (forall s t, exists r s' u, upload files p s t = (r, s', t ++ u)) ->
  (forall e s t, exists r s' u, handler e p s t = (r, s', t ++ u)) ->
  exists r s' rest,
    try_catch (store upload files) handler p s t
    = (r, s', t ++ Request VectorStoresCreate (p string t VectorStoresCreate)
                :: rest).
Proof.
  intros Hupload Hhandler.
  unfold try_catch at 1, store, bind at 1, call at 1.
  cbn beta iota zeta.
  destruct (p string t VectorStoresCreate) as [e|vs].
  { destruct (Hhandler e s (t ++ [Request VectorStoresCreate (inl e)]))
      as (r & s' & u & ->).
    rewrite <- app_assoc. cbn [app]. eauto. }
  unfold bind at 1, modify at 1. cbn beta iota zeta.
  unfold try_catch at 1, bind at 1.
  destruct (Hupload [] (t ++ [Request VectorStoresCreate (inr vs)]))
    as (r & ids & u & ->).
  destruct r as [e|[]].
  - unfold bind at 1, get at 1. cbn beta iota zeta. unfold bind at 1.
    match goal with |- context [cleanupResources ?vs ?ids ?p ?s ?t] =>
      destruct (cleanupResources_run vs ids p s t) as (c & -> & _) end.
    unfold throw at 1.
    match goal with |- context [handler ?e ?p ?s ?t] =>
      destruct (Hhandler e s t) as (r & s' & u' & ->) end.
    rewrite <- !app_assoc. cbn [app]. eauto.
  - match goal with |- context [attach ?vs ?n ?p ?s ?t] =>
      destruct (attach_extends vs n p s t) as (r & s' & u' & ->) end.
    destruct r as [e|response].
    + unfold bind at 1, get at 1. cbn beta iota zeta. unfold bind at 1.
      match goal with |- context [cleanupResources ?vs ?ids ?p ?s ?t] =>
        destruct (cleanupResources_run vs ids p s t) as (c & -> & _) end.
      unfold throw at 1.
      match goal with |- context [handler ?e ?p ?s ?t] =>
        destruct (Hhandler e s t) as (r & s'' & u'' & ->) end.
      rewrite <- !app_assoc. cbn [app]. eauto.
    + rewrite <- !app_assoc. cbn [app]. eauto.
Qed.

Lemma uploadFiles_extends files (p : Provider) s t :
  exists r s' u, uploadFiles files p s t = (r, s', t ++ u).
Proof.
  destruct (uploadFiles_run files p s t) as (r & u & new & -> & _). eauto.
Qed.

Lemma onError_extends e (p : Provider) s t :
  exists r s' u, onError e p s t = (r, s', t ++ u).
Proof.
  destruct (onError_run e p s t) as (st & m & -> & _). eauto.
Qed.

Lemma unlimited_uploadFiles_extends files (p : Provider) : forall s t,
  exists r s' u, Unlimited.uploadFiles files p s t = (r, s', t ++ u).
Proof.
  induction files as [|file rest IH]; intros s t.
  - exists (inr tt), s, []. now rewrite app_nil_r.
  - cbn [Unlimited.uploadFiles]. unfold bind at 1, call at 1.
    cbn beta iota zeta.
    destruct (p string t (FilesCreate file)) as [e|fileId]; [eauto|].
    unfold bind at 1, modify at 1. cbn beta iota zeta.
    match goal with |- context [Unlimited.uploadFiles rest p ?s ?t] =>
      destruct (IH s t) as (r & s' & u & ->) end.
    rewrite <- app_assoc. eauto.
Qed.

Lemma unlimited_onError_extends e (p : Provider) s t :
  exists r s' u, Unlimited.onError e p s t = (r, s', t ++ u).
Proof.
  unfold Unlimited.onError, bind, log, ret. cbn beta iota zeta.
  destruct e; cbn; eauto.
Qed.

Lemma find_first {A} (f : A -> bool) (l : list A) x :
  find f l = Some x <->
  exists pre post, l = pre ++ x :: post /\ forallb (fun y => negb (f y)) pre = true
                   /\ f x = true.
Proof.
  induction l as [|y l IH]; cbn [find].
  - split; [discriminate|]. intros (pre & post & Heq & _).
    destruct pre; discriminate.
  - destruct (f y) eqn:Hy.
    + split.
      * intros [= <-]. exists [], l. auto.
      * intros (pre & post & Heq & Hpre & Hx).
        destruct pre as [|z pre]; cbn in Heq; injection Heq as <- ->;
          [reflexivity|].
        cbn in Hpre. rewrite Hy in Hpre. discriminate.
    + rewrite IH. split.
      * intros (pre & post & -> & Hpre & Hx).
        exists (y :: pre), post. cbn. rewrite Hy. auto.
      * intros (pre & post & Heq & Hpre & Hx).
        destruct pre as [|z pre]; cbn in Heq; injection Heq as <- ->;
          [congruence|].
        cbn in Hpre. rewrite Hy in Hpre. eauto.
Qed.

Lemma forallb_negb_negb {A} (g : A -> bool) (l : list A) :
  forallb (fun y => negb (negb (g y))) l = forallb g l.
Proof.
  induction l as [|y l IH]; cbn; [reflexivity|].
  now rewrite negb_involutive, IH.
Qed.

(** *** The version without limits *)

Lemma unlimited_starts files (p : Provider) :
  files <> [] ->
  find (fun file => negb (isPdf file)) files = None ->
  exists rest,
    effects (Unlimited.POST (inr files)) p []
    = Request VectorStoresCreate (p string [] VectorStoresCreate) :: rest.
Proof.
  intros Hne Hfind.
  unfold effects, exec, Unlimited.POST, try_catch at 1, bind at 1, lift.
  cbn beta iota zeta.
  destruct (Nat.eqb_spec (length files) 0) as [Hzero|_];
    [destruct files; [congruence|discriminate]|].
  rewrite Hfind.
  destruct (store_starts Unlimited.uploadFiles Unlimited.onError files p [] []
              (unlimited_uploadFiles_extends files p)
              (fun e => unlimited_onError_extends e p))
    as (r & s' & rest & Hrun).
  unfold try_catch at 1 in Hrun. cbn [app] in Hrun.
  destruct (store Unlimited.uploadFiles files p [] []) as [[[e|a] ids] t'].
  - rewrite Hrun. eauto.
  - injection Hrun as _ _ ->. eauto.
Qed.

Lemma unlimited_rejects_first files (p : Provider) pre file post :
  files = pre ++ file :: post -> forallb isPdf pre = true ->
  isPdf file = false ->
  exec (Unlimited.POST (inr files)) p [] = (inr (notPdf file), [], []).
Proof.
  intros Heq Hpre Hfile.
  unfold exec, Unlimited.POST, try_catch at 1, bind at 1, lift.
  cbn beta iota zeta.
  destruct (Nat.eqb_spec (length files) 0) as [Hzero|_].
  { subst files. rewrite length_app in Hzero. cbn in Hzero. lia. }
  assert (Hfind : find (fun file => negb (isPdf file)) files = Some file).
  { apply find_first. exists pre, post. split; [assumption|].
    split; [|now rewrite Hfile].
    now rewrite forallb_negb_negb. }
  rewrite Hfind. reflexivity.
Qed.

(** C5, as stated, fails of the earlier version of the route (lines
    12-152), which the claim cites beside the one with the limits: it has
    no check of the count or of the sizes. Eleven small PDFs break the
    limit of ten files; that route creates the store, uploads the eleven
    files, attaches them, and answers with status 200. *)
Lemma eleven_pdfs_pass_the_route_without_limits :
  violates Examples.elevenPdfs /\
  result (Unlimited.POST (inr Examples.elevenPdfs))
         (Examples.answering_with "" "completed" (inr tt)) []
  = inr (ok (Uploaded "vs_1"
               "Successfully uploaded 11 PDF files to vector store."
               11 "vsfb_1")) /\
  length (requests (Unlimited.POST (inr Examples.elevenPdfs))
            (Examples.answering_with "" "completed" (inr tt)) [])
  = 13.
Proof.
  split; [right; left; cbn; lia|].
  split; vm_compute; reflexivity.
Qed.

(** C5, amended. The route with the limits (lines 188-263) answers every
    batch that violates a constraint (no file, more than ten files, a name
    without the [.pdf] extension, a file above the per-file limit, a total
    above the aggregate limit) with status 400 and a message, and does
    nothing else: no call of the provider, nothing on the console. The
    earlier version (lines 12-44) does so when the batch is empty or holds
    a name without the extension, and only then: any other batch, however
    many files it has and whatever their sizes, makes it create the
    store. *)
Theorem violating_batch_is_rejected_where_it_is_checked
    (files : list File) (p : Provider) :
  violates files ->
  (exists message,
     exec (POST (inr files)) p []
     = (inr (respond 400 (Message message)), [], [])) /\
  (files = [] \/ Exists (fun file => isPdf file = false) files ->
   exists message,
     exec (Unlimited.POST (inr files)) p []
     = (inr (respond 400 (Message message)), [], [])) /\
  (files <> [] -> Forall (fun file => isPdf file = true) files ->
   exists rest,
     effects (Unlimited.POST (inr files)) p []
     = Request VectorStoresCreate (p string [] VectorStoresCreate) :: rest).
Proof.
  intros Hv. split; [exact (POST_rejects_locally files p Hv)|]. split.
  - intros [->|Hex]; [eexists; reflexivity|].
    destruct (find (fun file => negb (isPdf file)) files) as [file|] eqn:Hfind.
    + apply find_first in Hfind as (pre & post & Heq & Hpre & Hfile).
      rewrite forallb_negb_negb in Hpre. apply negb_true_iff in Hfile.
      rewrite (unlimited_rejects_first files p pre file post Heq Hpre Hfile).
      unfold notPdf. eauto.
    + exfalso. apply Exists_exists in Hex as (file & Hin & Hfile).
      apply list_elem_of_In in Hin.
      apply (find_none _ _ Hfind) in Hin. rewrite Hfile in Hin. discriminate.
  - intros Hne Hall. apply unlimited_starts; [assumption|].
    destruct (find _ files) as [file|] eqn:Hfind; [|reflexivity].
    apply find_some in Hfind as [Hin Hfile].
    rewrite Forall_forall in Hall. apply list_elem_of_In in Hin.
    rewrite (Hall _ Hin) in Hfile. discriminate.
Qed.

Lemma violating_batch_is_rejected_where_it_is_checked_witness :
  (exists message,
     exec (POST (inr Examples.elevenPdfs))
          (Examples.answering_with "" "completed" (inr tt)) []
     = (inr (respond 400 (Message message)), [], [])) /\
  (Examples.elevenPdfs = []
   \/ Exists (fun file => isPdf file = false) Examples.elevenPdfs ->
   exists message,
     exec (Unlimited.POST (inr Examples.elevenPdfs))
          (Examples.answering_with "" "completed" (inr tt)) []
     = (inr (respond 400 (Message message)), [], [])) /\
  (Examples.elevenPdfs <> [] ->
   Forall (fun file => isPdf file = true) Examples.elevenPdfs ->
   exists rest,
     effects (Unlimited.POST (inr Examples.elevenPdfs))
             (Examples.answering_with "" "completed" (inr tt)) []
     = Request VectorStoresCreate
         (Examples.answering_with "" "completed" (inr tt)
            string [] VectorStoresCreate)
       :: rest).
Proof.
  apply (violating_batch_is_rejected_where_it_is_checked Examples.elevenPdfs).
  right; left. simpl. lia.
Defined.

(** C6, as stated, fails: the handle is returned with a success status
    also when the attach operation has not completed. The provider leaves
    the batch in progress; the route answers with status 200 and a body
    that carries the handle, and deletes nothing. *)
Lemma handle_is_returned_while_the_batch_is_in_progress :
  let run :=
    exec (POST (inr Examples.twoPdfs))
         (Examples.answering_with "" "in_progress" (inr tt)) [] in
  run.1.1
  = inr {| status := 200;
           body := InProgress
                     "File upload is still in progress. Status: in_progress"
                     "vs_1" "vsfb_1" |} /\
  polled run.2 = Some {| batch_id := "vsfb_1"; batch_status := "in_progress" |} /\
  deletions run.2 = [].
Proof.
  cbv zeta. repeat split; vm_compute; reflexivity.
Qed.

(** C6, amended. For a batch that passes validation the route first
    creates the store. If that call is rejected nothing else is sent. With
    the store created it uploads the files in order and stops at the first
    rejected upload; if none is rejected it attaches all the uploaded
    identifiers to the store in one call, and then:
    - the success body, with the handle, the number of files and the
      batch, is the answer exactly when the batch ends as "completed", with
      status 200 and nothing deleted;
    - when the batch ends as "failed" the answer is status 500 with the
      batch, and when the upload of a file was rejected it is an error with
      status 500 or 400; in both cases, and when the attach call itself is
      rejected, the route has asked before for the deletion of every
      uploaded file, in order, and then of the store;
    - any other status of the batch gives the "still in progress" body
      with the handle and no deletion: that answer has status 200 as well,
      and differs from success by its body only;
    - every rejected deletion is logged by one warning, and none is raised.
    Where a call of the provider other than an upload is rejected, the
    outcome is what [new Response] makes of the status that the outer
    [catch] computed. *)
Theorem passing_batch_is_answered_by_the_state_of_the_attach
    (files : list File) (p : Provider) :
  ~ violates files ->
  let t := effects (POST (inr files)) p [] in
  let r := result (POST (inr files)) p [] in
  (exists reply rest,
     t = Request VectorStoresCreate reply :: rest /\
     match reply with
     | inl e =>
         sent t = [] /\ attached t = [] /\ deletions t = [] /\
         exists st m,
           r = newResponse st (Failure m) /\
           (st = Some 500%Z \/ st = Some 400%Z \/ statusOf e = Some st)
     | inr vs =>
         if existsb isUploadRejected t then
           attached t = [] /\
           deletions t = (DeletedFile <$> uploaded t) ++ [DeletedStore vs] /\
           exists m, r = inr (respond 500 (Failure m))
                     \/ r = inr (respond 400 (Failure m))
         else
           sent t = files /\ length (uploaded t) = length files /\
           attached t = [(vs, uploaded t)] /\
           match polled t with
           | Some batch =>
               if String.eqb (batch_status batch) "completed" then
                 r = inr (ok (Uploaded vs
                          ("Successfully uploaded " +:+ pretty (length files)
                           +:+ " PDF files to vector store.")
                          (length files) (batch_id batch))) /\
                 deletions t = []
               else if String.eqb (batch_status batch) "failed" then
                 r = inr (respond 500
                        (BatchFailed
                           "File upload batch failed. Please try again with different files."
                           batch)) /\
                 deletions t = (DeletedFile <$> uploaded t) ++ [DeletedStore vs]
               else
                 r = inr (ok (InProgress
                          ("File upload is still in progress. Status: "
                           +:+ batch_status batch)
                          vs (batch_id batch))) /\
                 deletions t = []
           | None =>
               deletions t = (DeletedFile <$> uploaded t) ++ [DeletedStore vs] /\
               exists st m, r = newResponse st (Failure m)
           end
     end) /\
  length (List.filter isWarning t) = length (List.filter isFailedDeletion t).
Proof.
  exact (upload_run files p).
Qed.

Lemma passing_batch_is_answered_by_the_state_of_the_attach_witness :
  result (POST (inr Examples.twoPdfs))
         (Examples.answering_with "" "failed" (inl Examples.unavailable)) []
  = inr (respond 500
           (BatchFailed
              "File upload batch failed. Please try again with different files."
              {| batch_id := "vsfb_1"; batch_status := "failed" |})) /\
  attached (effects (POST (inr Examples.twoPdfs))
              (Examples.answering_with "" "failed" (inl Examples.unavailable)) [])
  = [("vs_1", ["file-chapter1.pdf"; "file-chapter2.pdf"])] /\
  deletions (effects (POST (inr Examples.twoPdfs))
               (Examples.answering_with "" "failed" (inl Examples.unavailable)) [])
  = [DeletedFile "file-chapter1.pdf"; DeletedFile "file-chapter2.pdf";
     DeletedStore "vs_1"] /\
  length (List.filter isWarning
            (effects (POST (inr Examples.twoPdfs))
               (Examples.answering_with "" "failed" (inl Examples.unavailable)) []))
  = 3.
Proof.
  destruct (passing_batch_is_answered_by_the_state_of_the_attach
              Examples.twoPdfs
              (Examples.answering_with "" "failed" (inl Examples.unavailable)))
    as [(reply & rest & Ht & Hcase) Hwarn].
  - apply accepted_passes. reflexivity.
  - clear Ht. destruct reply as [e|vs]; vm_compute in Hcase.
    + destruct Hcase as (Hsent & _). discriminate Hsent.
    + destruct Hcase as (_ & _ & Hatt & Hres & Hdel).
      injection Hatt as <-.
      split; [exact Hres|]. split; [reflexivity|]. split; [exact Hdel|].
      rewrite Hwarn. vm_compute. reflexivity.
Defined.

End UploadFacts.


(** ** Further properties of the quiz session *)

Module SessionFacts.
Import Page.

(** *** The order of the options *)

Lemma swap_Permutation {A} (i j : nat) (a : list A) : swap i j a ≡ₚ a.
Proof.
  unfold swap.
  destruct (a !! i) as [x|] eqn:Hi; [|reflexivity].
  destruct (a !! j) as [y|] eqn:Hj; [|reflexivity].
  now apply Permutation_insert_swap.
Qed.

Lemma shuffleFrom_Permutation {A} (draw : nat -> nat) (i : nat) :
  forall a : list A, shuffleFrom draw i a ≡ₚ a.
Proof.
  induction i as [|i IH]; intros a; simpl; [reflexivity|].
  rewrite IH. apply swap_Permutation.
Qed.

(** Every swap of the shuffle exchanges two elements of the array: with
    draws in range, the indices [i] and [draw i] are both inside it. *)
Lemma swap_in_range {A} (i j : nat) (a : list A) x y :
  a !! i = Some x -> a !! j = Some y ->
  swap i j a !! i = Some y /\ swap i j a !! j = Some x /\
  forall k, k <> i -> k <> j -> swap i j a !! k = a !! k.
Proof.
  intros Hi Hj. unfold swap. rewrite Hi, Hj.
  assert (Hli : i < length a) by (eapply lookup_lt_Some; eauto).
  assert (Hlj : j < length a) by (eapply lookup_lt_Some; eauto).
  repeat split.
  - destruct (decide (i = j)) as [->|Hne].
    + rewrite list_lookup_insert_eq by (rewrite length_insert; lia). congruence.
    + rewrite list_lookup_insert_ne by congruence.
      now rewrite list_lookup_insert_eq.
  - rewrite list_lookup_insert_eq by (rewrite length_insert; lia). reflexivity.
  - intros k Hki Hkj.
    rewrite list_lookup_insert_ne by congruence.
    now rewrite list_lookup_insert_ne by congruence.
Qed.

(** X1. Whatever the random draws (each in its range), the shuffled array
    is a permutation of the given one; so the options shown for the current
    question are exactly its options, each once, and as many of them are
    correct; without a current question nothing is shown. *)
Theorem shuffledOptions_is_a_permutation (draw : nat -> nat) (s : State) :
  (forall i, draw i <= i) ->
  (forall A (array : list A), shuffleArray draw array ≡ₚ array) /\
  (forall q, questions s !! currentQuestionIndex s = Some q ->
     shuffledOptions draw s ≡ₚ options q /\
     length (shuffledOptions draw s) = length (options q) /\
     (forall o, o ∈ shuffledOptions draw s <-> o ∈ options q) /\
     length (filter (fun o => correct o = true) (shuffledOptions draw s))
     = length (filter (fun o => correct o = true) (options q))) /\
  (questions s !! currentQuestionIndex s = None -> shuffledOptions draw s = []).
Proof.
  intros _.
  assert (Hperm : forall A (array : list A), shuffleArray draw array ≡ₚ array)
    by (intros; apply shuffleFrom_Permutation).
  split; [exact Hperm|]. split.
  - intros q Hq.
    assert (Hlt : currentQuestionIndex s < length (questions s))
      by (eapply lookup_lt_Some; eauto).
    assert (Hshown : shuffledOptions draw s = shuffleArray draw (options q)).
    { unfold shuffledOptions. rewrite Hq.
      destruct (Nat.eqb_spec (length (questions s)) 0); [lia|].
      destruct (Nat.leb_spec (length (questions s)) (currentQuestionIndex s));
        [lia|reflexivity]. }
    rewrite Hshown. repeat split.
    + apply Hperm.
    + now rewrite Hperm.
    + now rewrite Hperm.
    + now rewrite Hperm.
    + now rewrite Hperm.
  - intros Hnone. unfold shuffledOptions. rewrite Hnone.
    now destruct (_ || _).
Qed.

Lemma shuffledOptions_is_a_permutation_witness :
  shuffledOptions (fun i => i - 1) Examples.asking
    ≡ₚ options Examples.capital.
Proof.
  destruct (shuffledOptions_is_a_permutation (fun i => i - 1) Examples.asking)
    as (_ & Hshown & _).
  - intros i. lia.
  - exact (proj1 (Hshown Examples.capital eq_refl)).
Defined.

(** *** Moving through the questions *)

(** The index points into the list whenever there is one. *)
Lemma step_index_valid ev s :
  (questions s = [] \/ currentQuestionIndex s < length (questions s)) ->
  questions (step ev s) = [] \/
  currentQuestionIndex (step ev s) < length (questions (step ev s)).
Proof.
  intros H.
  destruct ev as [o| | | |data app| |r|v|c|c r]; simpl.
  - unfold handleOptionSelect.
    destruct (isAnswered s); [exact H|]. destruct (correct o); exact H.
  - unfold handleNextQuestion.
    destruct (Z.ltb_spec (Z.of_nat (currentQuestionIndex s))
                         (Z.of_nat (length (questions s)) - 1));
      simpl; [right; lia|exact H].
  - now left.
  - now left.
  - unfold handleProcessQuizData.
    destruct data as [[[[|q qs]|]]|]; destruct app; simpl;
      rewrite ?length_app; simpl; try exact H; try (now left); right; lia.
  - unfold uploadFilesToVectorStore_begin.
    destruct (selectedFiles s); exact H.
  - unfold uploadFilesToVectorStore_end. destruct r; exact H.
  - exact H.
  - unfold fetchQuizFromVectorStore_begin. destruct c; simpl; [exact H|now left].
  - unfold fetchQuizFromVectorStore_end, handleProcessQuizData.
    destruct r as [m|st txt b|[[[[|q qs]|]]|]]; destruct c; simpl;
      rewrite ?length_app; simpl; try exact H; try (now left); right; lia.
Qed.

(** X2. In every state that the handlers can produce from the initial one,
    in whatever order requests and responses interleave, the current index
    points at a question as soon as there are questions; so the question
    view, which reads [questions[currentQuestionIndex]], always finds
    one. *)
Theorem current_question_exists (s : State) :
  reachable s ->
  (questions s = [] \/ currentQuestionIndex s < length (questions s)) /\
  (answering s = true -> is_Some (questions s !! currentQuestionIndex s)).
Proof.
  intros Hs.
  assert (H : questions s = [] \/ currentQuestionIndex s < length (questions s)).
  { induction Hs as [|ev s _ IH]; [now left|]. now apply step_index_valid. }
  split; [exact H|].
  unfold answering. intros Ha. apply lookup_lt_is_Some.
  destruct H as [Hnil|Hlt]; [|exact Hlt].
  rewrite Hnil in Ha. simpl in Ha. rewrite andb_false_r in Ha. discriminate.
Qed.

Lemma current_question_exists_witness :
  is_Some
    (questions
       (step (ProcessQuizData (Some {| quiz := Some [Examples.capital] |}) false)
             initial)
     !! currentQuestionIndex
          (step (ProcessQuizData (Some {| quiz := Some [Examples.capital] |}) false)
                initial)).
Proof.
  apply current_question_exists.
  - apply reachable_step, reachable_initial.
  - reflexivity.
Defined.

(** *** What a generation request carries and brings back *)

(** X3. The exclusion list of a continuation is the list of the texts of
    all questions accumulated so far, in order, and it is empty for any
    other request; after a continuation that brought new questions, the
    next continuation excludes the old texts followed by the new ones. *)
Theorem exclusion_list_accumulates
    (s : State) (q : QuizQuestion) (more : list QuizQuestion) :
  existingQuestions true s = question <$> questions s /\
  existingQuestions false s = [] /\
  existingQuestions true
    (fetchQuizFromVectorStore true (Ok (Some {| quiz := Some (q :: more) |})) s)
  = existingQuestions true s ++ (question <$> q :: more).
Proof.
  assert (H : forall s', existingQuestions true s' = question <$> questions s').
  { intros s'. unfold existingQuestions. simpl.
    destruct (questions s'); reflexivity. }
  split; [apply H|]. split; [reflexivity|].
  rewrite !H. unfold fetchQuizFromVectorStore. simpl.
  now rewrite fmap_app.
Qed.

(** X4. A response to a request that is not a continuation shows the
    question view exactly when it carries at least one question; otherwise
    the session has no questions, is not started, and the error message is
    set. *)
Theorem fresh_data_starts_the_quiz_iff_it_has_questions
    (data : option QuizData) (s : State) :
  let s' := handleProcessQuizData data false s in
  (answering s' = true <->
     exists q qs, data = Some {| quiz := Some (q :: qs) |}) /\
  (forall q qs, data = Some {| quiz := Some (q :: qs) |} ->
     questions s' = q :: qs /\ currentQuestionIndex s' = 0 /\
     error s' = None /\ score s' = score s) /\
  (answering s' = false ->
     questions s' = [] /\ quizStarted s' = false /\
     error s' = Some noQuestions).
Proof.
  cbv zeta. unfold handleProcessQuizData, answering.
  destruct data as [[[[|q qs]|]]|]; simpl; rewrite ?andb_false_r;
    (split; [split; [try discriminate; eauto | try reflexivity;
                                               intros (? & ? & [=])]
            |split; [intros ? ? [=]; subst; auto
                    |intros; try discriminate; auto]]).
Qed.

(** X5. After "upload new files" the session has no questions, no score
    and no store handle, whatever it was before; "more questions" and
    "restart" then do nothing, and "start quiz" only reports that no file
    is selected: no request can be sent before files are staged again. *)
Theorem upload_new_files_disarms_the_session
    (s : State) (up : Fetched (option string)) (r : Fetched (option QuizData)) :
  let s' := handleUploadNewFiles s in
  questions s' = [] /\ score s' = 0 /\ currentQuestionIndex s' = 0 /\
  selectedOption s' = None /\ isAnswered s' = false /\
  vectorStoreId s' = None /\ selectedFiles s' = [] /\ error s' = None /\
  answering s' = false /\
  handleFetchAndContinueQuiz r s' = s' /\
  handleRestartQuizFromFiles r s' = s' /\
  handleStartQuiz up r s'
    = setError (Some "Please select at least one PDF file first.") s' /\
  handleUploadNewFiles s' = s'.
Proof.
  destruct s. vm_compute. repeat split.
Qed.

Lemma upload_keeps_the_quiz (up : Fetched (option string)) (s : State) :
  questions (uploadFilesToVectorStore up s).1 = questions s /\
  score (uploadFilesToVectorStore up s).1 = score s /\
  quizStarted (uploadFilesToVectorStore up s).1 = quizStarted s /\
  vectorStoreId (uploadFilesToVectorStore up s).1 = vectorStoreId s.
Proof.
  unfold uploadFilesToVectorStore, uploadFilesToVectorStore_begin.
  destruct (selectedFiles s); [repeat split|].
  destruct up; repeat split.
Qed.

(** X6. "Start quiz": with no staged file it only sets an error. When the
    store handle is set and every staged file is uploaded, it sends the
    generation request directly, whatever an upload would have answered.
    Otherwise it uploads first: if the upload fails or returns no handle it
    stops there, and the questions, score and started flag are as before;
    if it returns a handle, that handle is stored and the generation
    request follows. *)
Theorem handleStartQuiz_uploads_then_generates
    (up : Fetched (option string)) (r : Fetched (option QuizData)) (s : State) :
  (selectedFiles s = [] ->
     handleStartQuiz up r s
     = setError (Some "Please select at least one PDF file first.") s) /\
  (selectedFiles s <> [] ->
   falsyId (vectorStoreId s) = false ->
   existsb notUploaded (selectedFiles s) = false ->
     handleStartQuiz up r s = fetchQuizFromVectorStore false r s) /\
  (selectedFiles s <> [] ->
   falsyId (vectorStoreId s) || existsb notUploaded (selectedFiles s) = true ->
   falsyId (uploadFilesToVectorStore up s).2 = true ->
     handleStartQuiz up r s = (uploadFilesToVectorStore up s).1 /\
     questions (handleStartQuiz up r s) = questions s /\
     score (handleStartQuiz up r s) = score s /\
     quizStarted (handleStartQuiz up r s) = quizStarted s /\
     vectorStoreId (handleStartQuiz up r s) = vectorStoreId s) /\
  (forall handle,
   selectedFiles s <> [] ->
   falsyId (vectorStoreId s) || existsb notUploaded (selectedFiles s) = true ->
   up = Ok (Some handle) -> JS.truthy handle = true ->
     handleStartQuiz up r s
     = fetchQuizFromVectorStore false r
         (setVectorStoreId (Some handle) (uploadFilesToVectorStore up s).1) /\
     Forall (fun f => status f = uploaded)
            (selectedFiles (uploadFilesToVectorStore up s).1)).
Proof.
  unfold handleStartQuiz. split; [|split; [|split]].
  - intros ->. reflexivity.
  - intros Hne Hid Hup. destruct (selectedFiles s); [congruence|].
    now rewrite Hid, Hup.
  - intros Hne Hcond Hfalsy.
    destruct (upload_keeps_the_quiz up s) as (Hq & Hsc & Hst & Hvs).
    destruct (selectedFiles s) eqn:Hf; [congruence|]. rewrite Hcond.
    destruct (uploadFilesToVectorStore up s) as [s1 v]. simpl in *.
    rewrite Hfalsy. auto.
  - intros handle Hne Hcond -> Hhandle.
    destruct (selectedFiles s) as [|f files] eqn:Hf; [congruence|].
    rewrite Hcond.
    unfold uploadFilesToVectorStore, uploadFilesToVectorStore_begin.
    rewrite Hf. cbn [uploadFilesToVectorStore_end fst snd falsyId].
    rewrite Hhandle. split; [reflexivity|].
    cbn. constructor; [reflexivity|].
    apply Forall_fmap, Forall_fmap, Forall_true. reflexivity.
Qed.

(** *** Staging and removing files *)

Lemma newFilesFrom_spec draw files : forall i,
  name <$> newFilesFrom draw i files
  = fileName <$> List.filter
                   (fun f => String.eqb (type f) "application/pdf") files
  /\ Forall (fun f => status f = pending /\ ferror f = None)
            (newFilesFrom draw i files).
Proof.
  induction files as [|file rest IH]; intros i; cbn [newFilesFrom List.filter].
  - split; [reflexivity|constructor].
  - destruct (IH (S i)) as [Hnames Hall].
    destruct (String.eqb (type file) "application/pdf"); cbn [app fmap list_fmap].
    + split; [now f_equal|]. constructor; auto.
    + auto.
Qed.

(** X7. Choosing files stages exactly those whose type is
    [application/pdf], in order, as pending entries behind the ones
    already staged, and clears the error; with none of that type it only
    sets an error. It touches neither the store handle nor the quiz, and
    once a file has been staged "start quiz" uploads again, also when a
    store handle is present. *)
Theorem staged_files_are_the_pdfs_and_force_an_upload
    (files : list PickedFile) (draw : nat -> string) (s : State) :
  let s' := handleFileChange (Some files) draw s in
  let pdfs :=
    List.filter (fun f => String.eqb (type f) "application/pdf") files in
  handleFileChange None draw s = s /\
  (pdfs = [] ->
     s' = setError (Some "Please select at least one valid PDF file.") s) /\
  (pdfs <> [] ->
     (exists newFiles,
        selectedFiles s' = selectedFiles s ++ newFiles /\
        name <$> newFiles = fileName <$> pdfs /\
        Forall (fun f => status f = pending /\ ferror f = None) newFiles) /\
     error s' = None /\ vectorStoreId s' = vectorStoreId s /\
     questions s' = questions s /\ score s' = score s /\
     quizStarted s' = quizStarted s /\
     forall up r,
       handleStartQuiz up r s'
       = let '(s1, v) := uploadFilesToVectorStore up s' in
         if falsyId v then s1
         else s1 |> setVectorStoreId v |> fetchQuizFromVectorStore false r).
Proof.
  cbv zeta. unfold handleFileChange.
  destruct (newFilesFrom_spec draw files 0) as [Hnames Hall].
  split; [reflexivity|]. split.
  - intros Hnone. rewrite Hnone in Hnames.
    destruct (newFilesFrom draw 0 files); [reflexivity|discriminate].
  - intros Hsome.
    destruct (newFilesFrom draw 0 files) as [|f new] eqn:Hnew.
    { destruct (List.filter _ files); [congruence|discriminate]. }
    split; [exists (f :: new); auto|].
    repeat (split; [reflexivity|]).
    intros up r. unfold handleStartQuiz.
    cbn [selectedFiles setError setSelectedFiles].
    assert (Hpending : existsb notUploaded (selectedFiles s ++ f :: new) = true).
    { rewrite existsb_app. cbn [existsb].
      apply Forall_cons in Hall as [[Hf _] _].
      unfold notUploaded at 2. rewrite Hf. cbn. apply orb_true_r. }
    rewrite Hpending, orb_true_r.
    destruct (selectedFiles s ++ f :: new) eqn:Happ; [|reflexivity].
    destruct (selectedFiles s); discriminate.
Qed.

(** X8. Removing a staged file drops every entry with that identifier
    and keeps the others in order, and a second removal changes nothing.
    The store handle stays: when the files were uploaded and another file
    remains, "start quiz" sends the generation request for the old store
    without a new upload; when no file remains it only sets an error. *)
Theorem removeFile_keeps_the_store_handle (fileId : string) (s : State) :
  let s' := removeFile fileId s in
  (forall f, f ∈ selectedFiles s' <-> f ∈ selectedFiles s /\ id f <> fileId) /\
  (Forall (fun f => id f <> fileId) (selectedFiles s) -> s' = s) /\
  removeFile fileId s' = s' /\
  vectorStoreId s' = vectorStoreId s /\ questions s' = questions s /\
  (forall up r,
     selectedFiles s' <> [] -> falsyId (vectorStoreId s) = false ->
     existsb notUploaded (selectedFiles s) = false ->
     handleStartQuiz up r s' = fetchQuizFromVectorStore false r s') /\
  (forall up r,
     selectedFiles s' = [] ->
     handleStartQuiz up r s'
     = setError (Some "Please select at least one PDF file first.") s').
Proof.
  cbv zeta.
  assert (Hfix : forall l : list UploadedFile,
    Forall (fun f => id f <> fileId) l ->
    List.filter (fun file => negb (String.eqb (id file) fileId)) l = l).
  { induction 1 as [|f l Hf _ IH]; cbn [List.filter]; [reflexivity|].
    apply String.eqb_neq in Hf. rewrite Hf. cbn [negb]. now rewrite IH. }
  assert (Hout : forall l : list UploadedFile,
    Forall (fun f => id f <> fileId)
      (List.filter (fun file => negb (String.eqb (id file) fileId)) l)).
  { intros l. apply Forall_forall. intros f Hin.
    apply list_elem_of_In, filter_In in Hin as [_ Hf].
    apply negb_true_iff, String.eqb_neq in Hf. exact Hf. }
  unfold removeFile. destruct s as [files vs qs i o a sc l u e st fin].
  cbn [selectedFiles setSelectedFiles vectorStoreId questions].
  split; [|split; [|split; [|split; [|split; [|split]]]]].
  - intros f. rewrite !list_elem_of_In, filter_In, negb_true_iff.
    now rewrite String.eqb_neq.
  - intros Hall. now rewrite (Hfix _ Hall).
  - now rewrite (Hfix _ (Hout files)).
  - reflexivity.
  - reflexivity.
  - intros up r Hne Hid Hup. unfold handleStartQuiz.
    cbn [selectedFiles setSelectedFiles vectorStoreId] in *.
    assert (Hup' : existsb notUploaded
              (List.filter (fun file => negb (String.eqb (id file) fileId)) files)
            = false).
    { clear - Hup. induction files as [|f files IH]; [reflexivity|].
      cbn [existsb] in Hup. apply orb_false_iff in Hup as [Hf Hrest].
      cbn [List.filter]. destruct (negb _); cbn [existsb]; rewrite ?Hf; auto. }
    rewrite Hid, Hup'. cbn [orb].
    destruct (List.filter _ files); [congruence|reflexivity].
  - intros up r Hnone. unfold handleStartQuiz.
    cbn [selectedFiles setSelectedFiles] in *. now rewrite Hnone.
Qed.

End SessionFacts.


(** ** Further properties of the question generation gateway *)

Module GenerationFacts.
Import JS Remote Chat ResponseFacts ChatFacts.

(** *** Extracting the object from the answer *)

Lemma fromFirstOpen_skips pre rest :
  occurs "{" pre = false ->
  fromFirstOpen (pre +:+ String "{" rest) = Some (String "{" rest).
Proof.
  induction pre as [|c pre IH]; simpl; [reflexivity|].
  intros [Hc Hpre]%orb_false_iff. rewrite Hc. auto.
Qed.

Lemma fromFirstOpen_Some text m :
  fromFirstOpen text = Some m ->
  exists pre rest,
    text = pre +:+ m /\ m = String "{" rest /\ occurs "{" pre = false.
Proof.
  induction text as [|c text IH]; simpl; [discriminate|].
  destruct (Ascii.eqb_spec c "{") as [->|Hc].
  - intros [= <-]. exists "", text. auto.
  - intros Hm. destruct (IH Hm) as (pre & rest & -> & -> & Hpre).
    exists (String c pre), rest. simpl.
    rewrite Hpre. apply Ascii.eqb_neq in Hc. rewrite Hc. auto.
Qed.

Lemma toLastClose_None post :
  occurs "}" post = false -> toLastClose post = None.
Proof.
  induction post as [|c post IH]; simpl; [reflexivity|].
  intros [Hc Hpost]%orb_false_iff. now rewrite (IH Hpost), Hc.
Qed.

Lemma toLastClose_keeps body post :
  occurs "}" post = false ->
  toLastClose (body +:+ String "}" post) = Some (body +:+ "}").
Proof.
  intros Hpost. induction body as [|c body IH]; simpl.
  - now rewrite (toLastClose_None _ Hpost).
  - now rewrite IH.
Qed.

Lemma toLastClose_Some s m :
  toLastClose s = Some m ->
  exists body post,
    s = m +:+ post /\ m = body +:+ "}" /\ occurs "}" post = false.
Proof.
  revert m. induction s as [|c s IH]; intros m; simpl; [discriminate|].
  destruct (toLastClose s) as [t|] eqn:Ht.
  - intros [= <-]. destruct (IH t eq_refl) as (body & post & -> & -> & Hpost).
    exists (String c body), post. auto.
  - destruct (Ascii.eqb_spec c "}") as [->|Hc]; [|discriminate].
    intros [= <-]. exists "", s. repeat split.
    clear IH. induction s as [|c s IH]; simpl in *; [reflexivity|].
    destruct (toLastClose s); [discriminate|].
    destruct (Ascii.eqb c "}"); [discriminate|]. simpl. auto.
Qed.

Lemma append_assoc (a b c : string) : (a +:+ b) +:+ c = a +:+ (b +:+ c).
Proof.
  induction a as [|x a IH]; [reflexivity|].
  change (String x ((a +:+ b) +:+ c) = String x (a +:+ b +:+ c)).
  now rewrite IH.
Qed.

(** X9. The match of [/\{[\s\S]*\}/] on the answer of the assistant is the
    part from the first opening brace to the last closing brace: an answer
    [pre{body}post] with no opening brace in [pre] and no closing brace in
    [post] gives [{body}], and every match arises so. In particular an
    answer that is an object text with prose around it is parsed without
    the prose. *)
Theorem jsonMatch_first_open_to_last_close (text m : string) :
  jsonMatch text = Some m <->
  exists pre body post,
    text = pre +:+ "{" +:+ body +:+ "}" +:+ post /\
    m = "{" +:+ body +:+ "}" /\
    occurs "{" pre = false /\ occurs "}" post = false.
Proof.
  unfold jsonMatch. split.
  - destruct (fromFirstOpen text) as [s|] eqn:Hs; simpl; [|discriminate].
    intros Hm.
    destruct (fromFirstOpen_Some _ _ Hs) as (pre & rest & -> & -> & Hpre).
    destruct (toLastClose_Some _ _ Hm) as (body & post & Hrest & -> & Hpost).
    destruct body as [|c body].
    { simpl in Hrest. injection Hrest as Hc _. discriminate Hc. }
    simpl in Hrest. injection Hrest as <- ->.
    exists pre, body, post. simpl. rewrite append_assoc. auto.
  - intros (pre & body & post & -> & -> & Hpre & Hpost).
    change ("{" +:+ body +:+ "}" +:+ post)
      with (String "{" (body +:+ String "}" post)).
    rewrite (fromFirstOpen_skips _ _ Hpre). simpl.
    change (String "{" (body +:+ String "}" post))
      with (String "{" body +:+ String "}" post).
    now rewrite (toLastClose_keeps _ _ Hpost).
Qed.

(** *** Fields that the schemas do not name *)

(** *** Requests that are refused outright *)

(** X10. A request whose body has no usable store handle, or whose
    [existingQuestions] is present and not an array, causes no call of the
    provider. A body other than [null] is answered with status 400 and
    nothing is written on the console; on the body [null] the
    destructuring throws, and the answer is status 500 after one line on
    the console. *)
Theorem unusable_request_makes_no_call parse (request : Thrown + JSON) p b :
  request = inr b ->
  falsy (requestField "vectorStoreId" request) = true
  \/ asArray (existingQuestionsOf request) = None ->
  requests (POST parse request) p tt = [] /\
  (b <> JNull ->
     effects (POST parse request) p tt = [] /\
     exists message,
       result (POST parse request) p tt = inr (respond 400 (Message message))) /\
  (b = JNull ->
     effects (POST parse request) p tt
       = [ConsoleError "API Error in /api/chat:"] /\
     exists message,
       result (POST parse request) p tt = inr (respond 500 (Failure message))).
Proof.
  intros Hb Hbad.
  destruct (POST_outcome parse request p)
    as (_ & _ & Hid & Hnull & Harr & _).
  cbv zeta in *.
  assert (Hsome : b <> JNull ->
    effects (POST parse request) p tt = [] /\
    exists message,
      result (POST parse request) p tt = inr (respond 400 (Message message))).
  { intros Hn.
    destruct (falsy (requestField "vectorStoreId" request)) eqn:Hfalsy.
    - destruct (Hid b Hb Hn eq_refl) as [-> Ht]. eauto.
    - destruct Hbad as [|Hbad]; [discriminate|].
      destruct (Harr eq_refl Hbad) as [-> Ht]. eauto. }
  assert (Hnone : b = JNull ->
    effects (POST parse request) p tt
      = [ConsoleError "API Error in /api/chat:"] /\
    exists message,
      result (POST parse request) p tt = inr (respond 500 (Failure message))).
  { intros ->. destruct (Hnull Hb) as [Hres Ht]. auto. }
  split; [|split; assumption].
  unfold requests.
  assert (Hcases : b = JNull \/ b <> JNull)
    by (destruct b; [left; reflexivity | right; discriminate ..]).
  destruct Hcases as [Hn|Hn].
  - now rewrite (proj1 (Hnone Hn)).
  - now rewrite (proj1 (Hsome Hn)).
Qed.

Lemma unusable_request_makes_no_call_witness :
  requests (POST Examples.JSON_parse (inr JNull))
           (Examples.answering_with "" "completed" (inr tt)) tt = [] /\
  (JNull <> JNull ->
     effects (POST Examples.JSON_parse (inr JNull))
             (Examples.answering_with "" "completed" (inr tt)) tt = [] /\
     exists message,
       result (POST Examples.JSON_parse (inr JNull))
              (Examples.answering_with "" "completed" (inr tt)) tt
       = inr (respond 400 (Message message))) /\
  (JNull = JNull ->
     effects (POST Examples.JSON_parse (inr JNull))
             (Examples.answering_with "" "completed" (inr tt)) tt
       = [ConsoleError "API Error in /api/chat:"] /\
     exists message,
       result (POST Examples.JSON_parse (inr JNull))
              (Examples.answering_with "" "completed" (inr tt)) tt
       = inr (respond 500 (Failure message))).
Proof.
  apply (unusable_request_makes_no_call Examples.JSON_parse
           (inr JNull) _ JNull).
  - reflexivity.
  - left. reflexivity.
Defined.

(** *** Which resources are deleted *)

(** X11. The handler asks for the deletion of nothing but the assistant
    and the thread it created, the assistant first, and of nothing before
    the run has been polled. When the run ends with a status other than
    "completed", and when the quiz is returned, the deletion of the
    assistant is requested and then that of the thread; the thread is
    skipped only if the deletion of the assistant was rejected. *)
Theorem deletions_follow_creations parse request p :
  let t := effects (POST parse request) p tt in
  deletedIds t `prefix_of` createdIds t /\
  (runStatus t = None -> deletedIds t = []) /\
  (forall st, runStatus t = Some st -> st <> "completed" ->
     exists a th, createdIds t = [a; th] /\
       (deletedIds t = [a; th] \/
        deletedIds t = [a] /\ lastRejection t <> None)) /\
  (forall response q,
     result (POST parse request) p tt = inr response ->
     body response = QuizBody q ->
     exists a th, createdIds t = [a; th] /\ deletedIds t = [a; th]).
Proof.
  paths p.
  all: leaf.
  all: repeat lazymatch goal with |- _ /\ _ => split end.
  all: try solve [ eexists; reflexivity | exists []; reflexivity
                 | intros; discriminate | reflexivity ].
  all: intros; subst;
       repeat match goal with
       | H : (_ =? _)%string = true |- _ => apply String.eqb_eq in H; subst
       | H : Some _ = Some _ |- _ => injection H as H; subst
       | H : inr _ = inr _ |- _ => injection H as H; subst
       | H : newResponse _ _ = inr _ |- _ =>
           apply newResponse_inr in H as [H _]
       | H : body _ = QuizBody _ |- _ => cbn in H
       end;
       try congruence; try discriminate.
  all: do 2 eexists; (split; [reflexivity|]);
       first [ left; reflexivity
             | right; split; [reflexivity|discriminate]
             | reflexivity ].
Qed.

(** *** The fallback request *)

(** X12. The structured fallback is requested exactly when the text of
    the assistant does not parse, once, and with that text. What it
    returns goes through the schema like a parsed answer: a value that
    fails it is answered with status 400. When it returns nothing, the
    response is the 500 "Failed to generate structured quiz response". *)
Theorem fallback_only_for_unparsable_answers parse request p :
  let t := effects (POST parse request) p tt in
  let r := result (POST parse request) p tt in
  (answerText t = None -> fallbacks t = []) /\
  (forall text v, answerText t = Some text ->
     parseText parse text = Some v -> fallbacks t = []) /\
  (forall text, answerText t = Some text -> parseText parse text = None ->
     exists reply, fallbacks t = [(text, reply)] /\
       match reply with
       | inl _ => True
       | inr parsed =>
           (falsy parsed = true ->
              r = inr (respond 500
                (Failure "Failed to generate structured quiz response"))) /\
           (forall v issues, parsed = Some v -> falsy parsed = false ->
              QuizSchema v = Invalid issues ->
              r = inr (respond 400
                (InvalidFormat "Invalid quiz format generated by AI."))) /\
           (forall v q, parsed = Some v -> falsy parsed = false ->
              QuizSchema v = Valid q -> lastRejection t = None ->
              r = inr (ok (QuizBody q)))
       end).
Proof.
  paths p.
  all: leaf.
  all: repeat lazymatch goal with |- _ /\ _ => split end.
  all: try solve [ reflexivity | intros; discriminate ].
  all: try match goal with
       | H : find isAssistant ?r = _ |- context [find isAssistant ?r] =>
           rewrite H; leaf
       end.
  all: try solve [ reflexivity | intros; discriminate ].
  all: intros;
       repeat match goal with
       | H : Some _ = Some _ |- _ => injection H as H; subst
       end;
       try congruence.
  all: eexists; (split; [reflexivity|]); leaf;
       repeat lazymatch goal with |- _ /\ _ => split end;
       intros; subst;
       repeat match goal with
       | H : Some _ = Some _ |- _ => injection H as H; subst
       end;
       try congruence; try discriminate; auto.
Qed.

End GenerationFacts.

(** ** Further properties of the upload gateway *)

Module TransferFacts.
Import JS Remote Upload ResponseFacts UploadFacts.
Local Open Scope js_scope.

(** *** Validation *)

Lemma validateFiles_first_offender
    (files : list File) (acc : Z) (response : Response Body) :
  validateFiles files acc = inl response <->
  exists pre file post,
    files = pre ++ file :: post /\
    Forall (fun f => isPdf f = true /\ (size f <= MAX_FILE_SIZE)%Z) pre /\
    (isPdf file = false /\ response = notPdf file \/
     isPdf file = true /\ (MAX_FILE_SIZE < size file)%Z /\
     response = respond 400 (Message ("File " +:+ name file
                  +:+ " is too large. Maximum file size is 10MB."))).
Proof.
  revert acc. induction files as [|f files IH]; intros acc; cbn [validateFiles].
  - split; [discriminate|].
    intros (pre & file & post & Heq & _). destruct pre; discriminate.
  - destruct (isPdf f) eqn:Hpdf; cbn [negb].
    + destruct (Z.gtb_spec (size f) MAX_FILE_SIZE) as [Hbig|Hsmall].
      * split.
        -- intros [= <-]. exists [], f, files. repeat split; auto.
        -- intros (pre & file & post & Heq & Hpre & Hfile).
           destruct pre as [|g pre]; cbn in Heq; injection Heq as <- ->.
           ++ destruct Hfile as [[? _]|(_ & _ & ->)]; congruence.
           ++ apply Forall_cons in Hpre as [[_ ?] _]. lia.
      * rewrite IH. split.
        -- intros (pre & file & post & -> & Hpre & Hfile).
           exists (f :: pre), file, post.
           split; [reflexivity|]. split; [|exact Hfile].
           constructor; auto.
        -- intros (pre & file & post & Heq & Hpre & Hfile).
           destruct pre as [|g pre]; cbn in Heq; injection Heq as <- ->.
           ++ destruct Hfile as [[? _]|(_ & ? & _)]; [congruence|lia].
           ++ apply Forall_cons in Hpre as [_ Hpre]. eauto 10.
    + split.
      * intros [= <-]. exists [], f, files. repeat split; auto.
      * intros (pre & file & post & Heq & Hpre & Hfile).
        destruct pre as [|g pre]; cbn in Heq; injection Heq as <- ->.
        -- destruct Hfile as [[_ ->]|(? & _)]; congruence.
        -- apply Forall_cons in Hpre as [[? _] _]. congruence.
Qed.

(** X13. Validation stops at the first file that is not a PDF or is above
    the per-file limit, and the response names that file: it is rejected
    exactly when the batch splits into files that pass, the offending
    file, and the rest, which is never looked at. *)
Theorem validation_names_the_first_offender
    (files : list File) (acc : Z) (response : Response Body) :
  validateFiles files acc = inl response <->
  exists pre file post,
    files = pre ++ file :: post /\
    Forall (fun f => isPdf f = true /\ (size f <= MAX_FILE_SIZE)%Z) pre /\
    (isPdf file = false /\ response = notPdf file \/
     isPdf file = true /\ (MAX_FILE_SIZE < size file)%Z /\
     response = respond 400 (Message ("File " +:+ name file
                  +:+ " is too large. Maximum file size is 10MB."))).
Proof.
  exact (validateFiles_first_offender files acc response).
Qed.

Lemma totalSize_bound files :
  Forall (fun f => isPdf f = true /\ (size f <= MAX_FILE_SIZE)%Z) files ->
  (totalSize files <= Z.of_nat (length files) * MAX_FILE_SIZE)%Z.
Proof.
  induction 1 as [|f files [_ Hf] _ IH]; cbn [totalSize length]; lia.
Qed.

Lemma validated_total files total :
  length files <= 10 -> validateFiles files 0 = inr total ->
  (total <= MAX_TOTAL_SIZE)%Z.
Proof.
  intros Hlen Hval. apply validateFiles_passes in Hval as [Hall ->].
  apply totalSize_bound in Hall.
  unfold MAX_TOTAL_SIZE, MAX_FILE_SIZE in *. lia.
Qed.

(** *** The outer catch *)

Lemma onError_status error (p : Provider) s t :
  exists st m,
    onError error p s t
    = (newResponse st (Failure m), s,
       t ++ [ConsoleError "API Error in /api/upload:"]) /\
    st <> Some 413%Z /\
    (st = Some 500%Z \/ st = Some 400%Z \/ statusOf error = Some st).
Proof.
  unfold onError, bind, log, lift. cbn beta iota zeta.
  destruct error as [m|st m|m|m|]; cbn [messageOf default from_option id].
  2: destruct (Z.eqb_spec st 413) as [->|Hst]; cbn [orb].
  3: destruct (includes m "too large"); cbn [orb].
  4: cbn [is413]; destruct (Z.eqb_spec st 413) as [->|_]; [congruence|];
     rewrite ?orb_false_r.
  all: repeat match goal with
       | |- context [if ?b then _ else _] => destruct b
       end;
       do 2 eexists; (split; [reflexivity|]);
       (split; [congruence|]); cbn [statusOf]; auto.
Qed.

(** How a run ends: with a response that the route builds with a status
    of its own, or with what [new Response] makes of the status that the
    outer [catch] computed, which is never 413. *)
Lemma store_answers files (p : Provider) s t :
  exists r ids t',
    try_catch (store uploadFiles files) onError p s t = (r, ids, t') /\
    ((exists response, r = inr response /\ status response <> 413%Z /\
        forall m, body response <> Message m)
     \/ (exists st m, r = newResponse st (Failure m) /\ st <> Some 413%Z)).
Proof.
  unfold try_catch at 1, store, bind at 1, call at 1.
  cbn beta iota zeta.
  destruct (p string t VectorStoresCreate) as [e|vs].
  { destruct (onError_status e p s (t ++ [Request VectorStoresCreate (inl e)]))
      as (st & m & -> & Hst & _).
    do 3 eexists. split; [reflexivity|]. right. eauto. }
  unfold bind at 1, modify at 1. cbn beta iota zeta.
  unfold try_catch at 1, bind at 1.
  destruct (uploadFiles_run files p [] (t ++ [Request VectorStoresCreate (inr vs)]))
    as (r & u & new & Hrun & _ & _ & Hr).
  rewrite Hrun. cbn [app] in *.
  destruct r as [e|[]].
  - unfold bind at 1, get at 1. cbn beta iota zeta. unfold bind at 1.
    destruct (cleanupResources_run vs new p new
                ((t ++ [Request VectorStoresCreate (inr vs)]) ++ u))
      as (c & -> & _).
    unfold throw at 1.
    match goal with |- context [onError ?e ?p ?s ?t] =>
      destruct (onError_status e p s t) as (st & m' & -> & Hst & _) end.
    do 3 eexists. split; [reflexivity|]. right. eauto.
  - unfold attach. unfold bind at 1, get at 1. cbn beta iota zeta.
    unfold bind at 1, call at 1. cbn beta iota zeta.
    match goal with |- context [p Batch ?t ?c] =>
      destruct (p Batch t c) as [e|batch] end.
    + unfold bind at 1, get at 1. cbn beta iota zeta. unfold bind at 1.
      match goal with |- context [cleanupResources ?vs ?ids ?p ?s ?t] =>
        destruct (cleanupResources_run vs ids p s t) as (c & -> & _) end.
      unfold throw at 1.
      match goal with |- context [onError ?e ?p ?s ?t] =>
        destruct (onError_status e p s t) as (st & m' & -> & Hst & _) end.
      do 3 eexists. split; [reflexivity|]. right. eauto.
    + destruct (String.eqb (batch_status batch) "completed").
      { unfold ret. do 3 eexists. split; [reflexivity|]. left.
        eexists. split; [reflexivity|]. split; discriminate. }
      destruct (String.eqb (batch_status batch) "failed").
      { unfold bind at 1.
        match goal with |- context [cleanupResources ?vs ?ids ?p ?s ?t] =>
          destruct (cleanupResources_run vs ids p s t) as (c & -> & _) end.
        unfold ret. do 3 eexists. split; [reflexivity|]. left.
        eexists. split; [reflexivity|]. split; discriminate. }
      unfold ret. do 3 eexists. split; [reflexivity|]. left.
      eexists. split; [reflexivity|]. split; discriminate.
Qed.

Lemma POST_answers (request : Thrown + list File) (p : Provider) :
  (exists response,
     result (POST request) p [] = inr response /\
     status response <> 413%Z /\
     body response
       <> Message "Total upload size is too large. Maximum total size is 50MB.")
  \/ (exists st m,
        result (POST request) p [] = newResponse st (Failure m) /\
        st <> Some 413%Z).
Proof.
  remember (result (POST request) p []) as r eqn:Hr. revert Hr.
  unfold result, exec, POST, try_catch at 1, bind at 1, lift.
  cbn beta iota zeta.
  destruct request as [e|files].
  { destruct (onError_status e p [] []) as (st & m & -> & Hst & _).
    intros ->. right. exists st, m. split; [reflexivity|assumption]. }
  destruct (Nat.eqb_spec (length files) 0) as [_|_].
  { intros ->. left. eexists. split; [reflexivity|]. split; discriminate. }
  destruct (Nat.ltb_spec 10 (length files)) as [_|Hlen].
  { intros ->. left. eexists. split; [reflexivity|]. split; discriminate. }
  destruct (validateFiles files 0) as [response|total] eqn:Hval.
  { apply validateFiles_first_offender in Hval
      as (pre & file & post & _ & _ & [[_ ->]|(_ & _ & ->)]).
    all: intros ->; left; eexists; (split; [reflexivity|]); split; discriminate. }
  pose proof (validated_total files total Hlen Hval) as Htotal.
  destruct (Z.gtb_spec total MAX_TOTAL_SIZE); [lia|].
  destruct (store_answers files p [] [])
    as (r' & ids & t' & Hrun & [(response & -> & Hst & Hbody)|(st & m & -> & Hst)]).
  - fold (try_catch (A:=Response Body) (store uploadFiles files) onError p [] []).
    rewrite Hrun. intros ->. left. eexists. split; [reflexivity|]. split; auto.
  - fold (try_catch (A:=Response Body) (store uploadFiles files) onError p [] []).
    rewrite Hrun. intros ->. right. exists st, m.
    split; [reflexivity|assumption].
Qed.

(** X14. The check of the aggregate size can never fire: ten files of at
    most 20 MiB stay within the 200 MiB that it allows, so a batch is
    rejected for its count, a name or the size of one file only, and no
    request is ever answered with the message about the total size. *)
Theorem aggregate_limit_never_applies :
  (forall files total,
     length files <= 10 -> validateFiles files 0 = inr total ->
     (total <= MAX_TOTAL_SIZE)%Z) /\
  (forall files,
     violates files <->
     files = [] \/ 10 < length files \/
     Exists (fun file => isPdf file = false) files \/
     Exists (fun file => (MAX_FILE_SIZE < size file)%Z) files) /\
  (forall request p response,
     result (POST request) p [] = inr response ->
     body response
       <> Message "Total upload size is too large. Maximum total size is 50MB.").
Proof.
  split; [exact validated_total|]. split.
  - intros files. unfold violates. split; [|tauto].
    intros [?|[?|[?|[?|Htotal]]]]; auto.
    destruct (Nat.le_gt_cases (length files) 10) as [Hlen|]; [|auto].
    destruct (decide (Exists (fun file => isPdf file = false) files))
      as [|Hpdf]; [auto|].
    destruct (decide (Exists (fun file => (MAX_FILE_SIZE < size file)%Z) files))
      as [|Hbig]; [auto 6|].
    exfalso.
    assert (Hall : Forall (fun f => isPdf f = true
                                    /\ (size f <= MAX_FILE_SIZE)%Z) files).
    { apply Forall_forall. intros f Hin. split.
      - destruct (isPdf f) eqn:Hf; [reflexivity|].
        exfalso. apply Hpdf, Exists_exists. eauto.
      - destruct (Z.le_gt_cases (size f) MAX_FILE_SIZE); [assumption|].
        exfalso. apply Hbig, Exists_exists. eauto. }
    apply totalSize_bound in Hall.
    unfold MAX_TOTAL_SIZE, MAX_FILE_SIZE in *. lia.
  - intros request p response Hres.
    destruct (POST_answers request p)
      as [(response' & Hrun & _ & Hbody)|(st & m & Hrun & _)];
      rewrite Hres in Hrun.
    + injection Hrun as ->. exact Hbody.
    + symmetry in Hrun. apply newResponse_inr in Hrun as [-> _]. discriminate.
Qed.

(** X15. The status 413 is never passed on. A provider error with that
    status is answered with 400 and a message about the size of the
    files, and so is an error without a status whose message mentions 413
    or "Request Entity Too Large"; an error that carries neither a message
    nor a status is answered with 500 and the default message. A response
    of the outer [catch] has status 413 only when the error carries
    another number, which [new Response] reduces to 413, and no response
    that the route builds elsewhere has that status. *)
Theorem status_413_is_never_passed_on
    (request : Thrown + list File) (p : Provider) :
  (forall m (s : list string) t,
     onError (APIError 413 m) p s t
     = (inr (respond 400 (Failure
         "One or more files are too large. Please reduce file sizes and try again.")),
        s, t ++ [ConsoleError "API Error in /api/upload:"])) /\
  (forall error m (s : list string),
     messageOf error = Some m -> statusOf error = None ->
     (result (onError error) p s = inr
        (if includes m "Request Entity Too Large" || includes m "413"
         then respond 400 (Failure
                "Files are too large. Please reduce file sizes and try again.")
         else respond 500 (Failure m)))) /\
  result (POST (inl Primitive)) p []
  = inr (respond 500 (Failure "An unexpected error occurred during file upload.")) /\
  (forall error (s : list string) response,
     result (onError error) p s = inr response ->
     status response = 413%Z ->
     exists n, statusOf error = Some (Some n) /\ n <> 413%Z /\
               Z.rem n 65536 = 413%Z) /\
  (forall response,
     result (POST request) p [] = inr response -> status response = 413%Z ->
     exists st m, st <> Some 413%Z /\
                  newResponse st (Failure m) = inr response).
Proof.
  split.
  { intros m s t. unfold onError, bind, log, lift.
    cbn beta iota zeta. cbn [messageOf default from_option id].
    change (413 =? 413)%Z with true. cbn [orb]. reflexivity. }
  split.
  { intros error m s Hm Hs.
    unfold result, exec, onError, bind, log, lift. cbn beta iota zeta.
    rewrite Hm. cbn [default from_option id].
    destruct error; try discriminate; cbn [fst];
      change (is413 (Some 500%Z)) with false; rewrite orb_false_r;
      destruct (_ || _); reflexivity. }
  split; [reflexivity|]. split.
  - intros error s response Hres Hst.
    unfold result, exec in Hres.
    destruct (onError_status error p s []) as (st & m & Hrun & Hne & Hcases).
    rewrite Hrun in Hres. cbn [fst] in Hres.
    apply newResponse_inr in Hres as (_ & _ & _ & Hstatus).
    destruct Hcases as [->|[->|Hof]].
    + rewrite Hstatus in Hst. discriminate Hst.
    + rewrite Hstatus in Hst. discriminate Hst.
    + destruct st as [n|]; [|congruence].
      exists n. split; [exact Hof|]. split; congruence.
  - intros response Hres Hst.
    destruct (POST_answers request p)
      as [(response' & Hrun & Hne & _)|(st & m & Hrun & Hne)];
      rewrite Hres in Hrun.
    + injection Hrun as ->. contradiction.
    + eauto.
Qed.

(** *** A rejected upload *)

Lemma append_String x s c : String x s +:+ c = String x (s +:+ c).
Proof. reflexivity. Qed.

Lemma append_Empty c : "" +:+ c = c.
Proof. reflexivity. Qed.

Lemma prefix_app sub : forall s c,
  String.prefix sub s = true -> String.prefix sub (s +:+ c) = true.
Proof.
  induction sub as [|x sub IH]; intros [|y s] c;
    rewrite ?append_String, ?append_Empty; cbn [String.prefix];
    try discriminate; auto.
  - destruct c; reflexivity.
  - destruct (Ascii.ascii_dec x y); [apply IH|discriminate].
Qed.

Lemma prefix_nil sub c :
  String.prefix sub "" = true -> String.prefix sub c = true.
Proof. destruct sub; [destruct c; reflexivity|discriminate]. Qed.

Lemma includes_app_r s : forall sub c,
  includes s sub = true -> includes (s +:+ c) sub = true.
Proof.
  induction s as [|y s IH]; intros sub c H.
  - cbn [includes] in H. rewrite orb_false_r in H. rewrite append_Empty.
    destruct c; cbn [includes]; rewrite (prefix_nil sub _ H); reflexivity.
  - rewrite append_String. cbn [includes] in *.
    apply orb_true_iff in H as [H|H]; apply orb_true_iff.
    + left. rewrite <- append_String. exact (prefix_app sub (String y s) c H).
    + right. auto.
Qed.

Lemma includes_app_l a : forall s sub,
  includes s sub = true -> includes (a +:+ s) sub = true.
Proof.
  induction a as [|x a IH]; intros s sub H;
    rewrite ?append_String, ?append_Empty; auto.
  cbn [includes]. rewrite (IH _ _ H). apply orb_true_r.
Qed.

(** X16. When the provider rejects the upload of a file, no later file
    is sent and the batch is never attached; the files uploaded before it
    and the store are deleted. The answer does not pass on the status of
    the provider: it is 500 with a message that names the file, except
    that a file name containing "413" turns it into the 400 about files
    that are too large. *)
Theorem rejected_upload_ends_the_batch (files : list File) (p : Provider) :
  ~ violates files ->
  let t := effects (POST (inr files)) p [] in
  existsb isUploadRejected t = true ->
  exists pre file post vs,
    files = pre ++ file :: post /\
    created t = Some vs /\
    sent t = pre ++ [file] /\
    length (uploaded t) = length pre /\
    attached t = [] /\
    deletions t = (DeletedFile <$> uploaded t) ++ [DeletedStore vs] /\
    let message :=
      "Failed to upload file " +:+ name file +:+ ". Please try again." in
    result (POST (inr files)) p []
    = inr (if includes message "Request Entity Too Large"
              || includes message "413"
           then respond 400 (Failure
                  "Files are too large. Please reduce file sizes and try again.")
           else respond 500 (Failure message)) /\
    (includes (name file) "413" = true ->
     result (POST (inr files)) p []
     = inr (respond 400 (Failure
              "Files are too large. Please reduce file sizes and try again."))).
Proof.
  intros Hv. cbv zeta. unfold result, effects.
  rewrite (POST_passing files p Hv).
  remember (exec (try_catch (store uploadFiles files) onError) p []) as out
    eqn:Hout.
  revert Hout.
  unfold exec, try_catch at 1, store, bind at 1, call at 1.
  cbn beta iota zeta.
  destruct (p string [] VectorStoresCreate) as [e|vs] eqn:Hcreate.
  { destruct (onError_run e p [] ([] ++ [Request VectorStoresCreate (inl e)]))
      as (st & m & -> & _).
    intros ->. cbn. discriminate. }
  unfold bind at 1, modify at 1. cbn beta iota zeta.
  unfold try_catch at 1, bind at 1.
  destruct (uploadFiles_run files p [] ([] ++ [Request VectorStoresCreate (inr vs)]))
    as (r & u & new & Hrun & Hup & Honly & Hr).
  destruct (uploadFiles_stops files p [] ([] ++ [Request VectorStoresCreate (inr vs)]))
    as (r' & u' & new' & Hrun' & Hr').
  rewrite Hrun in Hrun'. injection Hrun' as <- <- <-.
  rewrite Hrun. cbn [app] in *.
  destruct r as [e|[]].
  - destruct Hr as [Hrej _].
    destruct Hr' as (pre & file & post & -> & Hsent & Hlen & ->).
    unfold bind at 1, get at 1. cbn beta iota zeta.
    unfold bind at 1.
    destruct (cleanupResources_run vs new p new
                (Request VectorStoresCreate (inr vs) :: u))
      as (c & -> & Hdel & Hconly & Hwarn).
    unfold throw at 1.
    unfold onError, bind, log, lift. cbn beta iota zeta.
    cbn [messageOf default from_option id].
    change (is413 (Some 500%Z)) with false. rewrite orb_false_r.
    intros -> _. exists pre, file, post, vs.
    assert (Hsentc : sent c = []).
    { destruct Hconly as (_ & _ & _ & Hno & Hnone).
      exact (quiet_sends_nothing c Hno Hnone). }
    pose proof (fun Hname =>
      includes_app_l "Failed to upload file " _ "413"
        (includes_app_r (name file) "413" ". Please try again." Hname))
      as H413.
    destruct (includes _ "Request Entity Too Large" || includes _ "413")
      eqn:Hb.
    all: cbn [fst snd]; unfold sent in *; observe.
    all: split; [reflexivity|]; split; [reflexivity|];
      split; [reflexivity|]; split; [lia|];
      split; [reflexivity|]; split; [reflexivity|];
      split; [reflexivity|].
    + reflexivity.
    + intros Hname. apply H413 in Hname.
      apply orb_false_iff in Hb as [_ Hb]. congruence.
  - destruct Hr as [Hrej Hlen].
    unfold attach. unfold bind at 1, get at 1. cbn beta iota zeta.
    unfold bind at 1, call at 1. cbn beta iota zeta.
    destruct (p Batch (Request VectorStoresCreate (inr vs) :: u)
                (FileBatchesCreateAndPoll vs new)) as [e|batch] eqn:Hbatch.
    + unfold bind at 1, get at 1. cbn beta iota zeta. unfold bind at 1.
      destruct (cleanupResources_run vs new p new
                  ((Request VectorStoresCreate (inr vs) :: u)
                     ++ [Request (FileBatchesCreateAndPoll vs new) (inl e)]))
        as (c & -> & Hdel & Hconly & Hwarn).
      unfold throw at 1.
      destruct (onError_run e p new
                  (((Request VectorStoresCreate (inr vs) :: u)
                      ++ [Request (FileBatchesCreateAndPoll vs new) (inl e)]) ++ c))
        as (st & m' & -> & Hst).
      intros ->. cbn [fst snd]. observe. discriminate.
    + destruct (String.eqb (batch_status batch) "completed").
      { unfold ret. intros ->. cbn [fst snd]. observe. discriminate. }
      destruct (String.eqb (batch_status batch) "failed").
      { unfold bind at 1.
        destruct (cleanupResources_run vs new p new
                    ((Request VectorStoresCreate (inr vs) :: u)
                       ++ [Request (FileBatchesCreateAndPoll vs new) (inr batch)]))
          as (c & -> & Hdel & Hconly & Hwarn).
        unfold ret. intros ->. cbn [fst snd]. observe. discriminate. }
      unfold ret. intros ->. cbn [fst snd]. observe. discriminate.
Qed.

Lemma rejected_upload_ends_the_batch_witness :
  exists pre file post vs,
    Examples.twoPdfs = pre ++ file :: post /\
    created (effects (POST (inr Examples.twoPdfs)) Examples.rejectingSecond [])
      = Some vs /\
    sent (effects (POST (inr Examples.twoPdfs)) Examples.rejectingSecond [])
      = pre ++ [file] /\
    length (uploaded (effects (POST (inr Examples.twoPdfs))
                        Examples.rejectingSecond []))
      = length pre /\
    attached (effects (POST (inr Examples.twoPdfs)) Examples.rejectingSecond [])
      = [] /\
    deletions (effects (POST (inr Examples.twoPdfs)) Examples.rejectingSecond [])
      = (DeletedFile <$> uploaded (effects (POST (inr Examples.twoPdfs))
                                     Examples.rejectingSecond []))
          ++ [DeletedStore vs] /\
    let message :=
      "Failed to upload file " +:+ name file +:+ ". Please try again." in
    result (POST (inr Examples.twoPdfs)) Examples.rejectingSecond []
    = inr (if includes message "Request Entity Too Large"
              || includes message "413"
           then respond 400 (Failure
                  "Files are too large. Please reduce file sizes and try again.")
           else respond 500 (Failure message)) /\
    (includes (name file) "413" = true ->
     result (POST (inr Examples.twoPdfs)) Examples.rejectingSecond []
     = inr (respond 400 (Failure
              "Files are too large. Please reduce file sizes and try again."))).
Proof.
  apply (rejected_upload_ends_the_batch
           Examples.twoPdfs Examples.rejectingSecond).
  - apply accepted_passes. reflexivity.
  - vm_compute. reflexivity.
Defined.

(** *** When the provider is contacted *)

Lemma violates_dec files : violates files \/ ~ violates files.
Proof.
  unfold violates.
  destruct files as [|f0 files0] eqn:Hfiles; [auto|]. rewrite <- Hfiles.
  destruct (decide (10 < length files)); [auto|].
  destruct (decide (Exists (fun file => isPdf file = false) files)); [auto|].
  destruct (decide (Exists (fun file => (MAX_FILE_SIZE < size file)%Z) files));
    [auto 6|].
  destruct (decide (MAX_TOTAL_SIZE < totalSize files)%Z); [auto 6|].
  right. intros [?|[?|[?|[?|?]]]]; try contradiction. congruence.
Qed.

Lemma violating_batch_is_silent files (p : Provider) :
  violates files -> effects (POST (inr files)) p [] = [].
Proof.
  intros Hv. unfold effects, exec, POST, try_catch, bind, lift, ret.
  destruct (Nat.eqb_spec (length files) 0) as [Hzero|Hzero]; [reflexivity|].
  destruct (Nat.ltb_spec 10 (length files)) as [Hmany|Hmany]; [reflexivity|].
  destruct (validateFiles files 0) as [response|total] eqn:Hval;
    [reflexivity|].
  exfalso. revert Hv. apply accepted_passes.
  destruct (validateFiles_passes _ _ _ Hval) as [Hall ->].
  pose proof (totalSize_bound files Hall) as Htotal.
  unfold accepted. rewrite !andb_true_iff. repeat split.
  - now apply negb_true_iff, Nat.eqb_neq.
  - now apply Nat.leb_le.
  - apply forallb_forall. intros f Hin. apply list_elem_of_In in Hin.
    rewrite Forall_forall in Hall. now destruct (Hall _ Hin).
  - apply forallb_forall. intros f Hin. apply list_elem_of_In in Hin.
    rewrite Forall_forall in Hall. apply Z.leb_le. now destruct (Hall _ Hin).
  - apply Z.leb_le. unfold MAX_TOTAL_SIZE, MAX_FILE_SIZE in *. lia.
Qed.

(** X17. The provider is contacted exactly for the batches that pass
    validation: a batch that breaks a constraint causes no call and no
    console line at all, and for any other batch the first thing the
    handler does is to create the vector store. *)
Theorem provider_is_contacted_iff_the_batch_passes
    (files : list File) (p : Provider) :
  (violates files <-> effects (POST (inr files)) p [] = []) /\
  (~ violates files <->
   exists rest,
     effects (POST (inr files)) p []
     = Request VectorStoresCreate (p string [] VectorStoresCreate) :: rest).
Proof.
  assert (Hpass : ~ violates files ->
    exists rest,
      effects (POST (inr files)) p []
      = Request VectorStoresCreate (p string [] VectorStoresCreate) :: rest).
  { intros Hv. unfold effects. rewrite (POST_passing files p Hv). unfold exec.
    destruct (store_starts uploadFiles onError files p [] []
                (uploadFiles_extends files p) (fun e => onError_extends e p))
      as (r & s' & rest & ->).
    eauto. }
  split; split.
  - apply violating_batch_is_silent.
  - intros Hnone. destruct (violates_dec files) as [|Hv]; [assumption|].
    destruct (Hpass Hv) as [rest Hrest]. congruence.
  - exact Hpass.
  - intros [rest Hrest] Hv.
    rewrite (violating_batch_is_silent files p Hv) in Hrest. discriminate.
Qed.

(** *** The version without limits *)

(** X18. The version of the route without limits checks the names only:
    it makes no call exactly when the batch is empty or holds a file that
    is not a PDF, naming the first such file, and for every other batch,
    of any number of files of any size, it starts by creating the
    store. *)
Theorem unlimited_route_checks_names_only (files : list File) (p : Provider) :
  (effects (Unlimited.POST (inr files)) p [] = [] <->
   files = [] \/ Exists (fun file => isPdf file = false) files) /\
  (files <> [] -> Forall (fun file => isPdf file = true) files ->
   exists rest,
     effects (Unlimited.POST (inr files)) p []
     = Request VectorStoresCreate (p string [] VectorStoresCreate) :: rest) /\
  (forall pre file post,
     files = pre ++ file :: post -> forallb isPdf pre = true ->
     isPdf file = false ->
     result (Unlimited.POST (inr files)) p [] = inr (notPdf file)).
Proof.
  split; [split|split].
  - intros Hnone. destruct files as [|f0 files0] eqn:Hfiles; [auto|right].
    rewrite <- Hfiles in *.
    destruct (find (fun file => negb (isPdf file)) files) as [file|] eqn:Hfind.
    + apply find_some in Hfind as [Hin Hfile].
      apply Exists_exists. exists file.
      split; [now apply list_elem_of_In|]. now apply negb_true_iff.
    + destruct (unlimited_starts files p) as [rest Hrest];
        [subst; discriminate|exact Hfind|].
      congruence.
  - intros [->|Hex]; [reflexivity|].
    destruct (find (fun file => negb (isPdf file)) files) as [file|] eqn:Hfind.
    + apply find_first in Hfind as (pre & post & Heq & Hpre & Hfile).
      unfold effects.
      rewrite (unlimited_rejects_first files p pre file post Heq);
        [reflexivity| |now apply negb_true_iff].
      now rewrite forallb_negb_negb in Hpre.
    + exfalso. apply Exists_exists in Hex as (file & Hin & Hfile).
      apply list_elem_of_In in Hin.
      apply (find_none _ _ Hfind) in Hin. rewrite Hfile in Hin. discriminate.
  - intros Hne Hall. apply unlimited_starts; [assumption|].
    destruct (find _ files) as [file|] eqn:Hfind; [|reflexivity].
    apply find_some in Hfind as [Hin Hfile].
    rewrite Forall_forall in Hall. apply list_elem_of_In in Hin.
    rewrite (Hall _ Hin) in Hfile. discriminate.
  - intros pre file post Heq Hpre Hfile. unfold result.
    now rewrite (unlimited_rejects_first files p pre file post Heq Hpre Hfile).
Qed.

(** *** The test on the name *)

Lemma append_empty_r s : s +:+ "" = s.
Proof.
  induction s as [|x s IH]; [reflexivity|].
  now rewrite append_String, IH.
Qed.

Lemma append_assoc' (a b c : string) : (a +:+ b) +:+ c = a +:+ (b +:+ c).
Proof.
  induction a as [|x a IH]; [reflexivity|].
  now rewrite !append_String, IH.
Qed.

Lemma prefix_split a : forall b,
  String.prefix a b = true <-> exists c, b = a +:+ c.
Proof.
  induction a as [|x a IH]; intros b.
  - split; [|destruct b; reflexivity]. exists b. reflexivity.
  - destruct b as [|y b]; cbn [String.prefix].
    + split; [discriminate|]. intros [c Hc]. discriminate.
    + destruct (Ascii.ascii_dec x y) as [<-|Hne].
      * rewrite IH. split; intros [c Hc]; exists c.
        -- now rewrite append_String, <- Hc.
        -- rewrite append_String in Hc. now injection Hc.
      * split; [discriminate|]. intros [c Hc].
        rewrite append_String in Hc. injection Hc as Hy _. congruence.
Qed.

Lemma rev_app_spec s : forall acc,
  String.rev_app s acc = String.rev s +:+ acc.
Proof.
  unfold String.rev.
  induction s as [|x s IH]; intros acc; cbn [String.rev_app]; [reflexivity|].
  rewrite (IH (String x acc)), (IH (String x "")).
  now rewrite append_assoc'.
Qed.

Lemma rev_String x s : String.rev (String x s) = String.rev s +:+ String x "".
Proof. unfold String.rev at 1. cbn [String.rev_app]. apply rev_app_spec. Qed.

Lemma rev_append a : forall b,
  String.rev (a +:+ b) = String.rev b +:+ String.rev a.
Proof.
  induction a as [|x a IH]; intros b.
  - now rewrite append_Empty, append_empty_r.
  - now rewrite append_String, !rev_String, IH, append_assoc'.
Qed.

Lemma rev_involutive s : String.rev (String.rev s) = s.
Proof.
  induction s as [|x s IH]; [reflexivity|].
  now rewrite rev_String, rev_append, IH.
Qed.

Lemma endsWith_split s suffix :
  endsWith s suffix = true <-> exists stem, s = stem +:+ suffix.
Proof.
  unfold endsWith. rewrite prefix_split. split.
  - intros [c Hc]. exists (String.rev c).
    rewrite <- (rev_involutive s), Hc, rev_append.
    now rewrite rev_involutive.
  - intros [stem ->]. exists (String.rev stem). apply rev_append.
Qed.

Lemma toLowerCase_append a b :
  toLowerCase (a +:+ b) = toLowerCase a +:+ toLowerCase b.
Proof.
  induction a as [|x a IH]; [reflexivity|].
  rewrite append_String. cbn [toLowerCase]. now rewrite IH, append_String.
Qed.

Lemma toLowerCase_split s : forall a' b',
  toLowerCase s = a' +:+ b' ->
  exists a b, s = a +:+ b /\ toLowerCase a = a' /\ toLowerCase b = b'.
Proof.
  induction s as [|x s IH]; intros a' b' H.
  - destruct a'; [|discriminate]. rewrite append_Empty in H.
    exists "", "". auto.
  - destruct a' as [|y a'].
    + exists "", (String x s). rewrite append_Empty in H. auto.
    + rewrite append_String in H. cbn [toLowerCase] in H.
      injection H as Hy H. destruct (IH _ _ H) as (a & b & -> & <- & <-).
      exists (String x a), b. cbn [toLowerCase]. rewrite Hy. auto.
Qed.

(** X19. A file passes the test on its name exactly when the name ends
    in [.pdf] written in any mix of upper and lower case: the test looks
    at the last four characters only, not at the content or the type of
    the file. *)
Theorem isPdf_tests_the_extension_only (file : File) :
  isPdf file = true <->
  exists stem ext, name file = stem +:+ ext /\ toLowerCase ext = ".pdf".
Proof.
  unfold isPdf. rewrite endsWith_split. split.
  - intros [stem' H]. apply toLowerCase_split in H as (stem & ext & H & _ & Hext).
    eauto.
  - intros (stem & ext & -> & Hext). exists (toLowerCase stem).
    now rewrite toLowerCase_append, Hext.
Qed.

End TransferFacts.

(** ** The session as the user can drive it *)

Module GuardedFacts.
Import Page.

Lemma view_cases s :
  (view s = QuizView <->
     quizStarted s = true /\ quizFinished s = false /\ questions s <> []) /\
  (view s = FinishedView <-> quizFinished s = true) /\
  (view s = UploadView <->
     quizFinished s = false /\ (quizStarted s = false \/ questions s = [])).
Proof.
  unfold view, answering.
  destruct (quizStarted s), (quizFinished s), (questions s);
    cbn; repeat split; intros; try discriminate; try tauto; try congruence;
    intuition (try discriminate; try congruence).
Qed.

Lemma singleton_split {A} (l1 l2 : list A) x y :
  l1 ++ x :: l2 = [y] -> l1 = [] /\ l2 = [] /\ x = y.
Proof.
  destruct l1 as [|z l1]; cbn; intros [= -> Hrest].
  - subst; auto.
  - destruct l1; discriminate.
Qed.

Lemma flags_in_flight fl1 p fl2 s :
  flags_match {| page := s; inFlight := fl1 ++ p :: fl2 |} ->
  fl1 = [] /\ fl2 = [].
Proof.
  unfold flags_match. cbn [inFlight].
  destruct (fl1 ++ p :: fl2) as [|x [|y l]] eqn:Heq.
  - destruct fl1; discriminate.
  - intros _. apply singleton_split in Heq. tauto.
  - destruct x; try destruct isContinuation; contradiction.
Qed.

Lemma handleFileChange_quiz files draw s :
  let s' := handleFileChange files draw s in
  questions s' = questions s /\ currentQuestionIndex s' = currentQuestionIndex s /\
  isAnswered s' = isAnswered s /\ score s' = score s /\
  quizStarted s' = quizStarted s /\ quizFinished s' = quizFinished s /\
  isLoading s' = isLoading s /\ isUploading s' = isUploading s.
Proof.
  cbv zeta. unfold handleFileChange.
  destruct files as [files|]; [|repeat split].
  destruct (newFilesFrom draw 0 files); repeat split.
Qed.

Ltac same_quiz H :=
  destruct H as (Hq & Hi & Ha & Hsc & Hst & Hfin & Hl & Hu);
  unfold bounded, flags_match, view, answering, settled in *;
  cbn [page inFlight] in *;
  rewrite ?Hq, ?Hi, ?Ha, ?Hsc, ?Hst, ?Hfin, ?Hl, ?Hu.

Lemma nothing_in_flight s fl :
  flags_match {| page := s; inFlight := fl |} ->
  isLoading s = false ->
  isUploading s = false \/ view s <> UploadView ->
  fl = [].
Proof.
  unfold flags_match. cbn [page inFlight].
  destruct fl as [|[|c] [|y l]]; try tauto; try congruence.
  - intros (_ & Hu & Hv) _ [?|?]; congruence.
  - intros (Hl & _) ?; congruence.
Qed.

Ltac open_up :=
  unfold bounded, flags_match, view, answering, settled in *;
  cbn [page inFlight app] in *.

Lemma ui_step_invariant a b :
  ui_step a b -> bounded (page a) /\ flags_match a ->
  bounded (page b) /\ flags_match b.
Proof.
  intros Hstep [Hb Hf].
  destruct Hstep as
    [ files draw s fl Hview | f s fl Hview Hin
    | s s1 fl Hview Hne Hl Hu Hneed Hbegin | s fl Hview Hne Hl Hu Hneed
    | up s fl1 fl2 Hfalsy | up s fl1 fl2 Hfalsy | c r s fl1 fl2
    | o q s fl Hview Ha Hq Ho | s fl Hview Ha | s fl Hview
    | s c fl Hview Hl Hid ].
  - (* files are picked *)
    pose proof (handleFileChange_quiz files draw s) as H. cbv zeta in H.
    same_quiz H. auto.
  - (* a file is removed *)
    destruct s. open_up. cbn in *. auto.
  - (* start, with an upload *)
    unfold uploadFilesToVectorStore_begin in *.
    destruct (selectedFiles s) eqn:Hfiles; [congruence|].
    injection Hbegin as <-.
    rewrite (nothing_in_flight s fl Hf Hl (or_introl Hu)) in *.
    clear Hfiles Hneed Hne.
    destruct s. open_up. cbn in *. subst.
    split; [exact Hb|]. repeat split; auto.
  - (* start, the files being uploaded *)
    rewrite (nothing_in_flight s fl Hf Hl (or_introl Hu)) in *.
    destruct s. open_up. cbn in *. subst.
    repeat split; intros; try discriminate; try congruence; try lia.
  - (* the upload failed *)
    destruct (flags_in_flight _ _ _ _ Hf) as [-> ->].
    destruct s, up; open_up; cbn in *; intuition.
  - (* the upload succeeded *)
    destruct (flags_in_flight _ _ _ _ Hf) as [-> ->].
    destruct s, up; open_up; cbn in *;
      repeat split; intros; try discriminate; try congruence; try lia.
  - (* a generation request is answered *)
    destruct (flags_in_flight _ _ _ _ Hf) as [-> ->].
    unfold fetchQuizFromVectorStore_end, handleProcessQuizData.
    destruct s as [files vs qs i sel ans sc ld upl err st fin].
    destruct r as [m|code text eb|[[[[|q0 qs']|]]|]], c, qs, ans;
      open_up; cbn in *;
      rewrite ?length_app in *; cbn [length] in *;
      intuition (try discriminate; try congruence; try lia).
  - (* an option is selected *)
    unfold handleOptionSelect. rewrite Ha.
    destruct s as [files vs qs i sel ans sc ld upl err st fin].
    destruct (correct o), qs, fl as [|[|c'] [|? ?]];
      open_up; cbn in *; subst;
      intuition (try discriminate; try congruence; try lia).
  - (* next *)
    unfold handleNextQuestion.
    destruct s as [files vs qs i sel ans sc ld upl err st fin].
    cbn [currentQuestionIndex questions].
    destruct (Z.ltb_spec (Z.of_nat i) (Z.of_nat (length qs) - 1)),
             qs, fl as [|[|c'] [|? ?]];
      open_up; cbn in *; subst;
      intuition (try discriminate; try congruence; try lia).
  - (* upload new files *)
    destruct s as [files vs qs i sel ans sc ld upl err st fin].
    destruct fl as [|[|c'] [|? ?]], st, fin, qs;
      open_up; cbn in *; subst;
      intuition (try discriminate; try congruence; try lia).
  - (* more questions, restart *)
    assert (fl = []) as ->.
    { apply (nothing_in_flight s fl Hf Hl). right. congruence. }
    destruct s as [files vs qs i sel ans sc ld upl err st fin].
    destruct c, qs, st, fin; open_up; cbn in *; subst;
      intuition (try discriminate; try congruence; try lia).
Qed.

Lemma ui_reachable_invariant x :
  ui_reachable x -> bounded (page x) /\ flags_match x.
Proof.
  induction 1 as [|a b _ IH Hstep].
  - unfold bounded, flags_match, settled. cbn.
    repeat split; intros; try discriminate; try congruence; lia.
  - exact (ui_step_invariant a b Hstep IH).
Qed.

(** X20. In every session that the user can reach through the controls
    the page renders, with responses arriving at any time after their
    requests, the score is at most the number of questions, the result
    view has at least one question to divide by, the question view has a
    current question, and at most one request is in flight: the loading
    flag is set exactly while a generation request is pending and the
    uploading flag exactly while an upload is. *)
Theorem score_is_within_the_quiz (x : Session) :
  ui_reachable x ->
  score (page x) <= length (questions (page x)) /\
  (view (page x) = FinishedView -> questions (page x) <> []) /\
  (view (page x) = QuizView ->
     is_Some (questions (page x) !! currentQuestionIndex (page x))) /\
  length (inFlight x) <= 1 /\
  (isLoading (page x) = true <->
     exists isContinuation, inFlight x = [PendingFetch isContinuation]) /\
  (isUploading (page x) = true <-> inFlight x = [PendingUpload]).
Proof.
  intros Hreach.
  destruct (ui_reachable_invariant x Hreach) as [(Hsc & Hnone & Hsome & Hfin) Hf].
  destruct (view_cases (page x)) as (Hquiz & Hdone & _).
  destruct x as [s fl]. cbn [page inFlight] in *.
  assert (Hidx : questions s <> [] ->
                 currentQuestionIndex s < length (questions s)) by exact Hsome.
  split; [|split; [|split; [|split; [|split]]]].
  - unfold settled in Hsc.
    destruct (questions s) as [|q qs] eqn:Hqs.
    + destruct Hnone as (-> & _); [reflexivity|]. cbn. lia.
    + assert (currentQuestionIndex s < length (q :: qs)) by (apply Hidx; discriminate).
      destruct (isAnswered s); lia.
  - intros Hview. apply Hfin, Hdone, Hview.
  - intros Hview. apply lookup_lt_is_Some, Hidx.
    apply Hquiz in Hview. tauto.
  - unfold flags_match in Hf. cbn [inFlight] in Hf.
    destruct fl as [|p [|p' fl]]; cbn [length]; try lia.
    destruct p as [|c]; contradiction.
  - unfold flags_match in Hf. cbn [inFlight page] in Hf.
    destruct fl as [|[|c] [|p' fl]]; try contradiction.
    + destruct Hf as [Hl _]. split; [congruence|]. intros [c [=]].
    + destruct Hf as [Hl _]. split; [congruence|]. intros [c [=]].
    + destruct Hf as [Hl _]. split; eauto.
  - unfold flags_match in Hf. cbn [inFlight page] in Hf.
    destruct fl as [|[|c] [|p' fl]]; try contradiction.
    + destruct Hf as [_ Hu]. split; [congruence|discriminate].
    + destruct Hf as (_ & Hu & _). split; auto.
    + destruct Hf as (_ & Hu & _). split; [congruence|discriminate].
Qed.

Lemma score_is_within_the_quiz_witness :
  score Examples.finished <= length (questions Examples.finished) /\
  (view Examples.finished = FinishedView -> questions Examples.finished <> []) /\
  (view Examples.finished = QuizView ->
     is_Some (questions Examples.finished
                !! currentQuestionIndex Examples.finished)) /\
  length (@nil Pending) <= 1 /\
  (isLoading Examples.finished = true <->
     exists isContinuation, [] = [PendingFetch isContinuation]) /\
  (isUploading Examples.finished = true <-> [] = [PendingUpload]).
Proof.
  apply (score_is_within_the_quiz {| page := Examples.finished; inFlight := [] |}).
  apply (ui_after {| page := Examples.answered; inFlight := [] |});
    [|exact (ui_next Examples.answered [] eq_refl eq_refl)].
  apply (ui_after {| page := Examples.quizzing; inFlight := [] |});
    [|refine (ui_select Examples.paris Examples.capital Examples.quizzing []
                eq_refl eq_refl eq_refl _); apply list_elem_of_here].
  apply (ui_after {| page := Examples.generating;
                     inFlight := [PendingFetch false] |});
    [|exact (ui_fetched false (Ok (Some {| quiz := Some [Examples.capital] |}))
               Examples.generating [] [])].
  apply (ui_after {| page := Examples.sending; inFlight := [PendingUpload] |});
    [|exact (ui_uploaded (Ok (Some "vs_1")) Examples.sending [] [] eq_refl)].
  apply (ui_after {| page := Examples.staged; inFlight := [] |});
    [|refine (ui_start_upload Examples.staged Examples.sending []
                eq_refl _ eq_refl eq_refl eq_refl eq_refl); discriminate].
  apply (ui_after {| page := initial; inFlight := [] |});
    [apply ui_initial|].
  exact (ui_pick (Some [Examples.picked]) (fun _ => "k3j9x0a1b") initial []
           eq_refl).
Defined.

End GuardedFacts.
